(** * Motion: the V4L2 capture layer (src/video_v4l2.c)

    A shallow embedding of the functions of video_v4l2.c that carry the
    capture layer's contracts, followed by the statements proved about them.

    Conventions.
    - A C [int] is a [Z]; [/] and [%] are the truncating [Z.quot] and
      [Z.rem], and a division by zero is a trap ([None]). Where the code
      adds, subtracts or multiplies [int]s it does not bound, the result is
      stored through [wrap_int] ([int_add], [int_sub], [int_mul]): outside
      the range of [int] it wraps around, as in the compiled code. [atoi]
      is the C library's: [strtol], which saturates at the range of a
      64-bit [long], cut down to an [int].
    - [u32] fields of kernel structures are [Z]s in [0, 2^32); the casts
      between [u32] and [int] are written out ([to_int], [to_u32]).
    - An array of [n] entries with its separate count field is a [list];
      the count is the list's length.
    - The kernel is an explicit oracle: what [ioctl]/[open] answer is an
      input of the model, what the code asks is recorded in a trace. *)

From Stdlib Require Import ZArith List String Ascii Bool Lia.
Import ListNotations.
Open Scope Z_scope.

(* ================================================================== *)
(** * Part I. Definitions *)
(* ================================================================== *)

(** ** C arithmetic *)

Definition TRUE : Z := 1.
Definition FALSE : Z := 0.

(** [#define MAX2(x, y) ((x) > (y) ? (x) : (y))] *)
Definition MAX2 (x y : Z) : Z := if x >? y then x else y.
(** [#define MIN2(x, y) ((x) < (y) ? (x) : (y))] *)
Definition MIN2 (x y : Z) : Z := if x <? y then x else y.

Definition c_div (a b : Z) : option Z :=
  if b =? 0 then None else Some (Z.quot a b).
Definition c_mod (a b : Z) : option Z :=
  if b =? 0 then None else Some (Z.rem a b).

(** [(int)x] for a [u32] x, and the conversion of an [int] stored into a
    [u32] field. *)
Definition to_int (x : Z) : Z := if x <? 2 ^ 31 then x else x - 2 ^ 32.
Definition to_u32 (x : Z) : Z := x mod 2 ^ 32.

(** The [int] an arithmetic result is stored as: a result outside the range
    of [int] wraps around, as it does in the compiled code. *)
Definition wrap_int (x : Z) : Z := to_int (to_u32 x).

(** [+], [-] and [*] on two [int]s. *)
Definition int_add (a b : Z) : Z := wrap_int (a + b).
Definition int_sub (a b : Z) : Z := wrap_int (a - b).
Definition int_mul (a b : Z) : Z := wrap_int (a * b).

(** The range of a 64-bit [long]. *)
Definition LONG_MAX : Z := 2 ^ 63 - 1.
Definition LONG_MIN : Z := - 2 ^ 63.

(** A small error monad for code that can trap. *)
Definition bind {A B : Type} (m : option A) (k : A -> option B) : option B :=
  match m with
  | Some a => k a
  | None => None
  end.

Notation "x <- m ;; k" := (bind m (fun x => k))
  (at level 61, m at next level, right associativity).

(** ** The C library functions the file calls *)

Definition is_space (c : ascii) : bool :=
  let n := nat_of_ascii c in
  (Nat.eqb n 32 || (Nat.leb 9 n && Nat.leb n 13))%bool.

Definition digit_of (c : ascii) : option Z :=
  let n := Z.of_nat (nat_of_ascii c) in
  if (48 <=? n) && (n <=? 57) then Some (n - 48) else None.

Fixpoint skip_space (s : string) : string :=
  match s with
  | String c s' => if is_space c then skip_space s' else s
  | EmptyString => s
  end.

Fixpoint atoi_digits (s : string) (acc : Z) : Z :=
  match s with
  | String c s' =>
      match digit_of c with
      | Some d => atoi_digits s' (10 * acc + d)
      | None => acc
      end
  | EmptyString => acc
  end.

(** The number a text denotes, as [strtol] reads it in base 10: leading
    white space, an optional sign, then decimal digits up to the first
    character that is not one. *)
Definition text_value (s : string) : Z :=
  match skip_space s with
  | String "-"%char s' => - atoi_digits s' 0
  | String "+"%char s' => atoi_digits s' 0
  | s' => atoi_digits s' 0
  end.

(** [strtol(s, NULL, 10)]: that number, or the bound of [long] it lies
    beyond. *)
Definition strtol (s : string) : Z :=
  let v := text_value s in
  if v >? LONG_MAX then LONG_MAX
  else if v <? LONG_MIN then LONG_MIN
  else v.

(** [atoi(s)], which is [(int) strtol(s, NULL, 10)]: a number outside the
    range of [int] is truncated to its low 32 bits. *)
Definition atoi (s : string) : Z := wrap_int (strtol s).

Definition digit_char (d : Z) : ascii := ascii_of_nat (Z.to_nat (48 + d)).

(** Decimal digits of a non-negative number, most significant first; the
    fuel bounds the number of digits (10 are enough for a 32-bit value). *)
Fixpoint dec_digits (fuel : nat) (n : Z) : string :=
  match fuel with
  | O => EmptyString
  | S f =>
      if n <? 10 then String (digit_char n) EmptyString
      else append (dec_digits f (n / 10)) (String (digit_char (n mod 10)) EmptyString)
  end.

(** The text [snprintf(buf, 32, "%d", v)] produces for an [int] v; its
    length is the value [snprintf] returns. *)
Definition sprintf_d (v : Z) : string :=
  if v <? 0 then String "-"%char (dec_digits 10 (- v)) else dec_digits 10 v.

Fixpoint zeros (n : nat) : string :=
  match n with
  | O => EmptyString
  | S k => String "0"%char (zeros k)
  end.

(** [sprintf(buf, "ID%08d", v)] for a non-negative v. *)
Definition sprintf_ID08d (v : Z) : string :=
  let d := dec_digits 10 v in
  append "ID" (append (zeros (8 - String.length d)) d).

(** [strcmp(a, b) == 0] and [strcasecmp(a, b) == 0]: what [mystreq] and
    [mystrceq] of util.c are instantiated with in the examples. *)
Definition streq (a b : string) : bool := String.eqb a b.

Definition to_lower (c : ascii) : ascii :=
  let n := nat_of_ascii c in
  if (Nat.leb 65 n && Nat.leb n 90)%bool then ascii_of_nat (n + 32) else c.

Fixpoint strceq (a b : string) : bool :=
  match a, b with
  | EmptyString, EmptyString => true
  | String x a', String y b' =>
      (Ascii.eqb (to_lower x) (to_lower y) && strceq a' b')%bool
  | _, _ => false
  end.

(** ** Constants of <linux/videodev2.h> *)

Definition v4l2_fourcc (a b c d : ascii) : Z :=
  Z.lor (Z.lor (Z.of_nat (nat_of_ascii a))
               (Z.shiftl (Z.of_nat (nat_of_ascii b)) 8))
        (Z.lor (Z.shiftl (Z.of_nat (nat_of_ascii c)) 16)
               (Z.shiftl (Z.of_nat (nat_of_ascii d)) 24)).

Definition V4L2_PIX_FMT_SN9C10X : Z := v4l2_fourcc "S" "9" "1" "0".
Definition V4L2_PIX_FMT_SBGGR16 : Z := v4l2_fourcc "B" "Y" "R" "2".
Definition V4L2_PIX_FMT_SBGGR8 : Z := v4l2_fourcc "B" "A" "8" "1".
Definition V4L2_PIX_FMT_SPCA561 : Z := v4l2_fourcc "S" "5" "6" "1".
Definition V4L2_PIX_FMT_SGBRG8 : Z := v4l2_fourcc "G" "B" "R" "G".
Definition V4L2_PIX_FMT_SGRBG8 : Z := v4l2_fourcc "G" "R" "B" "G".
Definition V4L2_PIX_FMT_PAC207 : Z := v4l2_fourcc "P" "2" "0" "7".
Definition V4L2_PIX_FMT_PJPG : Z := v4l2_fourcc "P" "J" "P" "G".
Definition V4L2_PIX_FMT_MJPEG : Z := v4l2_fourcc "M" "J" "P" "G".
Definition V4L2_PIX_FMT_JPEG : Z := v4l2_fourcc "J" "P" "E" "G".
Definition V4L2_PIX_FMT_RGB24 : Z := v4l2_fourcc "R" "G" "B" "3".
Definition V4L2_PIX_FMT_SPCA501 : Z := v4l2_fourcc "S" "5" "0" "1".
Definition V4L2_PIX_FMT_SPCA505 : Z := v4l2_fourcc "S" "5" "0" "5".
Definition V4L2_PIX_FMT_SPCA508 : Z := v4l2_fourcc "S" "5" "0" "8".
Definition V4L2_PIX_FMT_UYVY : Z := v4l2_fourcc "U" "Y" "V" "Y".
Definition V4L2_PIX_FMT_YUYV : Z := v4l2_fourcc "Y" "U" "Y" "V".
Definition V4L2_PIX_FMT_YUV422P : Z := v4l2_fourcc "4" "2" "2" "P".
Definition V4L2_PIX_FMT_YUV420 : Z := v4l2_fourcc "Y" "U" "1" "2".
Definition V4L2_PIX_FMT_Y10 : Z := v4l2_fourcc "Y" "1" "0" " ".
Definition V4L2_PIX_FMT_Y12 : Z := v4l2_fourcc "Y" "1" "2" " ".
Definition V4L2_PIX_FMT_GREY : Z := v4l2_fourcc "G" "R" "E" "Y".
Definition V4L2_PIX_FMT_H264 : Z := v4l2_fourcc "H" "2" "6" "4".

Definition V4L2_CTRL_TYPE_INTEGER : Z := 1.
Definition V4L2_CTRL_TYPE_BOOLEAN : Z := 2.
Definition V4L2_CTRL_TYPE_MENU : Z := 3.

Definition V4L2_CID_BRIGHTNESS : Z := 0x00980900.
Definition V4L2_CID_EXPOSURE : Z := 0x00980911.
Definition V4L2_CID_EXPOSURE_ABSOLUTE : Z := 0x009a0902.

Definition EINTR : Z := 4.

(** ** The palette catalog *)

Definition V4L2_PALETTE_COUNT_MAX : Z := 21.

(** [v4l2_palette_init]: the [v4l2id] column of the catalog, by index. *)
Definition v4l2_palette_init : list Z :=
  [ V4L2_PIX_FMT_SN9C10X; V4L2_PIX_FMT_SBGGR16; V4L2_PIX_FMT_SBGGR8;
    V4L2_PIX_FMT_SPCA561; V4L2_PIX_FMT_SGBRG8; V4L2_PIX_FMT_SGRBG8;
    V4L2_PIX_FMT_PAC207; V4L2_PIX_FMT_PJPG; V4L2_PIX_FMT_MJPEG;
    V4L2_PIX_FMT_JPEG; V4L2_PIX_FMT_RGB24; V4L2_PIX_FMT_SPCA501;
    V4L2_PIX_FMT_SPCA505; V4L2_PIX_FMT_SPCA508; V4L2_PIX_FMT_UYVY;
    V4L2_PIX_FMT_YUYV; V4L2_PIX_FMT_YUV422P; V4L2_PIX_FMT_YUV420;
    V4L2_PIX_FMT_Y10; V4L2_PIX_FMT_Y12; V4L2_PIX_FMT_GREY;
    V4L2_PIX_FMT_H264 ].

(** [palette_array[indx].v4l2id] for an index inside the array. *)
Definition v4l2id (indx : Z) : Z := nth (Z.to_nat indx) v4l2_palette_init 0.

(** ** User parameters and control descriptors *)

(** [struct params_item_ctx]: one [name=value] pair of the user's
    [video_params]. *)
Record params_item_ctx := mk_param {
  param_name : string;
  param_value : string
}.

(** [struct vid_devctrl_ctx]: one entry of [curdev->devctrl_array]. *)
Record vid_devctrl_ctx := mk_devctrl {
  ctrl_name : string;
  ctrl_iddesc : string;
  ctrl_id : Z;
  ctrl_type : Z;
  ctrl_menuitem : bool;
  ctrl_default : Z;
  ctrl_currval : Z;
  ctrl_newval : Z;
  ctrl_minimum : Z;
  ctrl_maximum : Z
}.

Definition set_ctrl_newval (d : vid_devctrl_ctx) (v : Z) : vid_devctrl_ctx :=
  mk_devctrl (ctrl_name d) (ctrl_iddesc d) (ctrl_id d) (ctrl_type d)
    (ctrl_menuitem d) (ctrl_default d) (ctrl_currval d) v
    (ctrl_minimum d) (ctrl_maximum d).

Definition set_ctrl_currval (d : vid_devctrl_ctx) (v : Z) : vid_devctrl_ctx :=
  mk_devctrl (ctrl_name d) (ctrl_iddesc d) (ctrl_id d) (ctrl_type d)
    (ctrl_menuitem d) (ctrl_default d) v (ctrl_newval d)
    (ctrl_minimum d) (ctrl_maximum d).

Definition set_param_value (u : params_item_ctx) (v : string) : params_item_ctx :=
  mk_param (param_name u) v.

(** ** Log messages

    [MOTION_LOG] calls are kept where a contract speaks of them: each call
    is a level and the message it formats. *)

Inductive log_level := ERR | WRN | NTC | INF | DBG | ALR | CRT.

Inductive log_msg :=
| Msg_below_minimum (name value : string) (minimum : Z)
| Msg_above_maximum (name value : string) (maximum : Z)
| Msg_type_not_supported
| Msg_device_not_ready
| Msg_set_control (name : string) (value : Z)
| Msg_setting_failed (iddesc name : string) (value : Z)
| Msg_error_resetting
| Msg_leaving_control (iddesc name : string) (value : Z).

Abbreviation log_entry := (log_level * log_msg)%type.

(** ** xioctl *)

Module Xioctl.

(** What one [ioctl] call answers: its return value and the [errno] it
    leaves. *)
Record ioctl_result := mk_res { ret : Z; errno : Z }.

(** The kernel, as seen by one [xioctl] call: the answer to the n-th
    attempt. *)
Definition kernel : Type := nat -> ioctl_result.

(** [src_v4l2_t], the fields [xioctl] reads.  [finish] has the C type
    [volatile unsigned int *]: [None] is the null pointer, [Some a] the
    address a of a thread's [cnt->finish] word. *)
Record src_v4l2_t := mk_src { fd_device : Z; finish : option nat }.

(** The memory holding the [finish] words. *)
Definition memory : Type := nat -> Z.

(** [!vid_source->finish]: the pointer itself is tested. *)
Definition not_finish (vid_source : src_v4l2_t) : bool :=
  match finish vid_source with
  | None => true
  | Some _ => false
  end.

(** [do ret = ioctl(...); while (-1 == ret && EINTR == errno &&
    !vid_source->finish); return ret;] from attempt n on.  The result is
    the value returned and the number of attempts made so far; the fuel
    bounds the number of iterations. *)
Fixpoint xioctl_loop (fuel : nat) (vid_source : src_v4l2_t) (k : kernel)
    (n : nat) : option (Z * nat) :=
  match fuel with
  | O => None
  | S f =>
      let r := k n in
      if (-1 =? ret r) && (EINTR =? errno r) && not_finish vid_source
      then xioctl_loop f vid_source k (S n)
      else Some (ret r, S n)
  end.

Definition xioctl (fuel : nat) (vid_source : src_v4l2_t) (k : kernel)
    : option (Z * nat) :=
  xioctl_loop fuel vid_source k O.

(** [v4l2_device_init], lines 1348-1353: the private structure of a device
    opened by [v4l2_start]; [cnt_finish] is [&cnt->finish]. *)
Definition v4l2_device_init (fd : Z) (cnt_finish : nat) : src_v4l2_t :=
  mk_src fd (Some cnt_finish).

(** [calloc(sizeof(src_v4l2_t), 1)] followed by the [open] of
    [v4l2_palette_valid] and [v4l2_parms_valid]: every other field is
    zero. *)
Definition calloc_src (fd : Z) : src_v4l2_t := mk_src fd None.

(** The retry rule in the specification's words: an interrupted call is
    reissued while the shutdown flag, read through the pointer, is not
    set. *)
Definition shutdown_not_set (m : memory) (vid_source : src_v4l2_t) : bool :=
  match finish vid_source with
  | None => true
  | Some a => m a =? 0
  end.

Fixpoint xioctl_spec_loop (fuel : nat) (m : memory) (vid_source : src_v4l2_t)
    (k : kernel) (n : nat) : option (Z * nat) :=
  match fuel with
  | O => None
  | S f =>
      let r := k n in
      if (-1 =? ret r) && (EINTR =? errno r) && shutdown_not_set m vid_source
      then xioctl_spec_loop f m vid_source k (S n)
      else Some (ret r, S n)
  end.

(** A kernel whose first answer is an interrupted call and whose second is
    a success. *)
Definition interrupted_once : kernel :=
  fun n => match n with
           | O => mk_res (-1) EINTR
           | _ => mk_res 0 0
           end.

(** A kernel that keeps answering with an interrupted call. *)
Definition interrupted_forever : kernel := fun _ => mk_res (-1) EINTR.

End Xioctl.

(** ** Control manager and autobrightness *)

Module Ctrl.

(** The fields of [struct context] these functions use:
    [cnt->conf.roundrobin_skip], [cnt->vdev->params_array] (with its count),
    [cnt->vdev->update_params], [cnt->imgs.image_vprvcy.image_norm] and
    [cnt->imgs.motionsize]. *)
Record context := mk_cnt {
  roundrobin_skip : Z;
  params_array : list params_item_ctx;
  update_params : Z;
  image_norm : list Z;
  motionsize : Z
}.

(** The fields of [struct video_dev] these functions use;
    [v4l2_private] is [false] for a null pointer. *)
Record video_dev := mk_dev {
  devctrl_array : list vid_devctrl_ctx;
  v4l2_private : bool;
  starting : bool
}.

Definition devctrl_count (curdev : video_dev) : Z :=
  Z.of_nat (List.length (devctrl_array curdev)).

Definition set_params_array (cnt : context) (ps : list params_item_ctx) : context :=
  mk_cnt (roundrobin_skip cnt) ps (update_params cnt) (image_norm cnt)
    (motionsize cnt).

Definition set_devctrl_array (curdev : video_dev) (a : list vid_devctrl_ctx)
    : video_dev :=
  mk_dev a (v4l2_private curdev) (starting curdev).

Section ControlManager.

(** [mystrceq] of util.c, which is not part of this file. *)
Variable mystrceq : string -> string -> bool.

(** The device under [xioctl(vid_source, VIDIOC_S_CTRL, &vid_ctrl)]: from a
    device state, the control id and the value, the next state and the
    value [xioctl] returns. *)
Variable K : Type.
Variable s_ctrl : K -> Z -> Z -> K * Z.

(** The test shared by [v4l2_parms_set] and [v4l2_parm_reset]. *)
Definition usr_matches (devitem : vid_devctrl_ctx) (usritem : params_item_ctx)
    : bool :=
  mystrceq (ctrl_iddesc devitem) (param_name usritem)
  || mystrceq (ctrl_name devitem) (param_name usritem).

(** *** v4l2_parms_set *)

(** The body of the inner loop, lines 430-458. *)
Definition parms_set_usr (devitem : vid_devctrl_ctx) (usritem : params_item_ctx)
    : vid_devctrl_ctx * list log_entry :=
  if usr_matches devitem usritem then
    if (ctrl_type devitem =? V4L2_CTRL_TYPE_MENU)
       || (ctrl_type devitem =? V4L2_CTRL_TYPE_INTEGER) then
      if atoi (param_value usritem) <? ctrl_minimum devitem then
        (set_ctrl_newval devitem (ctrl_minimum devitem),
         [(WRN, Msg_below_minimum (ctrl_name devitem) (param_value usritem)
                  (ctrl_minimum devitem))])
      else if atoi (param_value usritem) >? ctrl_maximum devitem then
        (set_ctrl_newval devitem (ctrl_maximum devitem),
         [(WRN, Msg_above_maximum (ctrl_name devitem) (param_value usritem)
                  (ctrl_maximum devitem))])
      else (set_ctrl_newval devitem (atoi (param_value usritem)), [])
    else if ctrl_type devitem =? V4L2_CTRL_TYPE_BOOLEAN then
      (set_ctrl_newval devitem (if atoi (param_value usritem) =? 0 then 0 else 1),
       [])
    else (devitem, [(WRN, Msg_type_not_supported)])
  else (devitem, []).

(** The inner loop over [cnt->vdev->params_array]. *)
Fixpoint parms_set_dev (devitem : vid_devctrl_ctx)
    (params : list params_item_ctx) : vid_devctrl_ctx * list log_entry :=
  match params with
  | [] => (devitem, [])
  | usritem :: rest =>
      let '(d1, l1) := parms_set_usr devitem usritem in
      let '(d2, l2) := parms_set_dev d1 rest in
      (d2, l1 ++ l2)
  end.

(** The outer loop over [curdev->devctrl_array]. *)
Fixpoint parms_set_loop (devs : list vid_devctrl_ctx)
    (params : list params_item_ctx) : list vid_devctrl_ctx * list log_entry :=
  match devs with
  | [] => ([], [])
  | devitem :: rest =>
      let '(d, l1) := parms_set_dev devitem params in
      let '(ds, l2) := parms_set_loop rest params in
      (d :: ds, l1 ++ l2)
  end.

Definition v4l2_parms_set (cnt : context) (curdev : video_dev)
    : Z * context * video_dev * list log_entry :=
  let cnt :=
    if roundrobin_skip cnt <? 0
    then mk_cnt 1 (params_array cnt) (update_params cnt) (image_norm cnt)
           (motionsize cnt)
    else cnt in
  if devctrl_count curdev =? 0 then
    (0, mk_cnt (roundrobin_skip cnt) (params_array cnt) FALSE (image_norm cnt)
          (motionsize cnt), curdev, [])
  else
    let '(devs, l) := parms_set_loop (devctrl_array curdev) (params_array cnt) in
    (0, cnt, set_devctrl_array curdev devs, l).

(** *** v4l2_parm_reset *)

(** The loop of lines 315-329; the boolean tells that the function returned
    from inside the loop. *)
Fixpoint parm_reset_loop (devitem : vid_devctrl_ctx)
    (params : list params_item_ctx) : list params_item_ctx * bool :=
  match params with
  | [] => ([], false)
  | usritem :: rest =>
      if usr_matches devitem usritem then
        let v := sprintf_d (ctrl_currval devitem) in
        let retcd := Z.of_nat (String.length v) in
        if (retcd <? 0) || (retcd >? 31) then
          (set_param_value usritem v :: rest, true)
        else
          let '(rest', e) := parm_reset_loop devitem rest in
          (set_param_value usritem v :: rest', e)
      else
        let '(rest', e) := parm_reset_loop devitem rest in
        (usritem :: rest', e)
  end.

Definition v4l2_parm_reset (params : list params_item_ctx)
    (devitem : vid_devctrl_ctx)
    : list params_item_ctx * vid_devctrl_ctx * list log_entry :=
  let '(params', early) := parm_reset_loop devitem params in
  if early then (params', devitem, [(WRN, Msg_error_resetting)])
  else
    (params', set_ctrl_newval devitem (ctrl_currval devitem),
     [(WRN, Msg_leaving_control (ctrl_iddesc devitem) (ctrl_name devitem)
              (ctrl_currval devitem))]).

(** *** v4l2_ctrls_set *)

(** A descriptor the loops act on: not a menu item, and its requested
    value differs from its current one. *)
Definition differs (devitem : vid_devctrl_ctx) : bool :=
  negb (ctrl_menuitem devitem)
  && negb (ctrl_currval devitem =? ctrl_newval devitem).

Definition log_set (starting : bool) (devitem : vid_devctrl_ctx)
    : list log_entry :=
  if starting
  then [(INF, Msg_set_control (ctrl_name devitem) (ctrl_newval devitem))]
  else [].

(** The state of the first loop, lines 352-372: the device, whether a set
    failed, the [VIDIOC_S_CTRL] calls issued (id, value) and the log. *)
Record pass1 := mk_pass1 {
  p1_kernel : K;
  p1_devs : list vid_devctrl_ctx;
  p1_failed : bool;
  p1_calls : list (Z * Z);
  p1_log : list log_entry
}.

Fixpoint ctrls_set_pass1 (starting : bool) (k : K)
    (devs : list vid_devctrl_ctx) : pass1 :=
  match devs with
  | [] => mk_pass1 k [] false [] []
  | devitem :: rest =>
      if differs devitem then
        let '(k1, retcd) := s_ctrl k (ctrl_id devitem) (ctrl_newval devitem) in
        let r := ctrls_set_pass1 starting k1 rest in
        if retcd <? 0 then
          mk_pass1 (p1_kernel r) (devitem :: p1_devs r) true
            ((ctrl_id devitem, ctrl_newval devitem) :: p1_calls r) (p1_log r)
        else
          mk_pass1 (p1_kernel r)
            (set_ctrl_currval devitem (ctrl_newval devitem) :: p1_devs r)
            (p1_failed r)
            ((ctrl_id devitem, ctrl_newval devitem) :: p1_calls r)
            (log_set starting devitem ++ p1_log r)
      else
        let r := ctrls_set_pass1 starting k rest in
        mk_pass1 (p1_kernel r) (devitem :: p1_devs r) (p1_failed r)
          (p1_calls r) (p1_log r)
  end.

(** The state of the second loop, lines 381-405, which also rewrites the
    user's parameters through [v4l2_parm_reset]. *)
Record pass2 := mk_pass2 {
  p2_kernel : K;
  p2_params : list params_item_ctx;
  p2_devs : list vid_devctrl_ctx;
  p2_calls : list (Z * Z);
  p2_log : list log_entry
}.

Fixpoint ctrls_set_pass2 (starting : bool) (k : K)
    (params : list params_item_ctx) (devs : list vid_devctrl_ctx) : pass2 :=
  match devs with
  | [] => mk_pass2 k params [] [] []
  | devitem :: rest =>
      if differs devitem then
        let '(k1, retcd) := s_ctrl k (ctrl_id devitem) (ctrl_newval devitem) in
        if retcd <? 0 then
          let '(params1, devitem1, l1) := v4l2_parm_reset params devitem in
          let r := ctrls_set_pass2 starting k1 params1 rest in
          mk_pass2 (p2_kernel r) (p2_params r) (devitem1 :: p2_devs r)
            ((ctrl_id devitem, ctrl_newval devitem) :: p2_calls r)
            ((WRN, Msg_setting_failed (ctrl_iddesc devitem) (ctrl_name devitem)
                     (ctrl_newval devitem)) :: l1 ++ p2_log r)
        else
          let r := ctrls_set_pass2 starting k1 params rest in
          mk_pass2 (p2_kernel r) (p2_params r)
            (set_ctrl_currval devitem (ctrl_newval devitem) :: p2_devs r)
            ((ctrl_id devitem, ctrl_newval devitem) :: p2_calls r)
            (log_set starting devitem ++ p2_log r)
      else
        let r := ctrls_set_pass2 starting k params rest in
        mk_pass2 (p2_kernel r) (p2_params r) (devitem :: p2_devs r)
          (p2_calls r) (p2_log r)
  end.

(** What [v4l2_ctrls_set] returns and leaves behind. *)
Record ctrls_result := mk_ctrls {
  cs_ret : Z;
  cs_cnt : context;
  cs_dev : video_dev;
  cs_kernel : K;
  cs_calls : list (Z * Z);
  cs_log : list log_entry
}.

Definition v4l2_ctrls_set (cnt : context) (curdev : video_dev) (k : K)
    : ctrls_result :=
  if negb (v4l2_private curdev) then
    mk_ctrls (-1) cnt curdev k [] [(WRN, Msg_device_not_ready)]
  else
    let r1 := ctrls_set_pass1 (starting curdev) k (devctrl_array curdev) in
    if p1_failed r1 then
      let r2 := ctrls_set_pass2 (starting curdev) (p1_kernel r1)
                  (params_array cnt) (p1_devs r1) in
      mk_ctrls 0 (set_params_array cnt (p2_params r2))
        (set_devctrl_array curdev (p2_devs r2)) (p2_kernel r2)
        (p1_calls r1 ++ p2_calls r2) (p1_log r1 ++ p2_log r2)
    else
      mk_ctrls 0 cnt (set_devctrl_array curdev (p1_devs r1)) (p1_kernel r1)
        (p1_calls r1) (p1_log r1).

(** *** v4l2_autobright *)

Definition cid_bright : string := sprintf_ID08d V4L2_CID_BRIGHTNESS.
Definition cid_exp : string := sprintf_ID08d V4L2_CID_EXPOSURE.
Definition cid_expabs : string := sprintf_ID08d V4L2_CID_EXPOSURE_ABSOLUTE.

(** The loop of lines 497-512 over the user's parameters. *)
Definition autobright_target (method : Z) (params : list params_item_ctx) : Z :=
  fold_left
    (fun target usritem =>
       if (method =? 1)
          && (mystrceq (param_name usritem) "brightness"
              || mystrceq (param_name usritem) cid_bright)
       then atoi (param_value usritem)
       else if (method =? 2)
               && (mystrceq (param_name usritem) "exposure"
                   || mystrceq (param_name usritem) cid_exp)
       then atoi (param_value usritem)
       else if (method =? 3)
               && (mystrceq (param_name usritem) "exposure (absolute)"
                   || mystrceq (param_name usritem) cid_expabs)
       then atoi (param_value usritem)
       else target)
    params (-1).

(** The locals the loop of lines 515-539 sets. *)
Record ab_scan := mk_scan {
  device_value : Z;
  parm_max : Z;
  parm_min : Z;
  target : Z
}.

(** The body shared by the three branches of that loop. *)
Definition ab_take (devitem : vid_devctrl_ctx) (s : ab_scan) : ab_scan :=
  mk_scan (ctrl_currval devitem) (ctrl_maximum devitem) (ctrl_minimum devitem)
    (if target s =? -1
     then Z.quot (int_sub (ctrl_maximum devitem) (ctrl_minimum devitem)) 2
     else target s).

Definition autobright_scan (method : Z) (devs : list vid_devctrl_ctx)
    (target0 : Z) : ab_scan :=
  fold_left
    (fun s devitem =>
       if (method =? 1) && (ctrl_id devitem =? V4L2_CID_BRIGHTNESS)
       then ab_take devitem s
       else if (method =? 2) && (ctrl_id devitem =? V4L2_CID_EXPOSURE)
       then ab_take devitem s
       else if (method =? 3) && (ctrl_id devitem =? V4L2_CID_EXPOSURE_ABSOLUTE)
       then ab_take devitem s
       else s)
    devs (mk_scan (-1) 255 0 target0).

(** The loop of lines 548-551: [indx] takes the values 0, 10, 20, ... below
    [motionsize]; the result is [avg] and [pixel_count]. The image is an
    array of [unsigned char]; the sum is an [int]. *)
Definition autobright_sum (image : list Z) (motionsize : Z) : Z * Z :=
  let n := Z.to_nat ((motionsize + 9) / 10) in
  (fold_left (fun avg i => int_add avg (nth (10 * i) image 0 mod 256))
     (seq 0 n) 0,
   Z.of_nat n).

(** Lines 548-556. Above 2147483640 no multiple of 10 that is an [int]
    ends the loop: [indx += 10] leaves the range of [int] and the loop reads
    outside the image ([None]). *)
Definition autobright_avg (cnt : context) (parm_max parm_min : Z) : option Z :=
  if motionsize cnt >? 2147483640 then None
  else
    let '(avg, pixel_count) :=
      autobright_sum (image_norm cnt) (motionsize cnt) in
    avg <- c_div avg pixel_count ;;
    let avg := int_mul avg (int_sub parm_max parm_min) in
    c_div avg 255.

(** Lines 558-585, with [parm_hysteresis] and [parm_damper] at the values
    set on lines 486-487: the new [device_value] and [make_change]. *)
Definition parm_hysteresis : Z := 20.
Definition parm_damper : Z := 20.

Definition autobright_adjust (avg target device_value parm_min parm_max : Z)
    : Z * bool :=
  let window_high := MIN2 (int_add target parm_hysteresis) parm_max in
  let window_low := MAX2 (int_sub target parm_hysteresis) parm_min in
  if avg >? window_high then
    let step := MIN2 (int_add (Z.quot (int_sub avg target) parm_damper) 1)
                     (int_sub device_value parm_min) in
    if device_value >? int_sub (int_add step 1) parm_min
    then (int_sub device_value step, true)
    else (parm_min, true)
  else if avg <? window_low then
    let step := MIN2 (int_add (Z.quot (int_sub target avg) parm_damper) 1)
                     (int_sub parm_max device_value) in
    if device_value <? int_sub parm_max step
    then (int_add device_value step, true)
    else (parm_max, true)
  else (device_value, false).

(** The loop of lines 588-597. *)
Definition autobright_stage (method : Z) (device_value : Z)
    (devs : list vid_devctrl_ctx) : list vid_devctrl_ctx :=
  map
    (fun devitem =>
       if (method =? 1) && (ctrl_id devitem =? V4L2_CID_BRIGHTNESS)
       then set_ctrl_newval devitem device_value
       else if (method =? 2) && (ctrl_id devitem =? V4L2_CID_EXPOSURE)
       then set_ctrl_newval devitem device_value
       else if (method =? 3) && (ctrl_id devitem =? V4L2_CID_EXPOSURE_ABSOLUTE)
       then set_ctrl_newval devitem device_value
       else devitem)
    devs.

Definition v4l2_autobright (cnt : context) (curdev : video_dev) (method : Z)
    : option (Z * video_dev) :=
  if (method =? 0) || (method >? 3) then Some (0, curdev)
  else
    let target0 := autobright_target method (params_array cnt) in
    let s := autobright_scan method (devctrl_array curdev) target0 in
    if device_value s =? -1 then Some (0, curdev)
    else
      avg <- autobright_avg cnt (parm_max s) (parm_min s) ;;
      let '(dv, make_change) :=
        autobright_adjust avg (target s) (device_value s) (parm_min s)
          (parm_max s) in
      if make_change
      then Some (0, set_devctrl_array curdev
                      (autobright_stage method dv (devctrl_array curdev)))
      else Some (0, curdev).

(** *** Notions the contracts are stated with *)

(** The control the configured method adjusts: brightness for 1, exposure
    for 2, absolute exposure for 3. *)
Definition ab_selected (method : Z) (devitem : vid_devctrl_ctx) : bool :=
  ((method =? 1) && (ctrl_id devitem =? V4L2_CID_BRIGHTNESS))
  || ((method =? 2) && (ctrl_id devitem =? V4L2_CID_EXPOSURE))
  || ((method =? 3) && (ctrl_id devitem =? V4L2_CID_EXPOSURE_ABSOLUTE)).

(** The user's request for a control: the last parameter that names it. *)
Definition last_request (devitem : vid_devctrl_ctx)
    (params : list params_item_ctx) : option params_item_ctx :=
  find (usr_matches devitem) (rev params).

(** A control with a numeric range: integer or menu type. *)
Definition ranged (devitem : vid_devctrl_ctx) : bool :=
  (ctrl_type devitem =? V4L2_CTRL_TYPE_INTEGER)
  || (ctrl_type devitem =? V4L2_CTRL_TYPE_MENU).

(** An out-of-range request: a parameter that names a ranged control with a
    value outside [minimum, maximum]. *)
Definition out_of_range_request (du : vid_devctrl_ctx * params_item_ctx)
    : bool :=
  let '(devitem, usritem) := du in
  usr_matches devitem usritem && ranged devitem
  && ((atoi (param_value usritem) <? ctrl_minimum devitem)
      || (atoi (param_value usritem) >? ctrl_maximum devitem)).

(** d' is the descriptor d with another requested value. *)
Definition restaged (d d' : vid_devctrl_ctx) : Prop :=
  d' = set_ctrl_newval d (ctrl_newval d').

(** What the request u stages on the control d, by the type of d: the
    violated boundary or the value itself for a ranged control, 0 or 1 for
    a boolean one, nothing for any other type. *)
Definition staged_by (d : vid_devctrl_ctx) (u : params_item_ctx)
    (d' : vid_devctrl_ctx) : Prop :=
  let v := atoi (param_value u) in
  restaged d d' /\
  (ranged d = true ->
     (v < ctrl_minimum d -> ctrl_newval d' = ctrl_minimum d) /\
     (ctrl_minimum d <= v -> ctrl_maximum d < v ->
        ctrl_newval d' = ctrl_maximum d) /\
     (ctrl_minimum d <= v <= ctrl_maximum d -> ctrl_newval d' = v)) /\
  (ctrl_type d = V4L2_CTRL_TYPE_BOOLEAN ->
     (v = 0 -> ctrl_newval d' = 0) /\ (v <> 0 -> ctrl_newval d' = 1)) /\
  (ranged d = false -> ctrl_type d <> V4L2_CTRL_TYPE_BOOLEAN -> d' = d).

Definition is_range_warning (e : log_entry) : bool :=
  match e with
  | (WRN, Msg_below_minimum _ _ _) => true
  | (WRN, Msg_above_maximum _ _ _) => true
  | _ => false
  end.

(** The [VIDIOC_S_CTRL] calls one pass over the array issues: one for
    each descriptor that differs, in array order. *)
Definition attempts (devs : list vid_devctrl_ctx) : list (Z * Z) :=
  map (fun d => (ctrl_id d, ctrl_newval d)) (filter differs devs).

(** The two ways a differing descriptor ends: its requested value became
    its current one, or its requested value was reset to its current one. *)
Definition applied (d : vid_devctrl_ctx) : vid_devctrl_ctx :=
  set_ctrl_currval d (ctrl_newval d).

Definition rolled_back (d : vid_devctrl_ctx) : vid_devctrl_ctx :=
  set_ctrl_newval d (ctrl_currval d).

(** The descriptors of devs that were rolled back, given the array devs'
    the call left: they differed and kept their current value. *)
Definition rolled_list (devs devs' : list vid_devctrl_ctx)
    : list vid_devctrl_ctx :=
  map fst
    (filter (fun dd => differs (fst dd)
                       && (ctrl_currval (snd dd) =? ctrl_currval (fst dd)))
       (combine devs devs')).

(** The user's parameters once those naming d are rewritten to its current
    value. *)
Definition rewritten (d : vid_devctrl_ctx) (params : list params_item_ctx)
    : list params_item_ctx :=
  map (fun u => if usr_matches d u
                then set_param_value u (sprintf_d (ctrl_currval d))
                else u)
    params.

(** The warning that reports a rollback. *)
Definition is_rollback_warning (e : log_entry) : bool :=
  match e with
  | (WRN, Msg_leaving_control _ _ _) => true
  | _ => false
  end.

(** The warning logged for the rollback of d. *)
Definition rollback_warning (d : vid_devctrl_ctx) : log_entry :=
  (WRN, Msg_leaving_control (ctrl_iddesc d) (ctrl_name d) (ctrl_currval d)).

(** What the driver answers to a sequence of [VIDIOC_S_CTRL] calls, (id,
    value) each, made one after the other from the state k, and the state
    it is left in. *)
Fixpoint replies (k : K) (calls : list (Z * Z)) : K * list Z :=
  match calls with
  | [] => (k, [])
  | (id, value) :: rest =>
      let '(k1, retcd) := s_ctrl k id value in
      let '(k', rs) := replies k1 rest in
      (k', retcd :: rs)
  end.

(** The descriptors of devs the driver refused, given its answers rs to the
    attempts of one pass over devs, in order: those that differ and whose
    write returned a negative value. *)
Fixpoint refused (devs : list vid_devctrl_ctx) (rs : list Z)
    : list vid_devctrl_ctx :=
  match devs with
  | [] => []
  | d :: rest =>
      if differs d then
        match rs with
        | r :: rs' => if r <? 0 then d :: refused rest rs' else refused rest rs'
        | [] => []
        end
      else refused rest rs
  end.

(** The array such a pass is meant to leave: a descriptor whose write was
    accepted is applied, one whose write was refused becomes what
    on_refusal makes of it, every other one is untouched. *)
Fixpoint settle (on_refusal : vid_devctrl_ctx -> vid_devctrl_ctx)
    (devs : list vid_devctrl_ctx) (rs : list Z) : list vid_devctrl_ctx :=
  match devs with
  | [] => []
  | d :: rest =>
      if differs d then
        match rs with
        | r :: rs' =>
            (if r <? 0 then on_refusal d else applied d)
            :: settle on_refusal rest rs'
        | [] => d :: rest
        end
      else d :: settle on_refusal rest rs
  end.

End ControlManager.

(** A device that refuses every [VIDIOC_S_CTRL] on the control [locked]
    and accepts every other one; it has no state. *)
Definition locked_control (locked : Z) : unit -> Z -> Z -> unit * Z :=
  fun k id _ => (k, if id =? locked then -1 else 0).

(** A device on which control 2 can only be set once control 1 has been set
    to 1 (its state tells whether that happened). *)
Definition unlockable_control : bool -> Z -> Z -> bool * Z :=
  fun unlocked id value =>
    if id =? 1 then (value =? 1, 0)
    else if id =? 2 then (unlocked, if unlocked then 0 else -1)
    else (unlocked, 0).

(** The two controls of such a device, the locked one first: control 2 is
    asked to go from 0 to 5, control 1 from 0 to 1. *)
Definition unlockable_devs : list vid_devctrl_ctx :=
  [ mk_devctrl "Exposure" "ID00000002" 2 V4L2_CTRL_TYPE_INTEGER false 0 0 5 0 10;
    mk_devctrl "Manual" "ID00000001" 1 V4L2_CTRL_TYPE_BOOLEAN false 0 0 1 0 1 ].

Definition brightness_ctrl (cur new : Z) : vid_devctrl_ctx :=
  mk_devctrl "Brightness" (sprintf_ID08d V4L2_CID_BRIGHTNESS)
    V4L2_CID_BRIGHTNESS V4L2_CTRL_TYPE_INTEGER false 128 cur new 0 255.

End Ctrl.

(** ** Format negotiation *)

Module Pixfmt.

(** [struct v4l2_pix_format], the fields the code reads or writes; all are
    [u32]. *)
Record v4l2_pix_format := mk_pix {
  pix_width : Z;
  pix_height : Z;
  pix_pixelformat : Z;
  pix_bytesperline : Z
}.

(** The capture device as the negotiation sees it through [xioctl]:
    - [enum_fmt]: the pixel format [VIDIOC_ENUM_FMT] reports at each index;
      past the end of the list the call returns -1;
    - [try_fmt]: what [VIDIOC_TRY_FMT] returns and the format as the driver
      rewrote it;
    - [s_fmt]: what [VIDIOC_S_FMT] returns. *)
Record v4l2_device := mk_device {
  enum_fmt : list Z;
  try_fmt : v4l2_pix_format -> Z * v4l2_pix_format;
  s_fmt : v4l2_pix_format -> Z
}.

(** One [VIDIOC_TRY_FMT] issued by [v4l2_pixfmt_try]: the pixel format and
    the configured size it was issued for. *)
Record trial := mk_trial {
  trial_pixformat : Z;
  trial_width : Z;
  trial_height : Z
}.

(** The state the negotiation works on: [cnt->conf.width],
    [cnt->conf.height], the user's parameters, [curdev->width],
    [curdev->height], [curdev->pixfmt_src], [vid_source->dst_fmt], the
    trials issued so far and the formats handed to [VIDIOC_S_FMT] so far. *)
Record state := mk_state {
  conf_width : Z;
  conf_height : Z;
  params_array : list params_item_ctx;
  width : Z;
  height : Z;
  pixfmt_src : Z;
  dst_fmt : v4l2_pix_format;
  trials : list trial;
  commits : list v4l2_pix_format
}.

Definition set_conf (s : state) (w h : Z) : state :=
  mk_state w h (params_array s) (width s) (height s) (pixfmt_src s)
    (dst_fmt s) (trials s) (commits s).

Definition set_size (s : state) (w h : Z) : state :=
  mk_state (conf_width s) (conf_height s) (params_array s) w h (pixfmt_src s)
    (dst_fmt s) (trials s) (commits s).

Definition set_pixfmt_src (s : state) (p : Z) : state :=
  mk_state (conf_width s) (conf_height s) (params_array s) (width s) (height s)
    p (dst_fmt s) (trials s) (commits s).

Definition set_tried (s : state) (fmt : v4l2_pix_format) (t : trial) : state :=
  mk_state (conf_width s) (conf_height s) (params_array s) (width s) (height s)
    (pixfmt_src s) fmt (trials s ++ [t]) (commits s).

Definition set_committed (s : state) (fmt : v4l2_pix_format) : state :=
  mk_state (conf_width s) (conf_height s) (params_array s) (width s) (height s)
    (pixfmt_src s) (dst_fmt s) (trials s) (commits s ++ [fmt]).

(** What a negotiation function returns: [Some retcd], or [None] when it
    traps on a division by zero; the state reached comes with it. *)
Definition outcome : Type := option Z * state.

Definition v4l2_pixfmt_try (dev : v4l2_device) (s : state) (pixformat : Z)
    : Z * state :=
  let req := mk_pix (to_u32 (conf_width s)) (to_u32 (conf_height s)) pixformat 0 in
  let '(retcd, fmt) := try_fmt dev req in
  let s := set_tried s fmt (mk_trial pixformat (conf_width s) (conf_height s)) in
  if (retcd =? -1) || negb (pix_pixelformat fmt =? pixformat)
  then (-1, s)
  else (0, s).

Definition v4l2_pixfmt_stride (s : state) : outcome :=
  let s := set_size s (to_int (pix_width (dst_fmt s)))
                      (to_int (pix_height (dst_fmt s))) in
  let bpl := to_int (pix_bytesperline (dst_fmt s)) in
  let wd := width s in
  if bpl =? 0 then (Some 0, s)
  else if wd >? bpl then (Some (-1), s)
  else if wd =? bpl then (Some 0, s)
  else
    match c_mod bpl wd with
    | None => (None, s)
    | Some r =>
        if r =? 0 then (Some 0, s)
        else
          match c_div bpl wd with
          | None => (None, s)
          | Some wps =>
              match c_div r wps with
              | None => (None, s)
              | Some pad => (Some 0, set_size s (wd + pad) (height s))
              end
          end
    end.

Definition v4l2_pixfmt_adj (s : state) : Z * state :=
  if negb (width s =? conf_width s) || negb (height s =? conf_height s) then
    if negb (Z.rem (width s) 8 =? 0) || negb (Z.rem (height s) 8 =? 0)
    then (-1, s)
    else (0, set_conf s (width s) (height s))
  else (0, s).

Definition v4l2_pixfmt_set (dev : v4l2_device) (s : state) (pixformat : Z)
    : outcome :=
  let '(retcd, s) := v4l2_pixfmt_try dev s pixformat in
  if retcd =? -1 then (Some (-1), s)
  else
    match v4l2_pixfmt_stride s with
    | (None, s) => (None, s)
    | (Some retcd, s) =>
        if retcd =? -1 then (Some (-1), s)
        else
          let '(retcd, s) := v4l2_pixfmt_adj s in
          if retcd =? -1 then (Some (-1), s)
          else
            let s := set_committed s (dst_fmt s) in
            let retcd := s_fmt dev (dst_fmt s) in
            if retcd =? -1 then (Some (-1), s)
            else (Some 0, set_pixfmt_src s pixformat)
    end.

(** Lines 944-950 (and 952-958 for the height): the adjustment of one
    configured dimension. *)
Definition adjust_modulo8 (w : Z) : Z :=
  if negb (Z.rem w 8 =? 0) then wrap_int (w - Z.rem w 8 + 8) else w.

(** The values of [indx] in [for (indx = 0; indx <= V4L2_PALETTE_COUNT_MAX;
    indx++)]. *)
Definition catalog_indices : list Z :=
  map Z.of_nat (seq 0 (Z.to_nat (V4L2_PALETTE_COUNT_MAX + 1))).

(** The inner loop of lines 1004-1009, for one enumerated format. *)
Definition palette_lookup (pixelformat : Z) (indx_palette : Z) : Z :=
  fold_left
    (fun ip indx =>
       if (v4l2id indx =? pixelformat)
          && negb (v4l2id indx =? V4L2_PIX_FMT_H264)
       then indx else ip)
    catalog_indices indx_palette.

(** The enumeration loop of lines 992-1014, started with [indx_palette]
    at -1. *)
Definition palette_scan (fmts : list Z) : Z :=
  fold_left (fun ip pixelformat => palette_lookup pixelformat ip) fmts (-1).

(** Lines 986-1037: what [v4l2_pixfmt_select] does once the configured
    palette is out of the way. *)
Definition pixfmt_fallback (dev : v4l2_device) (s : state) : outcome :=
  let indx_palette := palette_scan (enum_fmt dev) in
  if indx_palette >=? 0 then
    match v4l2_pixfmt_set dev s (v4l2id indx_palette) with
    | (None, s) => (None, s)
    | (Some retcd, s) => if retcd >=? 0 then (Some 0, s) else (Some (-1), s)
    end
  else (Some (-1), s).

Section Negotiation.

(** [mystreq] of util.c, which is not part of this file. *)
Variable mystreq : string -> string -> bool.

(** The loop of lines 960-965 and the test of lines 967-971. *)
Definition palette_param (params : list params_item_ctx) : Z :=
  let indx_palette :=
    fold_left
      (fun ip usritem =>
         if mystreq (param_name usritem) "palette"
         then atoi (param_value usritem) else ip)
      params 17 in
  if indx_palette =? 21 then 17 else indx_palette.

Definition v4l2_pixfmt_select (dev : v4l2_device) (s : state) : outcome :=
  let s := set_conf s (adjust_modulo8 (conf_width s)) (conf_height s) in
  let s := set_conf s (conf_width s) (adjust_modulo8 (conf_height s)) in
  let indx_palette := palette_param (params_array s) in
  if (indx_palette >=? 0) && (indx_palette <=? V4L2_PALETTE_COUNT_MAX) then
    match v4l2_pixfmt_set dev s (v4l2id indx_palette) with
    | (None, s) => (None, s)
    | (Some retcd, s) =>
        if retcd >=? 0 then (Some 0, s) else pixfmt_fallback dev s
    end
  else pixfmt_fallback dev s.

End Negotiation.

(** The catalog formats the enumeration loop can retain, and the one it
    ends with: the last advertised one. *)
Definition selectable (pixelformat : Z) : bool :=
  existsb (fun indx => (v4l2id indx =? pixelformat)
                       && negb (v4l2id indx =? V4L2_PIX_FMT_H264))
    catalog_indices.

Definition last_selectable (fmts : list Z) : option Z :=
  find selectable (rev fmts).

(** Both configured dimensions are multiples of 8, as the code tests it. *)
Definition mod8_conf (s : state) : Prop :=
  Z.rem (conf_width s) 8 = 0 /\ Z.rem (conf_height s) 8 = 0.

(** r is the smallest multiple of 8 that is at least w. *)
Definition least_multiple8 (w r : Z) : Prop :=
  Z.rem r 8 = 0 /\ w <= r /\ forall m, Z.rem m 8 = 0 -> w <= m -> r <= m.

(** A device that advertises YUYV and then GREY, accepts YUYV at any size
    with a stride of twice the width, and rejects every other format. *)
Definition yuyv_grey_camera : v4l2_device :=
  mk_device
    [V4L2_PIX_FMT_YUYV; V4L2_PIX_FMT_GREY]
    (fun req =>
       if pix_pixelformat req =? V4L2_PIX_FMT_YUYV
       then (0, mk_pix (pix_width req) (pix_height req) (pix_pixelformat req)
                  (2 * pix_width req))
       else (-1, req))
    (fun _ => 0).

(** A device that advertises nothing and rejects every trial. *)
Definition no_format_camera : v4l2_device :=
  mk_device [] (fun req => (-1, req)) (fun _ => -1).

(** A device that advertises YUV420 only and answers every trial with the
    format asked for and the given row stride. *)
Definition stride_camera (bpl : Z) : v4l2_device :=
  mk_device
    [V4L2_PIX_FMT_YUV420]
    (fun req =>
       (0, mk_pix (pix_width req) (pix_height req) (pix_pixelformat req) bpl))
    (fun _ => 0).

(** The negotiation's state on entry, for a configured size and the user's
    parameters. *)
Definition initial (w h : Z) (params : list params_item_ctx) : state :=
  mk_state w h params w h 0 (mk_pix 0 0 0 0) [] [].

(** *** v4l2_pix_change *)

(** The converters of video_common.c that [v4l2_pix_change] calls;
    [vid_y10torgb24] comes with its shift. *)
Inductive conversion :=
| vid_rgb24toyuv420p
| vid_uyvyto420p
| vid_yuv422to420p
| vid_yuv422pto420p
| memcpy_size_norm
| vid_mjpegtoyuv420p
| vid_bayer2rgb24
| vid_sonix_decompress
| vid_y10torgb24 (shift : Z)
| vid_greytoyuv420p.

(** [v4l2_pix_change] for the source format [curdev->pixfmt_src]: the value
    returned and the converters called, in order. [mjpeg_retcd] is what
    [vid_mjpegtoyuv420p] returns for the frame. *)
Definition v4l2_pix_change (mjpeg_retcd : Z) (pixfmt_src : Z)
    : Z * list conversion :=
  if pixfmt_src =? V4L2_PIX_FMT_RGB24 then (0, [vid_rgb24toyuv420p])
  else if pixfmt_src =? V4L2_PIX_FMT_UYVY then (0, [vid_uyvyto420p])
  else if pixfmt_src =? V4L2_PIX_FMT_YUYV then (0, [vid_yuv422to420p])
  else if pixfmt_src =? V4L2_PIX_FMT_YUV422P then (0, [vid_yuv422pto420p])
  else if pixfmt_src =? V4L2_PIX_FMT_YUV420 then (0, [memcpy_size_norm])
  else if (pixfmt_src =? V4L2_PIX_FMT_PJPG)
          || (pixfmt_src =? V4L2_PIX_FMT_JPEG)
          || (pixfmt_src =? V4L2_PIX_FMT_MJPEG)
  then (mjpeg_retcd, [vid_mjpegtoyuv420p])
  else if (pixfmt_src =? V4L2_PIX_FMT_SBGGR16)
          || (pixfmt_src =? V4L2_PIX_FMT_SGBRG8)
          || (pixfmt_src =? V4L2_PIX_FMT_SGRBG8)
          || (pixfmt_src =? V4L2_PIX_FMT_SBGGR8)
  then (0, [vid_bayer2rgb24; vid_rgb24toyuv420p])
  else if (pixfmt_src =? V4L2_PIX_FMT_SPCA561)
          || (pixfmt_src =? V4L2_PIX_FMT_SN9C10X)
  then (0, [vid_sonix_decompress; vid_bayer2rgb24; vid_rgb24toyuv420p])
  else if pixfmt_src =? V4L2_PIX_FMT_Y10
  then (0, [vid_y10torgb24 2; vid_rgb24toyuv420p])
  else if pixfmt_src =? V4L2_PIX_FMT_Y12
  then (0, [vid_y10torgb24 4; vid_rgb24toyuv420p])
  else if pixfmt_src =? V4L2_PIX_FMT_GREY then (0, [vid_greytoyuv420p])
  else (-1, []).

(** The catalog formats [v4l2_pix_change] has no case for, H264 apart. *)
Definition unconverted : list Z :=
  [V4L2_PIX_FMT_PAC207; V4L2_PIX_FMT_SPCA501; V4L2_PIX_FMT_SPCA505;
   V4L2_PIX_FMT_SPCA508].

(** A device that advertises PAC207 only and accepts what it is asked. *)
Definition pac207_camera : v4l2_device :=
  mk_device
    [V4L2_PIX_FMT_PAC207]
    (fun req =>
       if pix_pixelformat req =? V4L2_PIX_FMT_PAC207
       then (0, mk_pix (pix_width req) (pix_height req) (pix_pixelformat req) 0)
       else (-1, req))
    (fun _ => 0).

End Pixfmt.

(** ** Device registry and ownership scheduler *)

Module Registry.

(** What the registry asks of the operating system and the device, in the
    order it asks. *)
Inductive hw_event :=
| Ev_open (path : string) (fd : Z)
| Ev_negotiate (fd : Z)
| Ev_capture (fd : Z) (owner : Z)
| Ev_streamoff (fd : Z)
| Ev_close (fd : Z)
| Ev_munmap (fd : Z) (indx : nat)
| Ev_free_controls (fd : Z) (count : Z).

(** [struct video_dev], the fields [v4l2_start], [v4l2_cleanup] and
    [v4l2_next] use.  [mutex] is [curdev->mutex]: the thread holding it, if
    any.  [buffers] tells that [vid_source->buffers] is not null and
    [req_count] is [vid_source->req.count]; [curdev->v4l2_private] itself is
    not null for a device in the list, which [v4l2_start] inserts only after
    [v4l2_device_init] set it. *)
Record video_dev := mk_dev {
  video_device : string;
  fd_device : Z;
  usage_count : Z;
  owner : Z;
  frames : Z;
  mutex : option Z;
  width : Z;
  height : Z;
  buffers : bool;
  req_count : Z;
  devctrl_count : Z
}.

(** [struct context], the fields these functions use: [cnt->conf.video_device],
    [cnt->video_dev], [cnt->threadnr], [cnt->conf.roundrobin_frames],
    [cnt->conf.width], [cnt->conf.height], [cnt->imgs.width],
    [cnt->imgs.height], [cnt->imgs.motionsize], [cnt->imgs.size_norm], and
    whether [cnt->vdev] is allocated. *)
Record context := mk_cnt {
  conf_video_device : string;
  cnt_video_dev : Z;
  threadnr : Z;
  roundrobin_frames : Z;
  conf_width : Z;
  conf_height : Z;
  imgs_width : Z;
  imgs_height : Z;
  imgs_motionsize : Z;
  imgs_size_norm : Z;
  vdev : bool
}.

(** The file-scope state: the list [video_devices], newest first, and the
    events so far. *)
Record state := mk_state {
  video_devices : list video_dev;
  hw_log : list hw_event
}.

Definition set_usage_count (dev : video_dev) (n : Z) : video_dev :=
  mk_dev (video_device dev) (fd_device dev) n (owner dev) (frames dev)
    (mutex dev) (width dev) (height dev) (buffers dev) (req_count dev)
    (devctrl_count dev).

Definition set_ownership (dev : video_dev) (o f : Z) (m : option Z)
    : video_dev :=
  mk_dev (video_device dev) (fd_device dev) (usage_count dev) o f m
    (width dev) (height dev) (buffers dev) (req_count dev)
    (devctrl_count dev).

Definition set_cnt_video_dev (cnt : context) (fd : Z) : context :=
  mk_cnt (conf_video_device cnt) fd (threadnr cnt) (roundrobin_frames cnt)
    (conf_width cnt) (conf_height cnt) (imgs_width cnt) (imgs_height cnt)
    (imgs_motionsize cnt) (imgs_size_norm cnt) (vdev cnt).

Definition set_vdev (cnt : context) (b : bool) : context :=
  mk_cnt (conf_video_device cnt) (cnt_video_dev cnt) (threadnr cnt)
    (roundrobin_frames cnt) (conf_width cnt) (conf_height cnt)
    (imgs_width cnt) (imgs_height cnt) (imgs_motionsize cnt)
    (imgs_size_norm cnt) b.

(** [v4l2_vdev_init] allocates [cnt->vdev]; [v4l2_vdev_free] releases it. *)
Definition v4l2_vdev_init (cnt : context) : context := set_vdev cnt true.
Definition v4l2_vdev_free (cnt : context) : context := set_vdev cnt false.

Definition v4l2_imgs_set (cnt : context) (curdev : video_dev) : Z * context :=
  let motionsize := width curdev * height curdev in
  (0, mk_cnt (conf_video_device cnt) (cnt_video_dev cnt) (threadnr cnt)
        (roundrobin_frames cnt) (width curdev) (height curdev)
        (width curdev) (height curdev) motionsize
        (Z.quot (motionsize * 3) 2) (vdev cnt)).

(** What the calls of lines 1663-1693 ([v4l2_device_capability] to
    [v4l2_mmap_set]) leave in the device when they succeed; these calls
    write no other field of [struct video_dev] used here. *)
Record negotiated := mk_neg {
  neg_width : Z;
  neg_height : Z;
  neg_buffers : bool;
  neg_req_count : Z;
  neg_devctrl_count : Z
}.

Section Lifecycle.

(** [mystreq] of util.c and [vid_parms_parse] of video_common.c, which are
    not part of this file; the [open] system call; and the outcome of the
    negotiation with the hardware. *)
Variable mystreq : string -> string -> bool.
Variable vid_parms_parse : context -> context.
Variable sys_open : string -> Z.
Variable negotiate : context -> string -> Z -> Z * negotiated.

(** The loop of lines 1631-1648: the first device of the list opened on
    the same path gets one more user. *)
Fixpoint start_existing (cnt : context) (devs : list video_dev)
    : option (Z * context * list video_dev) :=
  match devs with
  | [] => None
  | curdev :: rest =>
      if mystreq (conf_video_device cnt) (video_device curdev) then
        let cnt := v4l2_vdev_init cnt in
        let cnt := vid_parms_parse cnt in
        let '(retcd, cnt) := v4l2_imgs_set cnt curdev in
        if retcd =? 0 then
          Some (fd_device curdev, cnt,
                set_usage_count curdev (usage_count curdev + 1) :: rest)
        else Some (retcd, cnt, curdev :: rest)
      else
        match start_existing cnt rest with
        | Some (retcd, cnt, rest') => Some (retcd, cnt, curdev :: rest')
        | None => None
        end
  end.

(** Lines 1650-1723: a device on a path not in the list. *)
Definition start_new (cnt : context) (st : state) : Z * context * state :=
  let cnt := v4l2_vdev_init cnt in
  let cnt := vid_parms_parse cnt in
  (* v4l2_device_init *)
  let usage := 1 in
  let own := -1 in
  (* v4l2_device_open *)
  let fd := sys_open (conf_video_device cnt) in
  let log := hw_log st ++ [Ev_open (conf_video_device cnt) fd] in
  if fd >? 0 then
    let '(retcd, n) := negotiate cnt (conf_video_device cnt) fd in
    let log := log ++ [Ev_negotiate fd] in
    let curdev :=
      mk_dev (conf_video_device cnt) fd usage own 0 None (neg_width n)
        (neg_height n) (neg_buffers n) (neg_req_count n)
        (neg_devctrl_count n) in
    let '(retcd, cnt) :=
      if retcd =? 0 then v4l2_imgs_set cnt curdev else (retcd, cnt) in
    if retcd <? 0 then
      (retcd, v4l2_vdev_free cnt, mk_state (video_devices st) (log ++ [Ev_close fd]))
    else
      (fd, cnt, mk_state (curdev :: video_devices st) log)
  else
    (-1, v4l2_vdev_free cnt, mk_state (video_devices st) log).

Definition v4l2_start (cnt : context) (st : state) : Z * context * state :=
  match start_existing cnt (video_devices st) with
  | Some (retcd, cnt, devs) => (retcd, cnt, mk_state devs (hw_log st))
  | None => start_new cnt st
  end.

End Lifecycle.

(** [v4l2_device_close] followed by [v4l2_device_cleanup], as events. *)
Definition v4l2_device_close (dev : video_dev) : list hw_event :=
  Ev_streamoff (fd_device dev)
  :: (if negb (fd_device dev =? -1) then [Ev_close (fd_device dev)] else []).

Definition v4l2_device_cleanup (dev : video_dev) : list hw_event :=
  (if buffers dev
   then map (Ev_munmap (fd_device dev)) (seq 0 (Z.to_nat (req_count dev)))
   else [])
  ++ (if negb (devctrl_count dev =? 0)
      then [Ev_free_controls (fd_device dev) (devctrl_count dev)]
      else []).

(** Lines 1735-1792 on the list: the first device whose descriptor is
    [cnt->video_dev] loses one user; [None] when there is none. *)
Fixpoint cleanup_list (cnt : context) (devs : list video_dev)
    : option (list video_dev * list hw_event) :=
  match devs with
  | [] => None
  | dev :: rest =>
      if fd_device dev =? cnt_video_dev cnt then
        let dev := set_usage_count dev (usage_count dev - 1) in
        if usage_count dev =? 0 then
          Some (rest, v4l2_device_close dev ++ v4l2_device_cleanup dev)
        else if owner dev =? threadnr cnt then
          Some (set_ownership dev (-1) 0 None :: rest, [])
        else Some (dev :: rest, [])
      else
        match cleanup_list cnt rest with
        | Some (rest', evs) => Some (dev :: rest', evs)
        | None => None
        end
  end.

Definition v4l2_cleanup (cnt : context) (st : state) : context * state :=
  let found := cleanup_list cnt (video_devices st) in
  let cnt := set_cnt_video_dev cnt (-1) in
  let cnt := v4l2_vdev_free cnt in
  match found with
  | None => (cnt, st)
  | Some (devs, evs) => (cnt, mk_state devs (hw_log st ++ evs))
  end.

(** Lines 1821-1839 on the device found: [None] when the caller has to wait
    in [pthread_mutex_lock].  The value [retcd] is what [v4l2_capture] and
    [v4l2_pix_change] return for this call; [v4l2_device_select] and they
    write none of the fields of [video_dev] kept here. *)
Definition next_dev (cnt : context) (retcd : Z) (dev : video_dev)
    : option (video_dev * list hw_event) :=
  let acquired :=
    if negb (owner dev =? threadnr cnt) then
      match mutex dev with
      | Some _ => None
      | None =>
          Some (set_ownership dev (threadnr cnt) (roundrobin_frames cnt)
                  (Some (threadnr cnt)))
      end
    else Some dev in
  match acquired with
  | None => None
  | Some dev =>
      let ev := Ev_capture (fd_device dev) (owner dev) in
      let dev := set_ownership dev (owner dev) (frames dev - 1) (mutex dev) in
      if frames dev <=? 0
      then Some (set_ownership dev (-1) 0 None, [ev])
      else Some (dev, [ev])
  end.

(** What a call of [v4l2_next] comes to: it waits for the mutex, or it
    returns a value and leaves a state. *)
Inductive next_result :=
| Next_waits
| Next_returns (retcd : Z) (st : state).

Fixpoint next_list (cnt : context) (retcd : Z) (devs : list video_dev)
    : option (option (list video_dev * list hw_event)) :=
  match devs with
  | [] => None
  | dev :: rest =>
      if fd_device dev =? cnt_video_dev cnt then
        match next_dev cnt retcd dev with
        | None => Some None
        | Some (dev', evs) => Some (Some (dev' :: rest, evs))
        end
      else
        match next_list cnt retcd rest with
        | Some (Some (rest', evs)) => Some (Some (dev :: rest', evs))
        | other => other
        end
  end.

Definition v4l2_next (cnt : context) (retcd : Z) (st : state) : next_result :=
  match next_list cnt retcd (video_devices st) with
  | None => Next_returns (-1) st
  | Some None => Next_waits
  | Some (Some (devs, evs)) =>
      Next_returns retcd (mk_state devs (hw_log st ++ evs))
  end.

(** A sequence of calls of [v4l2_next], each with the context of the
    calling thread and the result of its capture; [None] as soon as a call
    has to wait. *)
Fixpoint next_calls (calls : list (context * Z)) (st : state) : option state :=
  match calls with
  | [] => Some st
  | (cnt, retcd) :: rest =>
      match v4l2_next cnt retcd st with
      | Next_waits => None
      | Next_returns _ st' => next_calls rest st'
      end
  end.

(** The device with descriptor fd, as the loops of [v4l2_cleanup] and
    [v4l2_next] find it. *)
Definition lookup (fd : Z) (st : state) : option video_dev :=
  find (fun dev => fd_device dev =? fd) (video_devices st).

(** A device nobody owns. *)
Definition unowned (dev : video_dev) : Prop :=
  owner dev = -1 /\ frames dev = 0 /\ mutex dev = None.

(** A device the thread owns with f frames left. *)
Definition owned_by (threadnr f : Z) (dev : video_dev) : Prop :=
  owner dev = threadnr /\ frames dev = f /\ mutex dev = Some threadnr.

(** The captures among the events, as the owners they were made under. *)
Definition capture_owners (fd : Z) (evs : list hw_event) : list Z :=
  flat_map (fun ev => match ev with
                      | Ev_capture fd' o => if fd' =? fd then [o] else []
                      | _ => []
                      end) evs.

(** The releases of hardware among the events. *)
Definition is_release (ev : hw_event) : bool :=
  match ev with
  | Ev_streamoff _ | Ev_close _ | Ev_munmap _ _ | Ev_free_controls _ _ => true
  | _ => false
  end.

(** A camera on /dev/video0: [open] gives descriptor 5, the negotiation
    succeeds with four mapped buffers and three controls. *)
Definition video0 : string := "/dev/video0".
Definition open_video0 (path : string) : Z := if streq path video0 then 5 else -1.
Definition negotiate_video0 (cnt : context) (path : string) (fd : Z)
    : Z * negotiated :=
  (0, mk_neg (conf_width cnt) (conf_height cnt) true 4 3).

(** The context of a thread configured for that camera. *)
Definition thread_cnt (threadnr quota : Z) : context :=
  mk_cnt video0 (-1) threadnr quota 640 480 0 0 0 0 false.

(** The registry is well formed: every device in it has a descriptor that
    [v4l2_device_open] accepted and at least one user. *)
Definition well_formed (st : state) : Prop :=
  Forall (fun dev => 0 < fd_device dev /\ 1 <= usage_count dev)
    (video_devices st).

(** A camera whose negotiation fails. *)
Definition negotiate_fails (cnt : context) (path : string) (fd : Z)
    : Z * negotiated :=
  (-1, mk_neg 0 0 false 0 0).

End Registry.

(** ** v4l2_palette_valid *)

Module Palette.

Section PaletteValid.

(** What [open(video_device, O_RDWR|O_CLOEXEC)] returns for a path, and the
    pixel formats [VIDIOC_ENUM_FMT] reports on a descriptor, by index; past
    the end of the list the call returns -1. *)
Variable sys_open : string -> Z.
Variable enum_fmt : Z -> list Z.

Definition v4l2_palette_valid (video_device : string) (v4l2_palette : Z) : Z :=
  let fd_device := sys_open video_device in
  if fd_device <? 0 then 0
  else
    fold_left
      (fun retcd pixelformat =>
         if v4l2id v4l2_palette =? pixelformat then 1 else retcd)
      (enum_fmt fd_device) 0.

End PaletteValid.

(** One camera, on /dev/video0, that advertises YUYV only. *)
Definition open_video0 (path : string) : Z :=
  if streq path "/dev/video0" then 5 else -1.
Definition yuyv_only (fd : Z) : list Z := [V4L2_PIX_FMT_YUYV].

End Palette.

(** ** Four-character codes *)

Module Fourcc.

(** [(char)(v4l2id >> shift)], one argument of the [%c%c%c%c] of
    [v4l2_palette_init]. *)
Definition fourcc_char (id shift : Z) : ascii :=
  ascii_of_nat (Z.to_nat (Z.shiftr id shift mod 256)).

(** The four characters [v4l2_palette_init] writes into
    [palette_array[indx].fourcc], lines 120-126. *)
Definition fourcc (id : Z) : string :=
  String (fourcc_char id 0) (String (fourcc_char id 8)
    (String (fourcc_char id 16) (String (fourcc_char id 24) EmptyString))).

(** What [%s] copies from a buffer: the characters before the first zero. *)
Fixpoint c_string (s : string) : string :=
  match s with
  | EmptyString => EmptyString
  | String c s' => if Ascii.eqb c zero then EmptyString else String c (c_string s')
  end.

(** [v4l2_palette_fourcc]: the text left in the caller's buffer. *)
Definition v4l2_palette_fourcc (v4l2_palette : Z) : string :=
  if (v4l2_palette >? V4L2_PALETTE_COUNT_MAX) || (v4l2_palette <? 0)
  then "NULL"
  else c_string (fourcc (v4l2id v4l2_palette)).

(** The pixel format a four-character code stands for. *)
Definition pack (s : string) : option Z :=
  match s with
  | String a (String b (String c (String d EmptyString))) =>
      Some (v4l2_fourcc a b c d)
  | _ => None
  end.

End Fourcc.

(** ** Control enumeration *)

Module CtrlEnum.

Definition V4L2_CTRL_FLAG_NEXT_CTRL : Z := 0x80000000.
Definition V4L2_CTRL_TYPE_CTRL_CLASS : Z := 6.

(** [struct v4l2_queryctrl], the fields the code reads. *)
Record v4l2_queryctrl := mk_qc {
  qc_id : Z;
  qc_type : Z;
  qc_name : string;
  qc_minimum : Z;
  qc_maximum : Z;
  qc_default_value : Z
}.

(** The device as the enumeration sees it through [xioctl]:
    - [controls]: the controls of the device;
    - [menu_name]: the name [VIDIOC_QUERYMENU] gives for an item of a menu
      control, [None] when the call fails;
    - [current]: the value [VIDIOC_G_CTRL] gives, [None] when it fails. *)
Record ctrl_device := mk_cdev {
  controls : list v4l2_queryctrl;
  menu_name : Z -> Z -> option string;
  current : Z -> option Z
}.

(** [VIDIOC_QUERYCTRL]: with [V4L2_CTRL_FLAG_NEXT_CTRL] set in the id, the
    first control whose id is above the rest of the id; without it, the
    control of that id. [None] when the call fails. *)
Definition queryctrl (dev : ctrl_device) (id : Z) : option v4l2_queryctrl :=
  if Z.testbit id 31
  then find (fun q => qc_id q >? Z.land id (V4L2_CTRL_FLAG_NEXT_CTRL - 1))
         (controls dev)
  else find (fun q => qc_id q =? id) (controls dev).

(** The values of [indx] in [for (indx = minimum; indx <= maximum; indx++)]. *)
Definition menu_range (q : v4l2_queryctrl) : list Z :=
  map (fun i => qc_minimum q + Z.of_nat i)
    (seq 0 (Z.to_nat (qc_maximum q - qc_minimum q + 1))).

(** The inner loop of [v4l2_ctrls_count], lines 191-198. *)
Definition count_menu (dev : ctrl_device) (q : v4l2_queryctrl) (count : Z) : Z :=
  fold_left
    (fun count indx =>
       match menu_name dev (qc_id q) indx with
       | Some _ => count + 1
       | None => count
       end)
    (menu_range q) count.

(** The loop of [v4l2_ctrls_count], lines 184-201, from the id [vid_ctrl.id]
    holds; the fuel bounds the number of iterations. *)
Fixpoint ctrls_count_loop (fuel : nat) (dev : ctrl_device) (id : Z)
    (devctrl_count : Z) : option Z :=
  match fuel with
  | O => None
  | S f =>
      match queryctrl dev id with
      | None => Some devctrl_count
      | Some q =>
          let next := Z.lor (qc_id q) V4L2_CTRL_FLAG_NEXT_CTRL in
          if qc_type q =? V4L2_CTRL_TYPE_CTRL_CLASS
          then ctrls_count_loop f dev next devctrl_count
          else
            let devctrl_count := devctrl_count + 1 in
            let devctrl_count :=
              if qc_type q =? V4L2_CTRL_TYPE_MENU
              then count_menu dev q devctrl_count
              else devctrl_count in
            ctrls_count_loop f dev next devctrl_count
      end
  end.

(** [v4l2_ctrls_count]: the value left in [curdev->devctrl_count]. *)
Definition v4l2_ctrls_count (fuel : nat) (dev : ctrl_device) : option Z :=
  ctrls_count_loop fuel dev V4L2_CTRL_FLAG_NEXT_CTRL 0.

(** The entry [v4l2_ctrls_list] writes for a control, lines 234-255. *)
Definition control_entry (dev : ctrl_device) (q : v4l2_queryctrl)
    : vid_devctrl_ctx :=
  let value := match current dev (qc_id q) with
               | Some v => v
               | None => qc_default_value q
               end in
  mk_devctrl (qc_name q) (sprintf_ID08d (qc_id q)) (qc_id q) (qc_type q) false
    (qc_default_value q) value value (qc_minimum q) (qc_maximum q).

(** The entry it writes for a menu item, lines 265-276.  The array comes
    from [malloc]: the three value fields, which the code does not write,
    keep what the memory held; [junk] gives that content (default, current
    and new value) for the item of a control. *)
Definition menu_entry (junk : Z -> Z -> Z * Z * Z) (q : v4l2_queryctrl)
    (indx : Z) (name : string) : vid_devctrl_ctx :=
  let '(ctrl_default, ctrl_currval, ctrl_newval) := junk (qc_id q) indx in
  mk_devctrl name (append "menu item: Value " (sprintf_d indx)) (qc_id q) 0
    true ctrl_default ctrl_currval ctrl_newval 0 0.

(** The inner loop of [v4l2_ctrls_list], lines 258-278: the entries
    written, in order. *)
Definition list_menu (junk : Z -> Z -> Z * Z * Z) (dev : ctrl_device)
    (q : v4l2_queryctrl) : list vid_devctrl_ctx :=
  flat_map
    (fun indx =>
       match menu_name dev (qc_id q) indx with
       | Some name => [menu_entry junk q indx name]
       | None => []
       end)
    (menu_range q).

(** The loop of [v4l2_ctrls_list], lines 228-282: the entries written from
    [indx_ctrl] on. *)
Fixpoint ctrls_list_loop (fuel : nat) (junk : Z -> Z -> Z * Z * Z)
    (dev : ctrl_device) (id : Z) : option (list vid_devctrl_ctx) :=
  match fuel with
  | O => None
  | S f =>
      match queryctrl dev id with
      | None => Some []
      | Some q =>
          let next := Z.lor (qc_id q) V4L2_CTRL_FLAG_NEXT_CTRL in
          if qc_type q =? V4L2_CTRL_TYPE_CTRL_CLASS
          then ctrls_list_loop f junk dev next
          else
            let entries :=
              control_entry dev q
              :: (if qc_type q =? V4L2_CTRL_TYPE_MENU
                  then list_menu junk dev q else []) in
            match ctrls_list_loop f junk dev next with
            | Some rest => Some (entries ++ rest)
            | None => None
            end
      end
  end.

(** [v4l2_ctrls_list] for the count [v4l2_ctrls_count] left: the entries
    written into the array of [devctrl_count] entries. *)
Definition v4l2_ctrls_list (fuel : nat) (junk : Z -> Z -> Z * Z * Z)
    (dev : ctrl_device) (devctrl_count : Z) : option (list vid_devctrl_ctx) :=
  if devctrl_count =? 0 then Some []
  else ctrls_list_loop fuel junk dev V4L2_CTRL_FLAG_NEXT_CTRL.

(** The ids of a device are well formed: positive, below the flag, and
    strictly increasing along [controls]. *)
Fixpoint ascending (low : Z) (qs : list v4l2_queryctrl) : Prop :=
  match qs with
  | [] => True
  | q :: rest =>
      low < qc_id q < V4L2_CTRL_FLAG_NEXT_CTRL /\ ascending (qc_id q) rest
  end.

(** What [v4l2_ctrls_list] writes for one control of the device: nothing
    for a class header, else its entry followed by those of its menu
    items. *)
Definition entries_of (junk : Z -> Z -> Z * Z * Z) (dev : ctrl_device)
    (q : v4l2_queryctrl) : list vid_devctrl_ctx :=
  if qc_type q =? V4L2_CTRL_TYPE_CTRL_CLASS then []
  else control_entry dev q
       :: (if qc_type q =? V4L2_CTRL_TYPE_MENU then list_menu junk dev q else []).

(** A camera with a class header, a brightness, and a menu of two items. *)
Definition sample_controls : ctrl_device :=
  mk_cdev
    [ mk_qc 0x00980001 V4L2_CTRL_TYPE_CTRL_CLASS "User Controls" 0 0 0;
      mk_qc V4L2_CID_BRIGHTNESS V4L2_CTRL_TYPE_INTEGER "Brightness" 0 255 128;
      mk_qc 0x009a0901 V4L2_CTRL_TYPE_MENU "Exposure, Auto" 0 3 3 ]
    (fun id indx => if (indx =? 1) then Some "Manual Mode"%string
                    else if (indx =? 3) then Some "Aperture Priority Mode"%string
                    else None)
    (fun id => if id =? V4L2_CID_BRIGHTNESS then Some 100 else None).

(** Memory that held zeros. *)
Definition zeroed : Z -> Z -> Z * Z * Z := fun _ _ => (0, 0, 0).

End CtrlEnum.

(** ** Input, norm and frequency *)

Module Select.

Definition V4L2_INPUT_TYPE_TUNER : Z := 1.
Definition V4L2_INPUT_TYPE_CAMERA : Z := 2.
Definition V4L2_STD_PAL : Z := 0xff.
Definition V4L2_STD_NTSC : Z := 0xb000.
Definition V4L2_STD_SECAM : Z := 0xff0000.

(** [cnt->param_input], [cnt->param_norm] and [cnt->param_freq]. *)
Record context := mk_cnt {
  param_input : Z;
  param_norm : Z;
  param_freq : Z
}.

(** The fields of [struct video_dev] the three functions use. *)
Record video_dev := mk_dev {
  input : Z;
  norm : Z;
  frequency : Z;
  device_type : Z;
  device_tuner : Z;
  starting : bool
}.

(** The requests made through [xioctl], with the argument that matters. *)
Inductive ioctl_call :=
| VIDIOC_ENUMINPUT (index : Z)
| VIDIOC_S_INPUT (index : Z)
| VIDIOC_G_STD
| VIDIOC_ENUMSTD (index : Z)
| VIDIOC_S_STD (std_id : Z)
| VIDIOC_G_TUNER (index : Z)
| VIDIOC_S_FREQUENCY (tuner : Z) (frequency : Z).

(** The device as these functions see it:
    - [enuminput]: the type and tuner of an input, [None] when the call
      returns -1;
    - [s_input], [g_tuner], [s_frequency]: the value returned (what
      [VIDIOC_S_STD] returns is only logged);
    - [g_std]: the current standard, [None] when the call returns -1;
    - [standards]: the standards [VIDIOC_ENUMSTD] reports, by index; past
      the end of the list the call fails. *)
Record tuner_device := mk_tdev {
  enuminput : Z -> option (Z * Z);
  s_input : Z -> Z;
  g_std : option Z;
  standards : list Z;
  g_tuner : Z -> Z;
  s_frequency : Z -> Z -> Z
}.

Definition result : Type := Z * context * video_dev * list ioctl_call.

Definition v4l2_input_select (k : tuner_device) (cnt : context)
    (curdev : video_dev) : result :=
  if (param_input cnt =? input curdev) && negb (starting curdev)
  then (0, cnt, curdev, [])
  else
    let index := if param_input cnt =? -1 then 0 else to_u32 (param_input cnt) in
    match enuminput k index with
    | None => (-1, cnt, curdev, [VIDIOC_ENUMINPUT index])
    | Some (type, tuner) =>
        if s_input k index =? -1
        then (-1, cnt, curdev, [VIDIOC_ENUMINPUT index; VIDIOC_S_INPUT index])
        else
          (0, cnt,
           mk_dev (param_input cnt) (norm curdev) (frequency curdev) type tuner
             (starting curdev),
           [VIDIOC_ENUMINPUT index; VIDIOC_S_INPUT index])
    end.

(** The [VIDIOC_ENUMSTD] loop of lines 678-684: one call for each standard
    and the one that fails. *)
Definition enumstd_calls (k : tuner_device) : list ioctl_call :=
  map (fun i => VIDIOC_ENUMSTD (Z.of_nat i)) (seq 0 (S (List.length (standards k)))).

Definition v4l2_norm_select (k : tuner_device) (cnt : context)
    (curdev : video_dev) : result :=
  if (param_norm cnt =? norm curdev) && negb (starting curdev)
  then (0, cnt, curdev, [])
  else
    let '(cnt, std_id) :=
      match g_std k with
      | None => (mk_cnt (param_input cnt) 0 (param_freq cnt), 0)
      | Some std_id => (cnt, std_id)
      end in
    let calls :=
      if negb (std_id =? 0) then
        let std_id :=
          if param_norm cnt =? 1 then V4L2_STD_NTSC
          else if param_norm cnt =? 2 then V4L2_STD_SECAM
          else V4L2_STD_PAL in
        enumstd_calls k ++ [VIDIOC_S_STD std_id]
      else [] in
    (0, cnt,
     mk_dev (input curdev) (param_norm cnt) (frequency curdev)
       (device_type curdev) (device_tuner curdev) (starting curdev),
     VIDIOC_G_STD :: calls).

Definition v4l2_frequency_select (k : tuner_device) (cnt : context)
    (curdev : video_dev) : result :=
  if (param_freq cnt =? frequency curdev) && negb (starting curdev)
  then (0, cnt, curdev, [])
  else
    let recorded :=
      mk_dev (input curdev) (norm curdev) (param_freq cnt) (device_type curdev)
        (device_tuner curdev) (starting curdev) in
    if negb (Z.land (device_type curdev) V4L2_INPUT_TYPE_TUNER =? 0) then
      let tuner := to_u32 (device_tuner curdev) in
      if g_tuner k tuner =? -1
      then (0, cnt, curdev, [VIDIOC_G_TUNER tuner])
      else
        let freq := to_u32 (Z.quot (param_freq cnt) 1000 * 16) in
        if s_frequency k tuner freq =? -1
        then (0, cnt, curdev, [VIDIOC_G_TUNER tuner; VIDIOC_S_FREQUENCY tuner freq])
        else (0, cnt, recorded,
              [VIDIOC_G_TUNER tuner; VIDIOC_S_FREQUENCY tuner freq])
    else (0, cnt, recorded, []).

(** Lines 1372-1378 of [v4l2_device_select]: the three selections differ
    from what the device has. *)
Definition newvals (cnt : context) (curdev : video_dev) : bool :=
  negb (param_input cnt =? input curdev)
  || negb (param_norm cnt =? norm curdev)
  || negb (param_freq cnt =? frequency curdev).

(** Lines 1381-1388: the three selections in turn, each run when the one
    before returned 0. *)
Definition select_chain (k : tuner_device) (cnt : context) (curdev : video_dev)
    : result :=
  let '(retcd, cnt, curdev, c1) := v4l2_input_select k cnt curdev in
  if retcd =? 0 then
    let '(retcd, cnt, curdev, c2) := v4l2_norm_select k cnt curdev in
    if retcd =? 0 then
      let '(retcd, cnt, curdev, c3) := v4l2_frequency_select k cnt curdev in
      (retcd, cnt, curdev, c1 ++ c2 ++ c3)
    else (retcd, cnt, curdev, c1 ++ c2)
  else (retcd, cnt, curdev, c1).

(** The calls of [v4l2_input_select]. *)
Definition is_input_call (c : ioctl_call) : bool :=
  match c with
  | VIDIOC_ENUMINPUT _ | VIDIOC_S_INPUT _ => true
  | _ => false
  end.

(** A webcam: one camera input, no video standard, no tuner. *)
Definition webcam : tuner_device :=
  mk_tdev (fun index => if index =? 0 then Some (V4L2_INPUT_TYPE_CAMERA, 0) else None)
    (fun _ => 0) None [] (fun _ => -1) (fun _ _ => -1).

(** A TV card: input 0 is a tuner, PAL is current, two standards. *)
Definition tv_card : tuner_device :=
  mk_tdev (fun index => if index =? 0 then Some (V4L2_INPUT_TYPE_TUNER, 0) else None)
    (fun _ => 0) (Some V4L2_STD_PAL) [V4L2_STD_PAL; V4L2_STD_NTSC]
    (fun _ => 0) (fun _ _ => 0).

End Select.

(** ** Memory-mapped streaming *)

Module Stream.

Definition MMAP_BUFFERS : Z := 4.
Definition MIN_MMAP_BUFFERS : Z := 2.
Definition V4L2_CAP_STREAMING : Z := 0x04000000.
(** [MAP_FAILED] is [(void * ) -1]; [NULL] is 0. *)
Definition MAP_FAILED : Z := -1.

(** [video_buff], without the time stamp. *)
Record video_buff := mk_buff {
  ptr : Z;
  content_length : Z;
  size : Z;
  used : Z
}.

(** [curdev->buffer_count] and the fields of [src_v4l2_t] the streaming
    functions use: [fd_device], [cap.capabilities], [req.count],
    [buf.index], [buffers] ([None] for a null pointer) and [pframe]. *)
Record state := mk_state {
  buffer_count : Z;
  fd_device : Z;
  capabilities : Z;
  req_count : Z;
  buf_index : Z;
  buffers : option (list video_buff);
  pframe : Z
}.

(** What the functions ask of the kernel and of the C library, in order. *)
Inductive event :=
| VIDIOC_REQBUFS (count : Z)
| VIDIOC_QUERYBUF (indx : Z)
| Mmap (length offset addr : Z)
| VIDIOC_QBUF (indx : Z)
| VIDIOC_DQBUF
| VIDIOC_STREAMON
| VIDIOC_STREAMOFF
| Munmap (addr length : Z)
| Free_buffers
| Free_private
| Close (fd : Z).

(** The driver during set-up:
    - [reqbufs]: the count [VIDIOC_REQBUFS] leaves in [req.count], [None]
      when the call returns -1;
    - [querybuf]: the length and offset of a buffer, [None] on failure;
    - [mmap]: the address [mmap] returns for a length and an offset, or
      [MAP_FAILED];
    - [qbuf], [streamon]: the value returned. *)
Record stream_device := mk_sdev {
  reqbufs : Z -> option Z;
  querybuf : Z -> option (Z * Z);
  mmap : Z -> Z -> Z;
  qbuf : Z -> Z;
  streamon : Z
}.

Definition set_buffers (s : state) (b : option (list video_buff)) : state :=
  mk_state (buffer_count s) (fd_device s) (capabilities s) (req_count s)
    (buf_index s) b (pframe s).

(** [buffers[indx] = f(buffers[indx])] for an index inside the array. *)
Fixpoint update_buff (indx : nat) (f : video_buff -> video_buff)
    (bufs : list video_buff) : list video_buff :=
  match bufs, indx with
  | [], _ => []
  | b :: rest, O => f b :: rest
  | b :: rest, S n => b :: update_buff n f rest
  end.

(** The loop of [v4l2_mmap_set], lines 1163-1172, over the values of
    [indx] left: [v4l2_mmap_query] then [v4l2_mmap_queue] for each. The
    result is the value returned, [vid_source->buffers], [buf.index] and
    the events. *)
Fixpoint mmap_loop (k : stream_device) (indxs : list Z)
    (bufs : list video_buff) (buf_index : Z)
    : Z * option (list video_buff) * Z * list event :=
  match indxs with
  | [] => (0, Some bufs, buf_index, [])
  | indx :: rest =>
      match querybuf k indx with
      | None => (-1, None, buf_index, [VIDIOC_QUERYBUF indx; Free_buffers])
      | Some (length, offset) =>
          let addr := mmap k length offset in
          let bufs :=
            update_buff (Z.to_nat indx)
              (fun b => mk_buff addr (content_length b) length (used b)) bufs in
          if addr =? MAP_FAILED then
            (-1, None, buf_index,
             [VIDIOC_QUERYBUF indx; Mmap length offset addr; Free_buffers])
          else if qbuf k indx =? -1 then
            (-1, Some bufs, indx,
             [VIDIOC_QUERYBUF indx; Mmap length offset addr; VIDIOC_QBUF indx])
          else
            let '(retcd, b, bi, evs) := mmap_loop k rest bufs indx in
            (retcd, b, bi,
             VIDIOC_QUERYBUF indx :: Mmap length offset addr
             :: VIDIOC_QBUF indx :: evs)
      end
  end.

(** The values of [indx] in [for (indx = 0; indx < n; indx++)]. *)
Definition indices (n : Z) : list Z := map Z.of_nat (seq 0 (Z.to_nat n)).

(** [v4l2_mmap_set], with [v4l2_mmap_request] in it; [calloc] is taken to
    succeed. *)
Definition v4l2_mmap_set (k : stream_device) (s : state)
    : Z * state * list event :=
  if Z.land (capabilities s) V4L2_CAP_STREAMING =? 0 then (-1, s, [])
  else
    match reqbufs k MMAP_BUFFERS with
    | None =>
        (-1, mk_state (buffer_count s) (fd_device s) (capabilities s)
               MMAP_BUFFERS (buf_index s) (buffers s) (pframe s),
         [VIDIOC_REQBUFS MMAP_BUFFERS])
    | Some count =>
        let n := to_int count in
        if n <? MIN_MMAP_BUFFERS then
          (-1, mk_state n (fd_device s) (capabilities s) count (buf_index s)
                 (buffers s) (pframe s),
           [VIDIOC_REQBUFS MMAP_BUFFERS])
        else
          let calloced := repeat (mk_buff 0 0 0 0) (Z.to_nat n) in
          let '(retcd, b, bi, evs) :=
            mmap_loop k (indices n) calloced (buf_index s) in
          let s := mk_state n (fd_device s) (capabilities s) count bi b
                     (pframe s) in
          if negb (retcd =? 0) then (retcd, s, VIDIOC_REQBUFS MMAP_BUFFERS :: evs)
          else if streamon k =? -1
          then (-1, s, VIDIOC_REQBUFS MMAP_BUFFERS :: evs ++ [VIDIOC_STREAMON])
          else (0, s, VIDIOC_REQBUFS MMAP_BUFFERS :: evs ++ [VIDIOC_STREAMON])
    end.

(** [v4l2_device_close]. *)
Definition v4l2_device_close (s : state) : state * list event :=
  if negb (fd_device s =? -1)
  then (mk_state (buffer_count s) (-1) (capabilities s) (req_count s)
          (buf_index s) (buffers s) (pframe s),
        [VIDIOC_STREAMOFF; Close (fd_device s)])
  else (s, [VIDIOC_STREAMOFF]).

(** [v4l2_device_cleanup], lines 1478-1494, on [curdev->v4l2_private]
    ([None] for a null pointer). Line 1483 reads [vid_source->buffers]
    before line 1491 tests [vid_source]: with a null [v4l2_private] the
    function dereferences a null pointer ([None]). Otherwise the first
    [req.count] buffers of the array are unmapped and the array is freed,
    then the private structure is freed and [v4l2_private] is left null.
    The control array of lines 1496-1506 is not part of this state. *)
Definition v4l2_device_cleanup (v4l2_private : option state)
    : option (option state * list event) :=
  match v4l2_private with
  | None => None
  | Some vid_source =>
      Some (None,
            match buffers vid_source with
            | Some bufs =>
                map (fun b => Munmap (ptr b) (size b))
                  (firstn (Z.to_nat (req_count vid_source)) bufs)
                ++ [Free_buffers]
            | None => []
            end ++ [Free_private])
  end.

(** The regions the events map and unmap, as (address, length). *)
Definition mapped (evs : list event) : list (Z * Z) :=
  flat_map (fun ev => match ev with
                      | Mmap length _ addr =>
                          if addr =? MAP_FAILED then [] else [(addr, length)]
                      | _ => []
                      end) evs.

(** The indices the events queue, in order. *)
Definition queued (evs : list event) : list Z :=
  flat_map (fun ev => match ev with VIDIOC_QBUF indx => [indx] | _ => [] end) evs.

Definition unmapped (evs : list event) : list (Z * Z) :=
  flat_map (fun ev => match ev with
                      | Munmap addr length => [(addr, length)]
                      | _ => []
                      end) evs.

(** *** v4l2_capture *)

(** The signals the capture blocks. *)
Definition SIGHUP : Z := 1.
Definition SIGUSR1 : Z := 10.
Definition SIGALRM : Z := 14.
Definition SIGTERM : Z := 15.
Definition SIGCHLD : Z := 17.

(** A signal set, and the set built on lines 1280-1285. *)
Definition sigset_t : Type := Z -> bool.

Definition capture_set : sigset_t :=
  fun sig => (sig =? SIGCHLD) || (sig =? SIGALRM) || (sig =? SIGUSR1)
             || (sig =? SIGTERM) || (sig =? SIGHUP).

(** [pthread_sigmask(SIG_BLOCK, &set, &old)] and
    [pthread_sigmask(SIG_UNBLOCK, &old, NULL)] on the mask of the thread. *)
Definition sig_block (mask set : sigset_t) : sigset_t :=
  fun sig => mask sig || set sig.
Definition sig_unblock (mask set : sigset_t) : sigset_t :=
  fun sig => mask sig && negb (set sig).

(** What the driver answers during one capture: the value [VIDIOC_QBUF]
    returns and, for [VIDIOC_DQBUF], the index and [bytesused] of the
    buffer handed out, [None] when the call returns -1 (the structure then
    stays as the code cleared it). *)
Record capture_answers := mk_answers {
  qbuf_ret : Z;
  dqbuf : option (Z * Z)
}.

(** [v4l2_capture]: the value returned, the state, the signal mask of the
    thread on return and the events. [None] stands for the write through a
    null [vid_source->buffers]. *)
Definition v4l2_capture (a : capture_answers) (s : state) (mask : sigset_t)
    : option (Z * state * sigset_t * list event) :=
  let old := mask in
  let mask := sig_block mask capture_set in
  let requeue := if pframe s >=? 0 then [VIDIOC_QBUF (buf_index s)] else [] in
  if (pframe s >=? 0) && (qbuf_ret a =? -1)
  then Some (-1, s, sig_unblock mask old, requeue)
  else
    match dqbuf a with
    | None =>
        Some (-1,
              mk_state (buffer_count s) (fd_device s) (capabilities s)
                (req_count s) 0 (buffers s) (pframe s),
              sig_unblock mask old, requeue ++ [VIDIOC_DQBUF])
    | Some (index, bytesused) =>
        match buffers s with
        | None => None
        | Some bufs =>
            let bufs :=
              update_buff (Z.to_nat index)
                (fun b => mk_buff (ptr b) (to_int bytesused) (size b) bytesused)
                bufs in
            Some (0,
                  mk_state (buffer_count s) (fd_device s) (capabilities s)
                    (req_count s) index (Some bufs) (to_int index),
                  sig_unblock mask old, requeue ++ [VIDIOC_DQBUF])
        end
    end.

(** Captures one after the other, each with the driver's answers. *)
Fixpoint captures (answers : list capture_answers) (s : state)
    (mask : sigset_t) : option (state * sigset_t * list event) :=
  match answers with
  | [] => Some (s, mask, [])
  | a :: rest =>
      match v4l2_capture a s mask with
      | None => None
      | Some (_, s, mask, evs) =>
          match captures rest s mask with
          | None => None
          | Some (s', mask', evs') => Some (s', mask', evs ++ evs')
          end
      end
  end.

(** The buffers the driver hands out over the captures, and the requests
    of captures that all succeed: each one gives back the buffer held from
    the capture before, then takes one. *)
Definition handed_out (answers : list capture_answers) : list Z :=
  flat_map (fun a => match dqbuf a with
                     | Some (index, _) => [index]
                     | None => []
                     end) answers.

Fixpoint capture_trace (held : option Z) (indexes : list Z) : list event :=
  match indexes with
  | [] => []
  | index :: rest =>
      (match held with
       | Some p => [VIDIOC_QBUF p]
       | None => []
       end)
      ++ VIDIOC_DQBUF :: capture_trace (Some index) rest
  end.

(** A driver that grants the buffers asked for, 4096 bytes each, mapped at
    consecutive pages. *)
Definition four_buffers : stream_device :=
  mk_sdev (fun count => Some count)
    (fun indx => Some (4096, 4096 * indx))
    (fun length offset => 0x10000 + offset)
    (fun _ => 0) 0.

Definition opened (fd : Z) : state :=
  mk_state 0 fd V4L2_CAP_STREAMING 0 0 None (-1).

End Stream.

(** ** v4l2_parms_valid *)

Module ParmsValid.

(** What the three nested enumerations report: for each pixel format of
    [VIDIOC_ENUM_FMT] its frame sizes ([VIDIOC_ENUM_FRAMESIZES], the
    discrete width and height) and for each size its frame intervals
    ([VIDIOC_ENUM_FRAMEINTERVALS], numerator and denominator). All values
    are [u32]; past the end of a list the call returns -1. *)
Record frame_size := mk_size {
  discrete_width : Z;
  discrete_height : Z;
  intervals : list (Z * Z)
}.

Record dev_format := mk_format {
  pixelformat : Z;
  sizes : list frame_size
}.

(** The test of lines 1997-2001. *)
Definition matches (v4l2_palette v4l2_fps v4l2_width v4l2_height : Z)
    (dev_format : dev_format) (dev_sizes : frame_size)
    (dev_frameint : Z * Z) : bool :=
  (v4l2id v4l2_palette =? pixelformat dev_format)
  && (to_int (discrete_width dev_sizes) =? v4l2_width)
  && (to_int (discrete_height dev_sizes) =? v4l2_height)
  && (to_int (fst dev_frameint) =? 1)
  && (to_int (snd dev_frameint) =? v4l2_fps).

Section ParmsValid.

(** [open] and the enumerations on a descriptor. *)
Variable sys_open : string -> Z.
Variable enum : Z -> list dev_format.

Definition v4l2_parms_valid (video_device : string)
    (v4l2_palette v4l2_fps v4l2_width v4l2_height : Z) : Z :=
  let fd_device := sys_open video_device in
  if fd_device <? 0 then 0
  else
    fold_left
      (fun retcd dev_format =>
         fold_left
           (fun retcd dev_sizes =>
              fold_left
                (fun retcd dev_frameint =>
                   if matches v4l2_palette v4l2_fps v4l2_width v4l2_height
                        dev_format dev_sizes dev_frameint
                   then 1 else retcd)
                (intervals dev_sizes) retcd)
           (sizes dev_format) retcd)
      (enum fd_device) 0.

End ParmsValid.

(** A camera on /dev/video0 with YUYV at 640x480, 30 and 15 frames a
    second. *)
Definition video0_modes (fd : Z) : list dev_format :=
  [mk_format V4L2_PIX_FMT_YUYV [mk_size 640 480 [(1, 30); (1, 15)]]].

End ParmsValid.

(* ================================================================== *)
(** * Part II. Properties *)
(* ================================================================== *)

(** ** C arithmetic *)

Module IntFacts.

Lemma wrap_int_small (x : Z) : - 2 ^ 31 <= x < 2 ^ 31 -> wrap_int x = x.
Proof.
  intros H. unfold wrap_int, to_int, to_u32.
  change (2 ^ 31) with 2147483648 in *. change (2 ^ 32) with 4294967296.
  destruct (Z.ltb_spec (x mod 4294967296) 2147483648);
    Z.div_mod_to_equations; lia.
Qed.

Lemma wrap_int_range (x : Z) : - 2 ^ 31 <= wrap_int x < 2 ^ 31.
Proof.
  unfold wrap_int, to_int, to_u32.
  change (2 ^ 31) with 2147483648. change (2 ^ 32) with 4294967296.
  pose proof (Z.mod_pos_bound x 4294967296 ltac:(lia)).
  destruct (Z.ltb_spec (x mod 4294967296) 2147483648); lia.
Qed.

Lemma wrap_int_multiple8 (x : Z) : Z.rem x 8 = 0 -> Z.rem (wrap_int x) 8 = 0.
Proof.
  intros H. apply Z.rem_divide in H; [|lia]. apply Z.rem_divide; [lia|].
  destruct H as [k ->]. unfold wrap_int, to_int, to_u32.
  change (2 ^ 31) with 2147483648. change (2 ^ 32) with 4294967296.
  rewrite (Z.mod_eq (k * 8) 4294967296) by lia.
  destruct (_ <? _).
  - exists (k - 536870912 * (k * 8 / 4294967296)). lia.
  - exists (k - 536870912 * (k * 8 / 4294967296) - 536870912). lia.
Qed.

Lemma int_add_exact (a b : Z) :
  - 2147483648 <= a + b < 2147483648 -> int_add a b = a + b.
Proof. intros H. apply wrap_int_small. exact H. Qed.

Lemma int_sub_exact (a b : Z) :
  - 2147483648 <= a - b < 2147483648 -> int_sub a b = a - b.
Proof. intros H. apply wrap_int_small. exact H. Qed.

Lemma int_mul_range (a b : Z) :
  - 2147483648 <= int_mul a b < 2147483648.
Proof. apply wrap_int_range. Qed.

(** [atoi] gives the number the text denotes when that number is an
    [int]. *)
Lemma atoi_text_value (s : string) :
  - 2 ^ 31 <= text_value s < 2 ^ 31 -> atoi s = text_value s.
Proof.
  intros H. unfold atoi, strtol. cbv zeta.
  change (2 ^ 31) with 2147483648 in H.
  destruct (Z.gtb_spec (text_value s) LONG_MAX) as [Hgt | _].
  { unfold LONG_MAX in Hgt. change (2 ^ 63) with 9223372036854775808 in Hgt. lia. }
  destruct (Z.ltb_spec (text_value s) LONG_MIN) as [Hlt | _].
  { unfold LONG_MIN in Hlt. change (2 ^ 63) with 9223372036854775808 in Hlt. lia. }
  apply wrap_int_small. change (2 ^ 31) with 2147483648. lia.
Qed.

End IntFacts.

(** ** xioctl *)

Module XioctlFacts.
Import Xioctl.

(** After [v4l2_device_init] the pointer [finish] is not null, so the loop
    condition is false whatever the call returned and whatever the flag
    holds: the first answer is returned. *)
Lemma xioctl_initialised_never_retries fuel fd cnt_finish k :
  xioctl (S fuel) (v4l2_device_init fd cnt_finish) k = Some (ret (k O), 1%nat).
Proof.
  unfold xioctl. simpl. now rewrite andb_false_r.
Qed.

(** With a null [finish] every interrupted call is reissued: the value
    returned is the first answer that is not an interrupted call. *)
Lemma xioctl_null_finish_retries fuel fd k n :
  ret (k n) = -1 -> errno (k n) = EINTR ->
  xioctl_loop (S fuel) (calloc_src fd) k n =
  xioctl_loop fuel (calloc_src fd) k (S n).
Proof.
  intros Hr He. simpl. rewrite Hr, He. reflexivity.
Qed.

Lemma xioctl_null_finish_forever fuel fd n :
  xioctl_loop fuel (calloc_src fd) interrupted_forever n = None.
Proof.
  revert n. induction fuel as [|fuel IH]; intros n; [reflexivity|].
  simpl. apply IH.
Qed.

(** C1 (the code departs from it): on a device set up by [v4l2_device_init],
    with the shutdown flag at 0, a call interrupted once is not reissued:
    [xioctl] returns -1 after one attempt, where the stated rule reissues
    it and returns 0 after two. With the null [finish] of
    [v4l2_palette_valid], a call that keeps being interrupted is reissued
    without end, and no flag can stop it. *)
Theorem xioctl_tests_the_pointer_not_the_flag :
  let flag_clear : memory := fun _ => 0 in
  let vid_source := v4l2_device_init 5 0 in
  xioctl 8 vid_source interrupted_once = Some (-1, 1%nat) /\
  xioctl_spec_loop 8 flag_clear vid_source interrupted_once O = Some (0, 2%nat) /\
  forall fuel, xioctl fuel (calloc_src 5) interrupted_forever = None.
Proof.
  split; [reflexivity|]. split; [reflexivity|].
  intros fuel. apply xioctl_null_finish_forever.
Qed.

Lemma xioctl_loop_skips_interrupted fd k n :
  forall gap m fuel,
  (m + gap = n)%nat ->
  (forall i, (m <= i < n)%nat -> ret (k i) = -1 /\ errno (k i) = EINTR) ->
  ~ (ret (k n) = -1 /\ errno (k n) = EINTR) ->
  (gap < fuel)%nat ->
  xioctl_loop fuel (calloc_src fd) k m = Some (ret (k n), S n).
Proof.
  induction gap as [|gap IH]; intros m fuel Hm Hint Hlast Hfuel;
    (destruct fuel as [|fuel]; [lia|]).
  - replace m with n by lia. cbn [xioctl_loop].
    destruct (Z.eqb_spec (-1) (ret (k n))) as [Hr|]; [|reflexivity].
    destruct (Z.eqb_spec EINTR (errno (k n))) as [He|]; [|reflexivity].
    exfalso. apply Hlast. split; congruence.
  - destruct (Hint m ltac:(lia)) as [Hr He].
    rewrite (xioctl_null_finish_retries fuel fd k m Hr He).
    apply IH; [lia | | exact Hlast | lia].
    intros i Hi. apply Hint. lia.
Qed.

(** With the null [finish] of [v4l2_palette_valid] and [v4l2_parms_valid],
    a call that is interrupted n times and then answered is issued n + 1
    times, and [xioctl] returns that answer. *)
Theorem xioctl_returns_first_uninterrupted fuel fd k n :
  (forall i, (i < n)%nat -> ret (k i) = -1 /\ errno (k i) = EINTR) ->
  ~ (ret (k n) = -1 /\ errno (k n) = EINTR) ->
  (n < fuel)%nat ->
  xioctl fuel (calloc_src fd) k = Some (ret (k n), S n).
Proof.
  intros Hint Hlast Hfuel. unfold xioctl.
  apply (xioctl_loop_skips_interrupted fd k n n 0%nat fuel);
    [lia | | exact Hlast | exact Hfuel].
  intros i Hi. apply Hint. lia.
Qed.

Lemma xioctl_returns_first_uninterrupted_witness :
  xioctl 8 (calloc_src 5) interrupted_once = Some (0, 2%nat).
Proof.
  apply (xioctl_returns_first_uninterrupted 8 5 interrupted_once 1).
  - intros i Hi. replace i with 0%nat by lia. split; reflexivity.
  - intros [H _]. discriminate H.
  - lia.
Defined.

End XioctlFacts.

(** ** Control manager *)

Module CtrlFacts.
Import Ctrl.

Lemma restaged_refl d : restaged d d.
Proof. destruct d; reflexivity. Qed.

Lemma restaged_set d d' v : restaged d d' -> restaged d (set_ctrl_newval d' v).
Proof. unfold restaged. intros ->. destruct d; reflexivity. Qed.

Lemma MIN2_min x y : MIN2 x y = Z.min x y.
Proof. unfold MIN2. destruct (Z.ltb_spec x y); lia. Qed.

Lemma MAX2_max x y : MAX2 x y = Z.max x y.
Proof. unfold MAX2. rewrite Z.gtb_ltb. destruct (Z.ltb_spec y x); lia. Qed.

Lemma string_length_append (a b : string) :
  String.length (a ++ b) = (String.length a + String.length b)%nat.
Proof. induction a as [|c a IH]; simpl; [reflexivity | now rewrite IH]. Qed.

Lemma dec_digits_length fuel n : (String.length (dec_digits fuel n) <= fuel)%nat.
Proof.
  revert n. induction fuel as [|f IH]; intros n; simpl; [lia|].
  destruct (n <? 10); simpl; [lia|].
  rewrite string_length_append. simpl. specialize (IH (n / 10)). lia.
Qed.

(** [snprintf(buf, 32, "%d", v)] never truncates: the test of line 323 is
    never true. *)
Lemma sprintf_d_fits v :
  let retcd := Z.of_nat (String.length (sprintf_d v)) in
  (retcd <? 0) || (retcd >? 31) = false.
Proof.
  unfold sprintf_d.
  destruct (v <? 0).
  - pose proof (dec_digits_length 10 (- v)) as H.
    set (s := dec_digits 10 (- v)) in *. clearbody s.
    cbn [String.length].
    apply orb_false_iff. split; [apply Z.ltb_ge; lia|].
    rewrite Z.gtb_ltb. apply Z.ltb_ge. lia.
  - pose proof (dec_digits_length 10 v) as H.
    set (s := dec_digits 10 v) in *. clearbody s.
    apply orb_false_iff. split; [apply Z.ltb_ge; lia|].
    rewrite Z.gtb_ltb. apply Z.ltb_ge. lia.
Qed.

Lemma differs_applied d : differs (applied d) = false.
Proof.
  unfold differs, applied. simpl. rewrite Z.eqb_refl.
  now rewrite andb_false_r.
Qed.

Lemma differs_rolled_back d : differs (rolled_back d) = false.
Proof.
  unfold differs, rolled_back. simpl. rewrite Z.eqb_refl.
  now rewrite andb_false_r.
Qed.

Section ControlManagerFacts.
Variable mystrceq : string -> string -> bool.

Local Abbreviation usr_matches := (usr_matches mystrceq).
Local Abbreviation parms_set_usr := (parms_set_usr mystrceq).
Local Abbreviation parms_set_dev := (parms_set_dev mystrceq).
Local Abbreviation parms_set_loop := (parms_set_loop mystrceq).
Local Abbreviation v4l2_parms_set := (v4l2_parms_set mystrceq).
Local Abbreviation last_request := (last_request mystrceq).
Local Abbreviation out_of_range_request := (out_of_range_request mystrceq).

Lemma restaged_matches d d' u : restaged d d' -> usr_matches d' u = usr_matches d u.
Proof. unfold restaged. intros ->. reflexivity. Qed.

Lemma ranged_cases d :
  (ctrl_type d =? V4L2_CTRL_TYPE_MENU) || (ctrl_type d =? V4L2_CTRL_TYPE_INTEGER)
  = ranged d.
Proof. unfold ranged. apply orb_comm. Qed.

Lemma ranged_not_boolean d :
  ranged d = true -> (ctrl_type d =? V4L2_CTRL_TYPE_BOOLEAN) = false.
Proof.
  unfold ranged, V4L2_CTRL_TYPE_INTEGER, V4L2_CTRL_TYPE_MENU,
    V4L2_CTRL_TYPE_BOOLEAN.
  intros H. apply orb_true_iff in H. destruct H as [H | H];
    apply Z.eqb_eq in H; rewrite H; reflexivity.
Qed.

(** One matching parameter: what is staged and whether a range warning is
    logged. *)
Lemma parms_set_usr_match d d1 u :
  restaged d d1 -> (ranged d = false -> ctrl_type d <> V4L2_CTRL_TYPE_BOOLEAN -> d1 = d) ->
  usr_matches d u = true ->
  staged_by d u (fst (parms_set_usr d1 u)) /\
  List.length (filter is_range_warning (snd (parms_set_usr d1 u))) =
  List.length (filter out_of_range_request [(d, u)]).
Proof.
  intros Hre Huns Hm.
  unfold parms_set_usr, staged_by. rewrite (restaged_matches _ _ _ Hre), Hm.
  assert (Ht : ctrl_type d1 = ctrl_type d) by (rewrite Hre; reflexivity).
  assert (Hmin : ctrl_minimum d1 = ctrl_minimum d) by (rewrite Hre; reflexivity).
  assert (Hmax : ctrl_maximum d1 = ctrl_maximum d) by (rewrite Hre; reflexivity).
  rewrite Ht, Hmin, Hmax, ranged_cases. simpl. rewrite Hm. simpl.
  destruct (ranged d) eqn:Er.
  - rewrite andb_true_l.
    destruct (atoi (param_value u) <? ctrl_minimum d) eqn:E1; simpl.
    + apply Z.ltb_lt in E1. split; [|reflexivity].
      split; [now apply restaged_set|].
      split; [intros _; repeat split; intros; lia|].
      split; [|discriminate].
      intros Hb. apply ranged_not_boolean in Er. rewrite Hb in Er. discriminate.
    + apply Z.ltb_ge in E1.
      destruct (atoi (param_value u) >? ctrl_maximum d) eqn:E2; simpl.
      * apply Z.gtb_lt in E2. split; [|reflexivity].
        split; [now apply restaged_set|].
        split; [intros _; repeat split; intros; lia|].
        split; [|discriminate].
        intros Hb. apply ranged_not_boolean in Er. rewrite Hb in Er. discriminate.
      * rewrite Z.gtb_ltb in E2. apply Z.ltb_ge in E2. split; [|reflexivity].
        split; [now apply restaged_set|].
        split; [intros _; repeat split; intros; lia|].
        split; [|discriminate].
        intros Hb. apply ranged_not_boolean in Er. rewrite Hb in Er. discriminate.
  - rewrite andb_false_l. simpl.
    destruct (ctrl_type d =? V4L2_CTRL_TYPE_BOOLEAN) eqn:Eb; simpl.
    + apply Z.eqb_eq in Eb. split; [|reflexivity].
      split; [now apply restaged_set|].
      split; [discriminate|].
      split; [|congruence].
      intros _. split; intros Hv.
      * rewrite Hv. reflexivity.
      * apply Z.eqb_neq in Hv. rewrite Hv. reflexivity.
    + apply Z.eqb_neq in Eb. split; [|reflexivity].
      split; [exact Hre|].
      split; [discriminate|].
      split; [congruence|]. intros _ _. now apply Huns.
Qed.

Lemma parms_set_usr_nomatch d d1 u :
  restaged d d1 -> usr_matches d u = false ->
  parms_set_usr d1 u = (d1, []).
Proof.
  intros Hre Hm. unfold parms_set_usr.
  now rewrite (restaged_matches _ _ _ Hre), Hm.
Qed.

Lemma parms_set_dev_app d ps u :
  parms_set_dev d (ps ++ [u]) =
  let '(d1, l1) := parms_set_dev d ps in
  let '(d2, l2) := parms_set_usr d1 u in
  (d2, l1 ++ l2).
Proof.
  revert d. induction ps as [|u0 ps IH]; intros d; simpl.
  - destruct (parms_set_usr d u) as [d2 l2]. now rewrite app_nil_r.
  - destruct (parms_set_usr d u0) as [d1 l1]. rewrite IH.
    destruct (parms_set_dev d1 ps) as [d2 l2].
    destruct (parms_set_usr d2 u) as [d3 l3]. now rewrite app_assoc.
Qed.

Lemma parms_set_dev_spec d ps :
  let '(d', l) := parms_set_dev d ps in
  restaged d d' /\
  match last_request d ps with
  | Some u => staged_by d u d'
  | None => d' = d
  end /\
  List.length (filter is_range_warning l) =
  List.length (filter out_of_range_request (map (pair d) ps)).
Proof.
  induction ps as [|u ps IH] using rev_ind.
  - simpl. auto using restaged_refl.
  - rewrite parms_set_dev_app.
    destruct (parms_set_dev d ps) as [d1 l1]. destruct IH as (Hre & Hlast & Hcnt).
    unfold last_request in *. rewrite rev_app_distr. simpl.
    rewrite map_app, !filter_app, !length_app. simpl map.
    destruct (usr_matches d u) eqn:Hm.
    + assert (Huns : ranged d = false ->
                     ctrl_type d <> V4L2_CTRL_TYPE_BOOLEAN -> d1 = d).
      { destruct (find _ (rev ps)); [|auto]. apply Hlast. }
      pose proof (parms_set_usr_match d d1 u Hre Huns Hm) as [Hs Hc].
      destruct (parms_set_usr d1 u) as [d2 l2]. simpl in Hs, Hc.
      rewrite filter_app, length_app, Hcnt, Hc.
      split; [apply Hs|]. split; [exact Hs | reflexivity].
    + rewrite (parms_set_usr_nomatch d d1 u Hre Hm).
      rewrite app_nil_r. split; [exact Hre|]. split; [exact Hlast|].
      rewrite Hcnt. simpl. rewrite Hm. simpl. lia.
Qed.

Lemma parms_set_loop_spec devs ps :
  let '(devs', l) := parms_set_loop devs ps in
  Forall2 (fun d d' => match last_request d ps with
                       | Some u => staged_by d u d'
                       | None => d' = d
                       end) devs devs' /\
  List.length (filter is_range_warning l) =
  List.length (filter out_of_range_request (list_prod devs ps)).
Proof.
  induction devs as [|d devs IH]; simpl.
  - split; [constructor | reflexivity].
  - pose proof (parms_set_dev_spec d ps) as Hd.
    destruct (parms_set_dev d ps) as [d' l1].
    destruct (parms_set_loop devs ps) as [devs' l2].
    destruct Hd as (_ & Hlast & Hcnt). destruct IH as [IHf IHc].
    split; [constructor; assumption|].
    rewrite !filter_app, !length_app.
    change (map (fun y => (d, y)) ps) with (map (pair d) ps).
    rewrite Hcnt, IHc. reflexivity.
Qed.


Variable K : Type.
Variable s_ctrl : K -> Z -> Z -> K * Z.

Local Abbreviation v4l2_parm_reset := (v4l2_parm_reset mystrceq).
Local Abbreviation parm_reset_loop := (parm_reset_loop mystrceq).
Local Abbreviation ctrls_set_pass1 := (ctrls_set_pass1 K s_ctrl).
Local Abbreviation ctrls_set_pass2 := (ctrls_set_pass2 mystrceq K s_ctrl).
Local Abbreviation v4l2_ctrls_set := (v4l2_ctrls_set mystrceq K s_ctrl).
Local Abbreviation rewritten := (rewritten mystrceq).

Lemma parm_reset_loop_spec d params :
  parm_reset_loop d params = (rewritten d params, false).
Proof.
  induction params as [|u params IH]; simpl; [reflexivity|].
  destruct (usr_matches d u).
  - rewrite sprintf_d_fits, IH. reflexivity.
  - rewrite IH. reflexivity.
Qed.

(** [v4l2_parm_reset] rewrites every parameter naming the control to its
    current value, resets the requested value, and logs one warning. *)
Lemma parm_reset_spec params d :
  v4l2_parm_reset params d =
  (rewritten d params, rolled_back d,
   [(WRN, Msg_leaving_control (ctrl_iddesc d) (ctrl_name d) (ctrl_currval d))]).
Proof.
  unfold v4l2_parm_reset. rewrite parm_reset_loop_spec. reflexivity.
Qed.

Lemma pass1_spec starting k devs :
  let r1 := ctrls_set_pass1 starting k devs in
  p1_calls _ r1 = attempts devs /\
  Forall2 (fun d d1 => if differs d then d1 = applied d \/ d1 = d else d1 = d)
    devs (p1_devs _ r1) /\
  p1_failed _ r1 = existsb differs (p1_devs _ r1).
Proof.
  revert k. induction devs as [|d devs IH]; intros k; simpl.
  - repeat split. constructor.
  - unfold attempts. simpl. destruct (differs d) eqn:Ed.
    + destruct (s_ctrl k (ctrl_id d) (ctrl_newval d)) as [k1 retcd].
      destruct (IH k1) as (Hc & Hf & Hx).
      destruct (retcd <? 0); simpl.
      * rewrite Ed, Hc. repeat split. constructor; [rewrite Ed; auto | exact Hf].
      * fold (applied d). rewrite differs_applied, Hc, Hx.
        repeat split. constructor; [rewrite Ed; auto | exact Hf].
    + destruct (IH k) as (Hc & Hf & Hx). simpl. rewrite Ed, Hx.
      repeat split; [exact Hc|]. constructor; [rewrite Ed; auto | exact Hf].
Qed.

Lemma log_set_no_rollback starting d :
  filter is_rollback_warning (log_set starting d) = [].
Proof. unfold log_set. destruct starting; reflexivity. Qed.

Lemma pass1_log starting k devs :
  filter is_rollback_warning (p1_log _ (ctrls_set_pass1 starting k devs)) = [].
Proof.
  revert k. induction devs as [|d devs IH]; intros k; simpl; [reflexivity|].
  destruct (differs d).
  - destruct (s_ctrl k (ctrl_id d) (ctrl_newval d)) as [k1 retcd].
    destruct (retcd <? 0); simpl; [apply IH|].
    rewrite filter_app, log_set_no_rollback. apply IH.
  - apply IH.
Qed.

Lemma rolled_list_cons d d' devs devs' :
  rolled_list (d :: devs) (d' :: devs') =
  if differs d && (ctrl_currval d' =? ctrl_currval d)
  then d :: rolled_list devs devs'
  else rolled_list devs devs'.
Proof.
  unfold rolled_list. simpl. destruct (_ && _); reflexivity.
Qed.

Lemma differs_neq d : differs d = true -> (ctrl_newval d =? ctrl_currval d) = false.
Proof.
  unfold differs. intros H. apply andb_true_iff in H. destruct H as [_ H].
  apply negb_true_iff in H. now rewrite Z.eqb_sym.
Qed.

Lemma pass2_spec starting k params devs1 :
  let r2 := ctrls_set_pass2 starting k params devs1 in
  p2_calls _ r2 = attempts devs1 /\
  Forall2 (fun d1 d2 => if differs d1
                        then d2 = applied d1 \/ d2 = rolled_back d1
                        else d2 = d1)
    devs1 (p2_devs _ r2) /\
  p2_params _ r2 =
    fold_left (fun ps d => rewritten d ps) (rolled_list devs1 (p2_devs _ r2))
      params /\
  List.length (filter is_rollback_warning (p2_log _ r2)) =
  List.length (rolled_list devs1 (p2_devs _ r2)).
Proof.
  revert k params. induction devs1 as [|d devs IH]; intros k params; simpl.
  - repeat split. constructor.
  - unfold attempts. simpl. destruct (differs d) eqn:Ed.
    + destruct (s_ctrl k (ctrl_id d) (ctrl_newval d)) as [k1 retcd].
      destruct (retcd <? 0).
      * rewrite parm_reset_spec.
        destruct (IH k1 (rewritten d params)) as (Hc & Hf & Hp & Hl).
        simpl. rewrite rolled_list_cons, Ed. simpl.
        rewrite Z.eqb_refl. simpl.
        rewrite Hc, Hp, Hl. repeat split.
        constructor; [rewrite Ed; auto | exact Hf].
      * destruct (IH k1 params) as (Hc & Hf & Hp & Hl).
        simpl. rewrite rolled_list_cons, Ed. simpl.
        rewrite (differs_neq _ Ed). simpl.
        rewrite filter_app, log_set_no_rollback. simpl.
        rewrite Hc, Hp, Hl. repeat split.
        constructor; [rewrite Ed; auto | exact Hf].
    + destruct (IH k params) as (Hc & Hf & Hp & Hl).
      simpl. rewrite rolled_list_cons, Ed. simpl.
      rewrite Hp, Hl. repeat split; [exact Hc|].
      constructor; [rewrite Ed; auto | exact Hf].
Qed.

(** The parameters after a sequence of rollbacks: each one carries the
    current value of the last rolled-back control it names. *)
Lemma rewritten_fold l params :
  fold_left (fun ps d => rewritten d ps) l params =
  map (fun u => match find (fun d => usr_matches d u) (rev l) with
                | Some d => set_param_value u (sprintf_d (ctrl_currval d))
                | None => u
                end) params.
Proof.
  induction l as [|d l IH] using rev_ind; simpl.
  - symmetry. apply map_id.
  - rewrite fold_left_app. simpl. rewrite IH. unfold Ctrl.rewritten at 1.
    rewrite map_map. apply map_ext. intros u.
    rewrite rev_app_distr. simpl.
    destruct (find (fun d0 => usr_matches d0 u) (rev l)) as [d0|];
      unfold Ctrl.usr_matches; simpl;
      destruct (mystrceq (ctrl_iddesc d) (param_name u)
                || mystrceq (ctrl_name d) (param_name u)); reflexivity.
Qed.

Lemma two_pass_compose devs devs1 devs2 :
  Forall2 (fun d d1 => if differs d then d1 = applied d \/ d1 = d else d1 = d)
    devs devs1 ->
  Forall2 (fun d1 d2 => if differs d1
                        then d2 = applied d1 \/ d2 = rolled_back d1
                        else d2 = d1) devs1 devs2 ->
  Forall2 (fun d d2 => if differs d
                       then d2 = applied d \/ d2 = rolled_back d
                       else d2 = d) devs devs2 /\
  rolled_list devs devs2 = rolled_list devs1 devs2.
Proof.
  intros H1. revert devs2.
  induction H1 as [|d d1 devs devs1 Hd _ IH]; intros devs2 H2.
  - inversion H2. split; [constructor | reflexivity].
  - inversion H2 as [|? d2 ? devs2' Hd2 H2' ]; subst.
    destruct (IH _ H2') as [IHf IHr].
    rewrite !rolled_list_cons, IHr.
    destruct (differs d) eqn:Ed.
    + destruct Hd as [-> | ->].
      * rewrite differs_applied in *. subst d2.
        split; [constructor; [rewrite Ed; auto | exact IHf]|].
        unfold applied; simpl. now rewrite (differs_neq _ Ed).
      * rewrite Ed in *.
        split; [constructor; [rewrite Ed; auto | exact IHf] | reflexivity].
    + subst d1. rewrite Ed in *.
      split; [constructor; [rewrite Ed; auto | exact IHf] | reflexivity].
Qed.

Lemma one_pass_settled devs devs1 :
  Forall2 (fun d d1 => if differs d then d1 = applied d \/ d1 = d else d1 = d)
    devs devs1 ->
  existsb differs devs1 = false ->
  Forall2 (fun d d2 => if differs d
                       then d2 = applied d \/ d2 = rolled_back d
                       else d2 = d) devs devs1 /\
  rolled_list devs devs1 = [].
Proof.
  induction 1 as [|d d1 devs devs1 Hd _ IH]; simpl; intros Hx.
  - split; [constructor | reflexivity].
  - apply orb_false_iff in Hx. destruct Hx as [Hx1 Hx].
    destruct (IH Hx) as [IHf IHr].
    rewrite rolled_list_cons, IHr.
    destruct (differs d) eqn:Ed.
    + destruct Hd as [-> | ->]; [|congruence].
      split; [constructor; [rewrite Ed; auto | exact IHf]|].
      unfold applied; simpl. now rewrite (differs_neq _ Ed).
    + subst d1. split; [constructor; [rewrite Ed; auto | exact IHf] | reflexivity].
Qed.

Lemma attempts_cons d devs :
  attempts (d :: devs) =
  if differs d then (ctrl_id d, ctrl_newval d) :: attempts devs
  else attempts devs.
Proof. unfold attempts. simpl. destruct (differs d); reflexivity. Qed.

Lemma pass1_replies starting k devs :
  let r1 := ctrls_set_pass1 starting k devs in
  p1_kernel _ r1 = fst (replies K s_ctrl k (attempts devs)) /\
  p1_devs _ r1 =
    settle (fun d => d) devs (snd (replies K s_ctrl k (attempts devs))) /\
  filter differs (p1_devs _ r1) =
    refused devs (snd (replies K s_ctrl k (attempts devs))) /\
  p1_failed _ r1 =
    match refused devs (snd (replies K s_ctrl k (attempts devs))) with
    | [] => false
    | _ :: _ => true
    end.
Proof.
  revert k. induction devs as [|d devs IH]; intros k.
  - repeat split.
  - rewrite attempts_cons. cbn [Ctrl.ctrls_set_pass1].
    destruct (differs d) eqn:Ed.
    + cbn [replies].
      destruct (s_ctrl k (ctrl_id d) (ctrl_newval d)) as [k1 retcd].
      specialize (IH k1). cbv zeta in IH.
      destruct (replies K s_ctrl k1 (attempts devs)) as [k' rs].
      cbn [fst snd] in *. destruct IH as (Hk & Hd & Hf & Hx).
      cbn [settle refused]. rewrite Ed.
      destruct (retcd <? 0); cbn [p1_kernel p1_devs p1_failed filter].
      * rewrite Ed, Hk, Hd. rewrite <- Hd, Hf. repeat split.
      * fold (applied d). rewrite differs_applied, Hk, Hd.
        rewrite <- Hd, Hf, Hx. repeat split.
    + specialize (IH k). cbv zeta in IH. destruct IH as (Hk & Hd & Hf & Hx).
      cbn [settle refused p1_kernel p1_devs p1_failed filter].
      rewrite Ed, Hk, Hd. rewrite <- Hd, Hf, Hx. repeat split.
Qed.

Lemma pass2_replies starting k params devs1 :
  let r2 := ctrls_set_pass2 starting k params devs1 in
  let rs := snd (replies K s_ctrl k (attempts devs1)) in
  p2_kernel _ r2 = fst (replies K s_ctrl k (attempts devs1)) /\
  p2_devs _ r2 = settle rolled_back devs1 rs /\
  p2_params _ r2 =
    fold_left (fun ps d => rewritten d ps) (refused devs1 rs) params /\
  filter is_rollback_warning (p2_log _ r2) =
    map rollback_warning (refused devs1 rs).
Proof.
  revert k params. induction devs1 as [|d devs IH]; intros k params.
  - repeat split.
  - rewrite attempts_cons. cbn [Ctrl.ctrls_set_pass2].
    destruct (differs d) eqn:Ed.
    + cbn [replies].
      destruct (s_ctrl k (ctrl_id d) (ctrl_newval d)) as [k1 retcd].
      destruct (retcd <? 0) eqn:Er.
      * rewrite parm_reset_spec.
        specialize (IH k1 (rewritten d params)). cbv zeta in IH.
        destruct (replies K s_ctrl k1 (attempts devs)) as [k' rs].
        cbn [fst snd] in *. destruct IH as (Hk & Hd & Hp & Hl).
        cbn [settle refused p2_kernel p2_devs p2_params p2_log].
        rewrite Ed, Er. cbn [fold_left map filter is_rollback_warning app].
        rewrite Hk, Hd, Hp, Hl. repeat split.
      * specialize (IH k1 params). cbv zeta in IH.
        destruct (replies K s_ctrl k1 (attempts devs)) as [k' rs].
        cbn [fst snd] in *. destruct IH as (Hk & Hd & Hp & Hl).
        cbn [settle refused p2_kernel p2_devs p2_params p2_log].
        rewrite Ed, Er, filter_app, log_set_no_rollback, Hk, Hd, Hp, Hl.
        repeat split.
    + specialize (IH k params). cbv zeta in IH.
      destruct IH as (Hk & Hd & Hp & Hl).
      cbn [settle refused p2_kernel p2_devs p2_params p2_log].
      rewrite Ed, Hk, Hd, Hp, Hl. repeat split.
Qed.

(** C9: [v4l2_ctrls_set] on a ready device returns 0. Its first pass issues
    one set for every descriptor that is not a menu item and whose requested
    value differs from its current one; a second pass runs only when the
    first one failed somewhere, and issues one more set for each descriptor
    that still differs. Every differing descriptor ends either applied or
    rolled back to its current value; each rollback logs one warning and
    leaves the parameters naming the control at that value.

    In terms of what the driver answers: a descriptor whose first write is
    accepted is applied; the descriptors that still differ after the first
    pass are the ones the driver refused, and they are the ones written a
    second time; one whose second write is accepted is applied; one refused
    a second time, and no other, is rolled back, has its warning logged and
    the parameters naming it rewritten. *)
Theorem ctrls_set_two_phase cnt curdev k :
  v4l2_private curdev = true ->
  let r := v4l2_ctrls_set cnt curdev k in
  let devs := devctrl_array curdev in
  let devs' := devctrl_array (cs_dev _ r) in
  let r1 := ctrls_set_pass1 (starting curdev) k devs in
  cs_ret _ r = 0 /\
  cs_calls _ r =
    attempts devs ++ (if p1_failed _ r1 then attempts (p1_devs _ r1) else []) /\
  p1_failed _ r1 = existsb differs (p1_devs _ r1) /\
  Forall2 (fun d d' => if differs d
                       then d' = applied d \/ d' = rolled_back d
                       else d' = d) devs devs' /\
  List.length (filter is_rollback_warning (cs_log _ r)) =
    List.length (rolled_list devs devs') /\
  params_array (cs_cnt _ r) =
    map (fun u => match find (fun d => usr_matches d u)
                          (rev (rolled_list devs devs')) with
                  | Some d => set_param_value u (sprintf_d (ctrl_currval d))
                  | None => u
                  end) (params_array cnt) /\
  let '(k1, rs1) := replies K s_ctrl k (attempts devs) in
  let devs1 := settle (fun d => d) devs rs1 in
  let '(k2, rs2) := replies K s_ctrl k1 (attempts devs1) in
  filter differs devs1 = refused devs rs1 /\
  (refused devs rs1 = [] ->
   cs_calls _ r = attempts devs /\
   devs' = devs1 /\ cs_kernel _ r = k1 /\ cs_cnt _ r = cnt /\
   filter is_rollback_warning (cs_log _ r) = []) /\
  (refused devs rs1 <> [] ->
   cs_calls _ r = attempts devs ++ attempts devs1 /\
   devs' = settle rolled_back devs1 rs2 /\ cs_kernel _ r = k2 /\
   filter is_rollback_warning (cs_log _ r) =
     map rollback_warning (refused devs1 rs2) /\
   params_array (cs_cnt _ r) =
     fold_left (fun ps d => rewritten d ps) (refused devs1 rs2)
       (params_array cnt)).
Proof.
  intros Hp r devs devs' r1.
  assert (Hold :
    cs_ret _ r = 0 /\
    cs_calls _ r =
      attempts devs ++ (if p1_failed _ r1 then attempts (p1_devs _ r1) else []) /\
    p1_failed _ r1 = existsb differs (p1_devs _ r1) /\
    Forall2 (fun d d' => if differs d
                         then d' = applied d \/ d' = rolled_back d
                         else d' = d) devs devs' /\
    List.length (filter is_rollback_warning (cs_log _ r)) =
      List.length (rolled_list devs devs') /\
    params_array (cs_cnt _ r) =
      map (fun u => match find (fun d => usr_matches d u)
                            (rev (rolled_list devs devs')) with
                    | Some d => set_param_value u (sprintf_d (ctrl_currval d))
                    | None => u
                    end) (params_array cnt)).
  { subst r devs'. unfold Ctrl.v4l2_ctrls_set. rewrite Hp. simpl.
    fold devs. fold r1.
    destruct (pass1_spec (starting curdev) k devs) as (Hc1 & Hf1 & Hx1).
    fold r1 in Hc1, Hf1, Hx1.
    pose proof (pass1_log (starting curdev) k devs) as Hl1. fold r1 in Hl1.
    destruct (p1_failed _ r1) eqn:Efail.
    - destruct (pass2_spec (starting curdev) (p1_kernel _ r1) (params_array cnt)
                  (p1_devs _ r1)) as (Hc2 & Hf2 & Hp2 & Hl2).
      destruct (two_pass_compose _ _ _ Hf1 Hf2) as [Hf Hr].
      simpl. rewrite Hc1, Hc2, Hr, Hp2, rewritten_fold.
      repeat split; try assumption.
      rewrite filter_app, length_app.
      rewrite Hl1.
      simpl. exact Hl2.
    - symmetry in Hx1.
      destruct (one_pass_settled _ _ Hf1 Hx1) as [Hf Hr].
      simpl. rewrite Hc1, Hr, app_nil_r.
      repeat split; try assumption.
      + now symmetry.
      + now rewrite Hl1.
      + simpl. symmetry. apply map_id. }
  destruct Hold as (H1 & H2 & H3 & H4 & H5 & H6).
  split; [exact H1|]. split; [exact H2|]. split; [exact H3|].
  split; [exact H4|]. split; [exact H5|]. split; [exact H6|].
  destruct (pass1_replies (starting curdev) k devs) as (Hk1 & Hd1 & Hf1 & Hx1).
  fold r1 in Hk1, Hd1, Hf1, Hx1.
  pose proof (pass1_log (starting curdev) k devs) as Hl1. fold r1 in Hl1.
  destruct (pass1_spec (starting curdev) k devs) as (Hc1 & _).
  fold r1 in Hc1.
  destruct (replies K s_ctrl k (attempts devs)) as [k1 rs1].
  cbn [fst snd] in Hk1, Hd1, Hf1, Hx1. cbv zeta.
  destruct (pass2_replies (starting curdev) k1 (params_array cnt)
              (settle (fun d => d) devs rs1)) as (Hk2 & Hd2 & Hp2 & Hl2).
  destruct (pass2_spec (starting curdev) k1 (params_array cnt)
              (settle (fun d => d) devs rs1)) as (Hc2 & _).
  destruct (replies K s_ctrl k1 (attempts (settle (fun d => d) devs rs1)))
    as [k2 rs2].
  cbn [fst snd] in Hk2, Hd2, Hp2, Hl2.
  split; [rewrite <- Hd1; exact Hf1|].
  subst r devs'. unfold Ctrl.v4l2_ctrls_set. rewrite Hp. cbn [negb].
  fold devs. fold r1.
  split.
  - intros Hnone. rewrite Hnone in Hx1. rewrite Hx1.
    cbn [cs_calls cs_dev cs_kernel cs_cnt cs_log devctrl_array set_devctrl_array].
    repeat split; auto.
  - intros Hsome. destruct (refused devs rs1) as [|x l] eqn:Er; [congruence|].
    rewrite Hx1, Hk1, Hd1.
    cbn [cs_calls cs_dev cs_kernel cs_cnt cs_log devctrl_array set_devctrl_array
         params_array set_params_array].
    rewrite Hc1, Hc2, Hd2, Hk2, Hp2, filter_app, Hl1, Hl2.
    repeat split.
Qed.

Local Abbreviation autobright_target := (autobright_target mystrceq).
Local Abbreviation v4l2_autobright := (v4l2_autobright mystrceq).

Lemma autobright_scan_app method devs d target0 :
  autobright_scan method (devs ++ [d]) target0 =
  if ab_selected method d
  then ab_take d (autobright_scan method devs target0)
  else autobright_scan method devs target0.
Proof.
  unfold autobright_scan, ab_selected. rewrite fold_left_app. simpl.
  destruct ((method =? 1) && _); [reflexivity|].
  destruct ((method =? 2) && _); [reflexivity|].
  destruct ((method =? 3) && _); reflexivity.
Qed.

(** The scan leaves the current value and the range of the last control
    the method selects. *)
Lemma autobright_scan_last method devs target0 d :
  find (ab_selected method) (rev devs) = Some d ->
  let s := autobright_scan method devs target0 in
  device_value s = ctrl_currval d /\
  parm_max s = ctrl_maximum d /\
  parm_min s = ctrl_minimum d.
Proof.
  induction devs as [|d0 devs IH] using rev_ind; [discriminate|].
  rewrite rev_app_distr, autobright_scan_app. simpl.
  destruct (ab_selected method d0).
  - intros [= <-]. simpl. auto.
  - exact IH.
Qed.

Lemma autobright_stage_spec method v devs :
  Forall2 (fun d d' => if ab_selected method d
                       then d' = set_ctrl_newval d v else d' = d)
    devs (autobright_stage method v devs).
Proof.
  induction devs as [|d devs IH]; simpl; constructor; [|exact IH].
  unfold ab_selected.
  destruct ((method =? 1) && _); [reflexivity|].
  destruct ((method =? 2) && _); [reflexivity|].
  destruct ((method =? 3) && _); reflexivity.
Qed.

(** The scaled sample is an [int] divided by 255. *)
Lemma autobright_avg_range cnt hi lo avg :
  autobright_avg cnt hi lo = Some avg -> - 8421504 <= avg <= 8421504.
Proof.
  clear s_ctrl K.
  unfold autobright_avg.
  destruct (motionsize cnt >? 2147483640); [discriminate|].
  destruct (autobright_sum (image_norm cnt) (motionsize cnt)) as [sum n].
  destruct (c_div sum n) as [q|]; [|discriminate].
  cbn [bind]. unfold c_div. cbn [Z.eqb].
  intros [= <-].
  pose proof (IntFacts.int_mul_range q (int_sub hi lo)) as H.
  generalize dependent (int_mul q (int_sub hi lo)). intros m H.
  Z.to_euclidean_division_equations. lia.
Qed.

(** The step when the sample is above the window. *)
Lemma autobright_adjust_down avg tgt cur lo hi :
  - 1073741824 <= lo -> hi < 1073741824 ->
  - 8421504 <= avg <= 8421504 ->
  lo <= cur <= hi -> lo <= tgt <= hi -> MIN2 (tgt + 20) hi < avg ->
  exists v, autobright_adjust avg tgt cur lo hi = (v, true) /\
            lo <= v <= cur /\ (lo < cur -> v < cur).
Proof.
  clear s_ctrl K. intros Hlo Hhi Hav Hcur Htgt Havg.
  unfold autobright_adjust, parm_hysteresis, parm_damper.
  rewrite (IntFacts.int_add_exact tgt 20) by lia.
  assert (Hgt : tgt < avg) by (unfold MIN2 in Havg; destruct (_ <? _); lia).
  apply Z.gtb_lt in Havg. rewrite Havg. cbv beta iota zeta.
  rewrite (IntFacts.int_sub_exact avg tgt) by lia.
  rewrite (IntFacts.int_sub_exact cur lo) by lia.
  assert (Hq : 0 <= Z.quot (avg - tgt) 20 /\
               20 * Z.quot (avg - tgt) 20 <= avg - tgt).
  { split; [apply Z.quot_pos; lia|].
    Z.to_euclidean_division_equations. lia. }
  generalize dependent (Z.quot (avg - tgt) 20). intros q Hq.
  rewrite (IntFacts.int_add_exact q 1) by lia.
  set (step := MIN2 _ _).
  assert (Hstep : step <= cur - lo /\ (lo < cur -> 1 <= step) /\ 0 <= step /\
                  step <= q + 1).
  { subst step. unfold MIN2. destruct (_ <? _) eqn:E.
    - apply Z.ltb_lt in E. lia.
    - apply Z.ltb_ge in E. lia. }
  clearbody step.
  rewrite (IntFacts.int_add_exact step 1) by lia.
  rewrite (IntFacts.int_sub_exact (step + 1) lo) by lia.
  rewrite (IntFacts.int_sub_exact cur step) by lia.
  destruct (cur >? step + 1 - lo); eexists; (split; [reflexivity|]); lia.
Qed.

(** The step when the sample is below the window. *)
Lemma autobright_adjust_up avg tgt cur lo hi :
  - 1073741824 <= lo -> hi < 1073741824 ->
  - 8421504 <= avg <= 8421504 ->
  lo <= cur <= hi -> lo <= tgt <= hi -> avg < MAX2 (tgt - 20) lo ->
  MIN2 (tgt + 20) hi >= avg ->
  exists v, autobright_adjust avg tgt cur lo hi = (v, true) /\
            cur <= v <= hi /\ (cur < hi -> cur < v).
Proof.
  clear s_ctrl K. intros Hlo Hhi Hav Hcur Htgt Havg Hnot.
  unfold autobright_adjust, parm_hysteresis, parm_damper.
  rewrite (IntFacts.int_add_exact tgt 20) by lia.
  rewrite (IntFacts.int_sub_exact tgt 20) by lia.
  assert (Hlt : avg < tgt) by (unfold MAX2 in Havg; destruct (_ >? _); lia).
  assert (E1 : (avg >? MIN2 (tgt + 20) hi) = false)
    by (rewrite Z.gtb_ltb; apply Z.ltb_ge; lia).
  rewrite E1. apply Z.ltb_lt in Havg. rewrite Havg. clear Havg E1.
  cbv beta iota zeta.
  rewrite (IntFacts.int_sub_exact tgt avg) by lia.
  rewrite (IntFacts.int_sub_exact hi cur) by lia.
  assert (Hq : 0 <= Z.quot (tgt - avg) 20 <= tgt - avg).
  { split; [apply Z.quot_pos; lia|].
    Z.to_euclidean_division_equations. lia. }
  generalize dependent (Z.quot (tgt - avg) 20). intros q Hq.
  rewrite (IntFacts.int_add_exact q 1) by lia.
  set (step := MIN2 _ _).
  assert (Hstep : step <= hi - cur /\ (cur < hi -> 1 <= step) /\ 0 <= step).
  { subst step. unfold MIN2. destruct (_ <? _) eqn:E.
    - apply Z.ltb_lt in E. lia.
    - apply Z.ltb_ge in E. lia. }
  clearbody step.
  rewrite (IntFacts.int_sub_exact hi step) by lia.
  rewrite (IntFacts.int_add_exact cur step) by lia.
  destruct (cur <? hi - step); eexists; (split; [reflexivity|]); lia.
Qed.

Lemma autobright_adjust_within avg tgt cur lo hi :
  - 1073741824 <= lo -> hi < 1073741824 -> lo <= tgt <= hi ->
  MAX2 (tgt - 20) lo <= avg <= MIN2 (tgt + 20) hi ->
  autobright_adjust avg tgt cur lo hi = (cur, false).
Proof.
  intros Hmin Hmax Htgt [Hlo Hhi].
  unfold autobright_adjust, parm_hysteresis, parm_damper.
  rewrite (IntFacts.int_add_exact tgt 20) by lia.
  rewrite (IntFacts.int_sub_exact tgt 20) by lia.
  assert (E1 : (avg >? MIN2 (tgt + 20) hi) = false)
    by (rewrite Z.gtb_ltb; apply Z.ltb_ge; lia).
  assert (E2 : (avg <? MAX2 (tgt - 20) lo) = false)
    by (apply Z.ltb_ge; lia).
  now rewrite E1, E2.
Qed.


End ControlManagerFacts.





(** A brightness of 300 asked of a control that ranges over 0..255: the
    maximum is staged and one warning is logged. *)
Example brightness_above_maximum :
  Ctrl.v4l2_parms_set strceq
    (mk_cnt 1 [mk_param "brightness" "300"] 1 [] 0)
    (mk_dev [brightness_ctrl 10 10] true false) =
  (0, mk_cnt 1 [mk_param "brightness" "300"] 1 [] 0,
   mk_dev [brightness_ctrl 10 255] true false,
   [(WRN, Msg_above_maximum "Brightness" "300" 255)]).
Proof. reflexivity. Qed.

(** A control the device refuses to set: two attempts, then the requested
    value and the user's parameter go back to the current value 10, with
    the two warnings of the second pass. *)
Example locked_brightness_is_rolled_back :
  let r := Ctrl.v4l2_ctrls_set strceq unit (locked_control V4L2_CID_BRIGHTNESS)
             (mk_cnt 1 [mk_param "brightness" "300"] 1 [] 0)
             (mk_dev [brightness_ctrl 10 255] true false) tt in
  cs_ret _ r = 0 /\
  cs_calls _ r = [(V4L2_CID_BRIGHTNESS, 255); (V4L2_CID_BRIGHTNESS, 255)] /\
  devctrl_array (cs_dev _ r) = [brightness_ctrl 10 10] /\
  params_array (cs_cnt _ r) = [mk_param "brightness" "10"] /\
  map fst (cs_log _ r) = [WRN; WRN].
Proof. vm_compute. repeat split. Qed.

Lemma ctrls_set_two_phase_witness :
  let r := Ctrl.v4l2_ctrls_set strceq bool unlockable_control
             (mk_cnt 1 [] 1 [] 0) (mk_dev unlockable_devs true false) false in
  cs_ret _ r = 0 /\ cs_calls _ r = [(2, 5); (1, 1); (2, 5)] /\
  devctrl_array (cs_dev _ r) = map applied unlockable_devs /\
  filter is_rollback_warning (cs_log _ r) = [].
Proof.
  pose proof (ctrls_set_two_phase strceq bool unlockable_control
                (mk_cnt 1 [] 1 [] 0) (mk_dev unlockable_devs true false) false
                eq_refl) as (Hret & Hcalls & _ & _ & _ & _ & Hnew).
  split; [exact Hret|]. split; [exact Hcalls|].
  cbv zeta in Hnew. cbn [replies attempts] in Hnew.
  destruct Hnew as (_ & _ & Hsome).
  destruct (Hsome ltac:(discriminate)) as (_ & Hdevs & _ & Hlog & _).
  split; [exact Hdevs | exact Hlog].
Defined.

(** *** The text [v4l2_parm_reset] writes, read back by [atoi] *)

Lemma digit_of_digit_char d : 0 <= d <= 9 -> digit_of (digit_char d) = Some d.
Proof.
  intros H.
  assert (Hd : d = 0 \/ d = 1 \/ d = 2 \/ d = 3 \/ d = 4 \/ d = 5 \/ d = 6
               \/ d = 7 \/ d = 8 \/ d = 9) by lia.
  repeat (destruct Hd as [-> | Hd]; [reflexivity|]). now subst.
Qed.

Lemma string_append_assoc (a b c : string) :
  ((a ++ b) ++ c)%string = (a ++ (b ++ c))%string.
Proof. induction a as [|x a IH]; simpl; [reflexivity | now rewrite IH]. Qed.

Lemma atoi_digits_dec_digits fuel :
  forall n s acc, 0 <= n < 10 ^ Z.of_nat fuel ->
  exists m, atoi_digits (dec_digits fuel n ++ s) acc = atoi_digits s (acc * m + n).
Proof.
  induction fuel as [|fuel IH]; intros n s acc Hn.
  - exists 1. change (10 ^ Z.of_nat 0) with 1 in Hn. cbn [dec_digits append].
    f_equal. lia.
  - cbn [dec_digits]. destruct (Z.ltb_spec n 10) as [Hlt | Hge].
    + exists 10. cbn [append atoi_digits].
      rewrite digit_of_digit_char by lia. f_equal. lia.
    + rewrite string_append_assoc.
      assert (Hq : 0 <= n / 10 < 10 ^ Z.of_nat fuel).
      { rewrite Nat2Z.inj_succ, Z.pow_succ_r in Hn by lia.
        split; [apply Z.div_pos; lia | apply Z.div_lt_upper_bound; lia]. }
      destruct (IH (n / 10) (String (digit_char (n mod 10)) EmptyString ++ s)%string
                  acc Hq) as [m Hm].
      exists (10 * m). rewrite Hm. cbn [append atoi_digits].
      pose proof (Z.mod_pos_bound n 10 ltac:(lia)).
      rewrite digit_of_digit_char by lia. f_equal.
      pose proof (Z.div_mod n 10 ltac:(lia)). lia.
Qed.

Lemma dec_digits_head fuel n :
  0 <= n ->
  exists d rest, 0 <= d <= 9 /\ dec_digits (S fuel) n = String (digit_char d) rest.
Proof.
  revert n. induction fuel as [|fuel IH]; intros n Hn; cbn [dec_digits].
  - destruct (Z.ltb_spec n 10).
    + exists n, EmptyString. split; [lia | reflexivity].
    + exists (n mod 10), EmptyString.
      pose proof (Z.mod_pos_bound n 10 ltac:(lia)). split; [lia | reflexivity].
  - destruct (Z.ltb_spec n 10).
    + exists n, EmptyString. split; [lia | reflexivity].
    + destruct (IH (n / 10) ltac:(apply Z.div_pos; lia)) as (d & rest & Hd & E).
      cbn [dec_digits] in E. rewrite E. simpl. eauto.
Qed.

Lemma text_value_unsigned d rest :
  0 <= d <= 9 ->
  text_value (String (digit_char d) rest) =
  atoi_digits (String (digit_char d) rest) 0.
Proof.
  intros H.
  assert (Hd : d = 0 \/ d = 1 \/ d = 2 \/ d = 3 \/ d = 4 \/ d = 5 \/ d = 6
               \/ d = 7 \/ d = 8 \/ d = 9) by lia.
  repeat (destruct Hd as [-> | Hd]; [reflexivity|]). now subst.
Qed.

Lemma text_value_dec_digits n :
  0 <= n < 10 ^ 10 -> text_value (dec_digits 10 n) = n.
Proof.
  intros Hn.
  destruct (dec_digits_head 9 n ltac:(lia)) as (d & rest & Hd & E).
  rewrite E, text_value_unsigned, <- E by exact Hd.
  destruct (atoi_digits_dec_digits 10 n EmptyString 0 Hn) as [m Hm].
  assert (Happ : forall s, (s ++ EmptyString)%string = s)
    by (induction s as [|x s IHs]; simpl; [reflexivity | now rewrite IHs]).
  rewrite Happ in Hm. rewrite Hm. cbn [atoi_digits]. lia.
Qed.

Lemma text_value_sprintf_d v :
  - 10 ^ 10 < v < 10 ^ 10 -> text_value (sprintf_d v) = v.
Proof.
  intros Hv. unfold sprintf_d. destruct (Z.ltb_spec v 0) as [Hneg | Hpos].
  - pose proof (text_value_dec_digits (- v) ltac:(lia)) as H.
    destruct (dec_digits_head 9 (- v) ltac:(lia)) as (d & rest & Hd & E).
    rewrite E in *. rewrite text_value_unsigned in H by exact Hd.
    unfold text_value. cbn [skip_space]. change (is_space "-") with false.
    cbv iota. rewrite H. lia.
  - apply text_value_dec_digits. lia.
Qed.

(** [atoi] reads back the [int] that [snprintf] printed with [%d]. *)
Lemma atoi_sprintf_d v : - 2 ^ 31 <= v < 2 ^ 31 -> atoi (sprintf_d v) = v.
Proof.
  intros Hv. change (2 ^ 31) with 2147483648 in Hv.
  assert (Ht : text_value (sprintf_d v) = v)
    by (apply text_value_sprintf_d; change (10 ^ 10) with 10000000000; lia).
  rewrite IntFacts.atoi_text_value; rewrite Ht;
    [reflexivity | change (2 ^ 31) with 2147483648; lia].
Qed.

(** *** Stability of the staged and applied values *)

Lemma set_ctrl_newval_same d : set_ctrl_newval d (ctrl_newval d) = d.
Proof. destruct d; reflexivity. Qed.

Lemma settled_after_rollback devs1 devs2 :
  Forall2 (fun d1 d2 => if differs d1
                        then d2 = applied d1 \/ d2 = rolled_back d1
                        else d2 = d1) devs1 devs2 ->
  existsb differs devs2 = false.
Proof.
  induction 1 as [|d1 d2 devs1 devs2 Hd _ IH]; [reflexivity|].
  simpl. rewrite IH, orb_false_r.
  destruct (differs d1) eqn:E.
  - destruct Hd as [-> | ->]; [apply differs_applied | apply differs_rolled_back].
  - now subst.
Qed.

Lemma find_pointwise {A : Type} (f g : A -> bool) (l : list A) :
  (forall x, f x = g x) -> find f l = find g l.
Proof.
  intros H. induction l as [|x l IH]; simpl; [reflexivity|].
  now rewrite H, IH.
Qed.

Section ControlManagerStability.
Variable mystrceq : string -> string -> bool.
Variable K : Type.
Variable s_ctrl : K -> Z -> Z -> K * Z.

Local Abbreviation usr_matches := (usr_matches mystrceq).
Local Abbreviation parms_set_usr := (parms_set_usr mystrceq).
Local Abbreviation parms_set_dev := (parms_set_dev mystrceq).
Local Abbreviation parms_set_loop := (parms_set_loop mystrceq).
Local Abbreviation v4l2_parms_set := (v4l2_parms_set mystrceq).
Local Abbreviation last_request := (last_request mystrceq).
Local Abbreviation v4l2_parm_reset := (v4l2_parm_reset mystrceq).
Local Abbreviation ctrls_set_pass1 := (ctrls_set_pass1 K s_ctrl).
Local Abbreviation ctrls_set_pass2 := (ctrls_set_pass2 mystrceq K s_ctrl).
Local Abbreviation v4l2_ctrls_set := (v4l2_ctrls_set mystrceq K s_ctrl).
Local Abbreviation rewritten := (rewritten mystrceq).
Local Abbreviation autobright_target := (autobright_target mystrceq).
Local Abbreviation v4l2_autobright := (v4l2_autobright mystrceq).

Lemma pass1_settled starting k devs :
  existsb differs devs = false ->
  ctrls_set_pass1 starting k devs = mk_pass1 K k devs false [] [].
Proof.
  induction devs as [|d devs IH]; intros H; [reflexivity|].
  simpl in H. apply orb_false_iff in H. destruct H as [Hd Hrest].
  cbn [Ctrl.ctrls_set_pass1]. rewrite Hd, (IH Hrest). reflexivity.
Qed.

(** Once [v4l2_ctrls_set] has run, no descriptor of the array has a
    requested value that differs from its current one: a second call issues
    no [VIDIOC_S_CTRL], logs nothing and changes nothing. *)
Theorem ctrls_set_settles cnt curdev k :
  v4l2_private curdev = true ->
  let r := v4l2_ctrls_set cnt curdev k in
  existsb differs (devctrl_array (cs_dev _ r)) = false /\
  v4l2_ctrls_set (cs_cnt _ r) (cs_dev _ r) (cs_kernel _ r) =
    mk_ctrls K 0 (cs_cnt _ r) (cs_dev _ r) (cs_kernel _ r) [] [].
Proof.
  intros Hp r.
  assert (Hs : existsb differs (devctrl_array (cs_dev _ r)) = false).
  { subst r. unfold Ctrl.v4l2_ctrls_set. rewrite Hp. cbn [negb].
    destruct (pass1_spec K s_ctrl (starting curdev) k (devctrl_array curdev))
      as (_ & _ & Hx1).
    destruct (p1_failed _ _) eqn:Efail.
    - destruct (pass2_spec mystrceq K s_ctrl (starting curdev)
                  (p1_kernel _ (ctrls_set_pass1 (starting curdev) k
                                  (devctrl_array curdev)))
                  (params_array cnt)
                  (p1_devs _ (ctrls_set_pass1 (starting curdev) k
                                (devctrl_array curdev))))
        as (_ & Hf2 & _).
      cbn [cs_dev set_devctrl_array devctrl_array].
      exact (settled_after_rollback _ _ Hf2).
    - cbn [cs_dev set_devctrl_array devctrl_array]. now symmetry. }
  split; [exact Hs|].
  assert (Hp' : v4l2_private (cs_dev _ r) = true).
  { subst r. unfold Ctrl.v4l2_ctrls_set. rewrite Hp. cbn [negb].
    destruct (p1_failed _ _); exact Hp. }
  unfold Ctrl.v4l2_ctrls_set at 1. rewrite Hp'. cbn [negb].
  rewrite (pass1_settled _ _ _ Hs). cbn [p1_failed p1_devs p1_kernel p1_calls p1_log].
  f_equal. destruct (cs_dev _ r); reflexivity.
Qed.

Lemma staged_by_unique d d' d'' u :
  restaged d d' -> staged_by d u d' -> staged_by d' u d'' -> d'' = d'.
Proof.
  intros Hr (_ & Hrange & Hbool & Hother) (Hr' & Hrange' & Hbool' & Hother').
  assert (Hty : ctrl_type d' = ctrl_type d) by (rewrite Hr; destruct d; reflexivity).
  assert (Hmin : ctrl_minimum d' = ctrl_minimum d)
    by (rewrite Hr; destruct d; reflexivity).
  assert (Hmax : ctrl_maximum d' = ctrl_maximum d)
    by (rewrite Hr; destruct d; reflexivity).
  assert (Hrg : ranged d' = ranged d) by (unfold ranged; now rewrite Hty).
  rewrite Hr'. rewrite <- (set_ctrl_newval_same d') at 2. f_equal.
  destruct (ranged d) eqn:Er.
  - destruct (Hrange eq_refl) as (H1 & H2 & H3).
    destruct (Hrange' Hrg) as (H1' & H2' & H3').
    rewrite Hmin, Hmax in *.
    destruct (Z_lt_le_dec (atoi (param_value u)) (ctrl_minimum d)) as [Hlo | Hlo].
    + rewrite (H1 Hlo), (H1' Hlo). reflexivity.
    + destruct (Z_lt_le_dec (ctrl_maximum d) (atoi (param_value u))) as [Hhi | Hhi].
      * rewrite (H2 Hlo Hhi), (H2' Hlo Hhi). reflexivity.
      * rewrite (H3 (conj Hlo Hhi)), (H3' (conj Hlo Hhi)). reflexivity.
  - destruct (Z.eq_dec (ctrl_type d) V4L2_CTRL_TYPE_BOOLEAN) as [Eb | Eb].
    + destruct (Hbool Eb) as [H0 H1].
      destruct (Hbool' ltac:(congruence)) as [H0' H1'].
      destruct (Z.eq_dec (atoi (param_value u)) 0) as [Ez | Ez].
      * rewrite (H0 Ez), (H0' Ez). reflexivity.
      * rewrite (H1 Ez), (H1' Ez). reflexivity.
    + rewrite (Hother' Hrg ltac:(congruence)). reflexivity.
Qed.

Lemma staged_by_restaged d u d' : staged_by d u d' -> restaged d d'.
Proof. now intros [H _]. Qed.

Lemma parms_set_loop_idempotent devs ps :
  fst (parms_set_loop (fst (parms_set_loop devs ps)) ps) =
  fst (parms_set_loop devs ps).
Proof.
  pose proof (parms_set_loop_spec mystrceq devs ps) as H1.
  destruct (Ctrl.parms_set_loop mystrceq devs ps) as [devs1 l1] eqn:E1.
  destruct H1 as [H1 _]. cbn [fst].
  pose proof (parms_set_loop_spec mystrceq devs1 ps) as H2.
  destruct (Ctrl.parms_set_loop mystrceq devs1 ps) as [devs2 l2] eqn:E2.
  destruct H2 as [H2 _]. cbn [fst].
  clear E1 E2 l1 l2. revert devs2 H2.
  induction H1 as [|d d1 devs devs1 Hd _ IH]; intros devs2 H2.
  - now inversion H2.
  - inversion H2 as [|? d2 ? devs2' Hd2 Hrest]; subst. f_equal; [|now apply IH].
    destruct (last_request d ps) as [u|] eqn:El.
    + pose proof (staged_by_restaged _ _ _ Hd) as Hr.
      assert (El1 : last_request d1 ps = Some u).
      { unfold Ctrl.last_request in *. rewrite <- El.
        apply find_pointwise. intros x.
        apply (restaged_matches mystrceq d d1 x Hr). }
      rewrite El1 in Hd2.
      exact (staged_by_unique d d1 d2 u Hr Hd Hd2).
    + subst d1. rewrite El in Hd2. exact Hd2.
Qed.

(** Staging the user's parameters a second time changes nothing: the
    requested value of a control depends on the parameters and on the
    range and type of the control only. *)
Theorem parms_set_idempotent cnt curdev :
  let '(_, cnt1, curdev1, _) := v4l2_parms_set cnt curdev in
  let '(retcd, cnt2, curdev2, _) := v4l2_parms_set cnt1 curdev1 in
  retcd = 0 /\ cnt2 = cnt1 /\ curdev2 = curdev1.
Proof.
  unfold Ctrl.v4l2_parms_set.
  set (cnt0 := if roundrobin_skip cnt <? 0 then _ else cnt).
  assert (Hskip : (roundrobin_skip cnt0 <? 0) = false).
  { subst cnt0. destruct (roundrobin_skip cnt <? 0) eqn:E; [reflexivity | exact E]. }
  destruct (devctrl_count curdev =? 0) eqn:Ec.
  - cbn [roundrobin_skip]. rewrite Hskip, Ec. repeat split.
  - pose proof (parms_set_loop_idempotent (devctrl_array curdev)
                  (params_array cnt0)) as Hi.
    pose proof (parms_set_loop_spec mystrceq (devctrl_array curdev)
                  (params_array cnt0)) as Hs.
    destruct (Ctrl.parms_set_loop mystrceq (devctrl_array curdev)
                (params_array cnt0)) as [devs1 l1].
    destruct Hs as [Hs _]. cbn [fst] in Hi.
    rewrite Hskip.
    assert (Ec1 : (devctrl_count (set_devctrl_array curdev devs1) =? 0) = false).
    { unfold devctrl_count in *. cbn [set_devctrl_array devctrl_array].
      now rewrite <- (Forall2_length Hs). }
    rewrite Ec1. cbn [set_devctrl_array devctrl_array].
    destruct (Ctrl.parms_set_loop mystrceq devs1 (params_array cnt0))
      as [devs2 l2].
    cbn [fst] in Hi. subst devs2. repeat split.
Qed.

Lemma parms_set_usr_rewritten d u :
  (ranged d = true /\ ctrl_minimum d <= ctrl_currval d <= ctrl_maximum d) \/
  (ctrl_type d = V4L2_CTRL_TYPE_BOOLEAN /\ 0 <= ctrl_currval d <= 1) ->
  - 2 ^ 31 <= ctrl_currval d < 2 ^ 31 ->
  parms_set_usr (rolled_back d)
    (if usr_matches d u
     then set_param_value u (sprintf_d (ctrl_currval d)) else u) =
  (rolled_back d, []).
Proof.
  intros Hty Hint. unfold Ctrl.parms_set_usr.
  assert (Hm : forall x, usr_matches (rolled_back d) x = usr_matches d x)
    by (intros x; destruct d; reflexivity).
  rewrite Hm.
  destruct (usr_matches d u) eqn:Eu.
  - assert (Hm' : usr_matches d (set_param_value u (sprintf_d (ctrl_currval d)))
                  = true) by (destruct u; exact Eu).
    rewrite Hm'.
    assert (Hv : atoi (param_value (set_param_value u (sprintf_d (ctrl_currval d))))
                 = ctrl_currval d).
    { destruct u; cbn [set_param_value param_value param_name].
      apply atoi_sprintf_d. change (2 ^ 31) with 2147483648 in Hint.
      change (10 ^ 10) with 10000000000. lia. }
    rewrite Hv.
    replace (ctrl_type (rolled_back d)) with (ctrl_type d) by (destruct d; reflexivity).
    replace (ctrl_minimum (rolled_back d)) with (ctrl_minimum d)
      by (destruct d; reflexivity).
    replace (ctrl_maximum (rolled_back d)) with (ctrl_maximum d)
      by (destruct d; reflexivity).
    assert (Hsame : set_ctrl_newval (rolled_back d) (ctrl_currval d) = rolled_back d)
      by (destruct d; reflexivity).
    destruct Hty as [[Hr Hrange] | [Hb Hrange]].
    + rewrite (ranged_cases d), Hr.
      destruct (Z.ltb_spec (ctrl_currval d) (ctrl_minimum d)); [lia|].
      destruct (Z.gtb_spec (ctrl_currval d) (ctrl_maximum d)); [lia|].
      now rewrite Hsame.
    + rewrite Hb. cbn [Z.eqb V4L2_CTRL_TYPE_BOOLEAN V4L2_CTRL_TYPE_MENU
                         V4L2_CTRL_TYPE_INTEGER Pos.eqb orb].
      replace (if ctrl_currval d =? 0 then 0 else 1) with (ctrl_currval d)
        by (destruct (Z.eqb_spec (ctrl_currval d) 0); lia).
      now rewrite Hsame.
  - rewrite Eu. reflexivity.
Qed.

(** A control that refused its value is not asked again: the text
    [v4l2_parm_reset] writes into the user's parameters stages, at the next
    [v4l2_parms_set], the value the control already has, without a
    warning. This needs the current value of the control to lie in the
    range its descriptor gives. *)
Theorem parm_reset_stops_retry params d :
  (ranged d = true /\ ctrl_minimum d <= ctrl_currval d <= ctrl_maximum d) \/
  (ctrl_type d = V4L2_CTRL_TYPE_BOOLEAN /\ 0 <= ctrl_currval d <= 1) ->
  - 2 ^ 31 <= ctrl_currval d < 2 ^ 31 ->
  let '(params', d', _) := v4l2_parm_reset params d in
  parms_set_dev d' params' = (d', []) /\ differs d' = false.
Proof.
  intros Hty Hint. rewrite parm_reset_spec.
  split; [|apply differs_rolled_back].
  unfold Ctrl.rewritten.
  induction params as [|u params IH]; [reflexivity|].
  cbn [map Ctrl.parms_set_dev].
  rewrite (parms_set_usr_rewritten d u Hty Hint), IH. reflexivity.
Qed.

(** *** v4l2_autobright at its edges *)

Lemma autobright_scan_none method devs target0 :
  (forall d, In d devs -> ab_selected method d = false) ->
  autobright_scan method devs target0 = mk_scan (-1) 255 0 target0.
Proof.
  induction devs as [|d devs IH] using rev_ind; intros H; [reflexivity|].
  rewrite autobright_scan_app.
  rewrite (H d) by (apply in_or_app; right; now left).
  apply IH. intros d' Hd'. apply H. apply in_or_app. now left.
Qed.

(** Without a control for the configured method (a method outside 1..3
    selects none), [v4l2_autobright] returns 0 and stages nothing; it does
    not read the image. *)
Theorem autobright_without_control cnt curdev method :
  (forall d, In d (devctrl_array curdev) -> ab_selected method d = false) ->
  v4l2_autobright cnt curdev method = Some (0, curdev).
Proof.
  intros H. unfold Ctrl.v4l2_autobright.
  destruct ((method =? 0) || (method >? 3)); [reflexivity|].
  rewrite (autobright_scan_none method _ _ H). reflexivity.
Qed.

(** With a control to adjust and an empty frame ([motionsize] not
    positive), no pixel is sampled and the average divides by a pixel count
    of zero. *)
Theorem autobright_empty_frame_traps cnt curdev method d :
  1 <= method <= 3 ->
  find (ab_selected method) (rev (devctrl_array curdev)) = Some d ->
  ctrl_currval d <> -1 ->
  motionsize cnt <= 0 ->
  v4l2_autobright cnt curdev method = None.
Proof.
  intros Hm Hd Hcur Hsize. unfold Ctrl.v4l2_autobright.
  destruct (Z.eqb_spec method 0); [lia|].
  destruct (Z.gtb_spec method 3); [lia|]. cbn [orb].
  destruct (autobright_scan_last method (devctrl_array curdev)
              (autobright_target method (params_array cnt)) d Hd)
    as (Hv & _ & _).
  rewrite Hv. destruct (Z.eqb_spec (ctrl_currval d) (-1)); [contradiction|].
  unfold autobright_avg, autobright_sum.
  replace (Z.to_nat ((motionsize cnt + 9) / 10)) with 0%nat.
  - destruct (motionsize cnt >? 2147483640); reflexivity.
  - assert ((motionsize cnt + 9) / 10 < 1)
      by (apply Z.div_lt_upper_bound; lia).
    lia.
Qed.

End ControlManagerStability.

Lemma ctrls_set_settles_witness :
  let r := Ctrl.v4l2_ctrls_set strceq bool unlockable_control
             (mk_cnt 1 [] 1 [] 0) (mk_dev unlockable_devs true false) false in
  cs_calls _ (Ctrl.v4l2_ctrls_set strceq bool unlockable_control
                (cs_cnt _ r) (cs_dev _ r) (cs_kernel _ r)) = [].
Proof.
  intros r.
  destruct (ctrls_set_settles strceq bool unlockable_control
              (mk_cnt 1 [] 1 [] 0) (mk_dev unlockable_devs true false) false
              eq_refl) as [_ H].
  fold r in H. rewrite H. reflexivity.
Defined.

Lemma parm_reset_stops_retry_witness :
  let '(params', d', _) :=
    Ctrl.v4l2_parm_reset strceq [mk_param "brightness" "300"]
      (brightness_ctrl 10 255) in
  Ctrl.parms_set_dev strceq d' params' = (d', []) /\ differs d' = false.
Proof.
  apply (parm_reset_stops_retry strceq [mk_param "brightness" "300"]
           (brightness_ctrl 10 255)).
  - left. vm_compute. repeat split; discriminate.
  - vm_compute. split; [discriminate | reflexivity].
Defined.

Lemma autobright_without_control_witness :
  Ctrl.v4l2_autobright strceq (mk_cnt 1 [] 1 [255] 1)
    (mk_dev [brightness_ctrl 100 100] true false) 2 =
  Some (0, mk_dev [brightness_ctrl 100 100] true false).
Proof.
  apply (autobright_without_control strceq).
  intros d [<- | []]. reflexivity.
Defined.

Lemma autobright_empty_frame_traps_witness :
  Ctrl.v4l2_autobright strceq (mk_cnt 1 [] 1 [] 0)
    (mk_dev [brightness_ctrl 100 100] true false) 1 = None.
Proof.
  apply (autobright_empty_frame_traps strceq _ _ 1 (brightness_ctrl 100 100)).
  - lia.
  - reflexivity.
  - discriminate.
  - simpl. lia.
Defined.

End CtrlFacts.

(** ** Format negotiation *)

Module PixfmtFacts.
Import Pixfmt.

Lemma rem8_adjust (w : Z) : Z.rem (adjust_modulo8 w) 8 = 0.
Proof.
  unfold adjust_modulo8.
  destruct (Z.rem w 8 =? 0) eqn:E; simpl.
  - now apply Z.eqb_eq.
  - apply IntFacts.wrap_int_multiple8.
    pose proof (Z.quot_rem' w 8) as H.
    replace (w - Z.rem w 8 + 8) with ((Z.quot w 8 + 1) * 8) by lia.
    apply Z.rem_mul; lia.
Qed.

Lemma adjust_modulo8_fixed (w : Z) : Z.rem w 8 = 0 -> adjust_modulo8 w = w.
Proof.
  intros H. unfold adjust_modulo8. now rewrite H.
Qed.

Lemma adjust_modulo8_least (w : Z) :
  0 <= w <= 2147483640 ->
  w <= adjust_modulo8 w /\
  forall m, Z.rem m 8 = 0 -> w <= m -> adjust_modulo8 w <= m.
Proof.
  intros Hw. unfold adjust_modulo8.
  destruct (Z.rem w 8 =? 0) eqn:E; simpl.
  - split; [lia | intros; lia].
  - apply Z.eqb_neq in E.
    rewrite Z.rem_mod_nonneg in * by lia.
    pose proof (Z.mod_pos_bound w 8 ltac:(lia)).
    pose proof (Z.div_mod w 8 ltac:(lia)).
    rewrite IntFacts.wrap_int_small
      by (change (2 ^ 31) with 2147483648; lia).
    split; [lia|].
    intros m Hm Hle.
    rewrite Z.rem_mod_nonneg in Hm by lia.
    pose proof (Z.div_mod m 8 ltac:(lia)).
    lia.
Qed.

Ltac break_match :=
  match goal with
  | |- context [match ?x with _ => _ end] => destruct x eqn:?
  end.



Lemma pixfmt_try_state dev s p :
  let s' := snd (v4l2_pixfmt_try dev s p) in
  trials s' = trials s ++ [mk_trial p (conf_width s) (conf_height s)] /\
  conf_width s' = conf_width s /\ conf_height s' = conf_height s /\
  commits s' = commits s.
Proof.
  unfold v4l2_pixfmt_try.
  destruct (try_fmt dev _) as [retcd fmt].
  destruct (_ || _); simpl; auto.
Qed.

Lemma pixfmt_stride_state s :
  let s' := snd (v4l2_pixfmt_stride s) in
  trials s' = trials s /\
  conf_width s' = conf_width s /\ conf_height s' = conf_height s /\
  commits s' = commits s /\ dst_fmt s' = dst_fmt s.
Proof.
  unfold v4l2_pixfmt_stride.
  repeat (break_match; simpl; auto).
Qed.

Lemma pixfmt_adj_state s :
  let s' := snd (v4l2_pixfmt_adj s) in
  trials s' = trials s /\ commits s' = commits s /\
  (mod8_conf s -> mod8_conf s').
Proof.
  unfold v4l2_pixfmt_adj, mod8_conf.
  destruct (_ || _) eqn:E1; simpl; auto.
  destruct (negb (Z.rem (width s) 8 =? 0) || _) eqn:E2; simpl; auto.
  apply orb_false_iff in E2. destruct E2 as [Ew Eh].
  apply negb_false_iff, Z.eqb_eq in Ew, Eh. auto.
Qed.

Lemma pixfmt_set_state dev s p :
  let s' := snd (v4l2_pixfmt_set dev s p) in
  trials s' = trials s ++ [mk_trial p (conf_width s) (conf_height s)] /\
  (mod8_conf s -> mod8_conf s').
Proof.
  unfold v4l2_pixfmt_set.
  pose proof (pixfmt_try_state dev s p) as Ht.
  destruct (v4l2_pixfmt_try dev s p) as [r1 s1]. simpl in Ht.
  destruct Ht as (Ht & Hw & Hh & _).
  assert (Hm : mod8_conf s -> mod8_conf s1)
    by (unfold mod8_conf; now rewrite Hw, Hh).
  destruct (r1 =? -1); [simpl; auto|].
  pose proof (pixfmt_stride_state s1) as Hs.
  destruct (v4l2_pixfmt_stride s1) as [[r2|] s2]; simpl in Hs;
    destruct Hs as (Hs & Hw2 & Hh2 & _);
    assert (Hm2 : mod8_conf s -> mod8_conf s2)
      by (unfold mod8_conf in *; now rewrite Hw2, Hh2);
    [|simpl; rewrite Hs; auto].
  destruct (r2 =? -1); [simpl; rewrite Hs; auto|].
  pose proof (pixfmt_adj_state s2) as Ha.
  destruct (v4l2_pixfmt_adj s2) as [r3 s3]; simpl in Ha.
  destruct Ha as (Ha & _ & Hm3).
  destruct (r3 =? -1); [simpl; rewrite Ha, Hs; auto|].
  destruct (s_fmt dev _ =? -1); simpl; rewrite Ha, Hs; auto.
Qed.

Lemma pixfmt_fallback_state dev s :
  let s' := snd (pixfmt_fallback dev s) in
  trials s' =
    trials s ++
    (if palette_scan (enum_fmt dev) >=? 0
     then [mk_trial (v4l2id (palette_scan (enum_fmt dev)))
             (conf_width s) (conf_height s)]
     else []) /\
  (mod8_conf s -> mod8_conf s').
Proof.
  unfold pixfmt_fallback.
  destruct (palette_scan (enum_fmt dev) >=? 0).
  - pose proof (pixfmt_set_state dev s (v4l2id (palette_scan (enum_fmt dev)))) as H.
    destruct (v4l2_pixfmt_set dev s _) as [[r|] s1]; simpl in H |- *; auto.
    destruct (r >=? 0); simpl; auto.
  - simpl. rewrite app_nil_r. auto.
Qed.

Lemma fold_last_hit {A : Type} (test : A -> bool) (l : list A) (a : A) :
  let r := fold_left (fun acc x => if test x then x else acc) l a in
  (existsb test l = false -> r = a) /\
  (existsb test l = true -> In r l /\ test r = true).
Proof.
  revert a. induction l as [|x l IH]; intros a; simpl.
  - split; [reflexivity | discriminate].
  - destruct (IH (if test x then x else a)) as [IHn IHy].
    destruct (existsb test l) eqn:El.
    + rewrite orb_true_r. split; [discriminate|].
      intros _. destruct (IHy eq_refl) as [Hin Ht]. auto.
    + rewrite orb_false_r. rewrite (IHn eq_refl).
      destruct (test x) eqn:Ex; split; try discriminate; auto.
Qed.

Lemma catalog_indices_range indx :
  In indx catalog_indices -> 0 <= indx <= V4L2_PALETTE_COUNT_MAX.
Proof.
  unfold catalog_indices. rewrite in_map_iff.
  intros (n & <- & Hn). apply in_seq in Hn.
  unfold V4L2_PALETTE_COUNT_MAX in *. simpl in Hn. lia.
Qed.

Lemma palette_lookup_spec pixelformat ip :
  if selectable pixelformat
  then 0 <= palette_lookup pixelformat ip <= V4L2_PALETTE_COUNT_MAX /\
       v4l2id (palette_lookup pixelformat ip) = pixelformat
  else palette_lookup pixelformat ip = ip.
Proof.
  unfold palette_lookup, selectable.
  pose proof (fold_last_hit
    (fun indx => (v4l2id indx =? pixelformat)
                 && negb (v4l2id indx =? V4L2_PIX_FMT_H264))
    catalog_indices ip) as [Hn Hy].
  destruct (existsb _ catalog_indices).
  - destruct (Hy eq_refl) as [Hin Ht].
    apply andb_true_iff in Ht. destruct Ht as [Ht _]. apply Z.eqb_eq in Ht.
    split; [now apply catalog_indices_range | exact Ht].
  - now apply Hn.
Qed.

Lemma palette_scan_spec fmts :
  match last_selectable fmts with
  | Some f => 0 <= palette_scan fmts <= V4L2_PALETTE_COUNT_MAX /\
              v4l2id (palette_scan fmts) = f
  | None => palette_scan fmts = -1
  end.
Proof.
  unfold palette_scan, last_selectable.
  induction fmts as [|f fmts IH] using rev_ind; [reflexivity|].
  rewrite fold_left_app, rev_app_distr. simpl.
  pose proof (palette_lookup_spec f
    (fold_left (fun ip pixelformat => palette_lookup pixelformat ip) fmts (-1))) as H.
  destruct (selectable f); [exact H|].
  rewrite H. exact IH.
Qed.

Lemma pixfmt_set_ret dev s p :
  match fst (v4l2_pixfmt_set dev s p) with
  | Some r => r = 0 \/ r = -1
  | None => True
  end.
Proof.
  unfold v4l2_pixfmt_set.
  destruct (v4l2_pixfmt_try dev s p) as [r1 s1].
  destruct (r1 =? -1); [simpl; auto|].
  destruct (v4l2_pixfmt_stride s1) as [[r2|] s2]; [|exact I].
  destruct (r2 =? -1); [simpl; auto|].
  destruct (v4l2_pixfmt_adj s2) as [r3 s3].
  destruct (r3 =? -1); [simpl; auto|].
  cbv zeta. destruct (s_fmt dev _ =? -1); simpl; auto.
Qed.

Lemma pixfmt_fallback_spec dev s :
  match last_selectable (enum_fmt dev) with
  | None => pixfmt_fallback dev s = (Some (-1), s)
  | Some f => pixfmt_fallback dev s = v4l2_pixfmt_set dev s f
  end.
Proof.
  unfold pixfmt_fallback.
  pose proof (palette_scan_spec (enum_fmt dev)) as Hscan.
  destruct (last_selectable (enum_fmt dev)) as [f|].
  - destruct Hscan as [[Hge _] Hid]. apply Z.geb_le in Hge. rewrite Hge, Hid.
    pose proof (pixfmt_set_ret dev s f) as Hret.
    destruct (v4l2_pixfmt_set dev s f) as [[r|] s3]; [|reflexivity].
    cbn [fst] in Hret. destruct Hret as [-> | ->]; reflexivity.
  - rewrite Hscan. reflexivity.
Qed.

Section NegotiationFacts.
Variable mystreq : string -> string -> bool.

Lemma pixfmt_select_eq dev s :
  v4l2_pixfmt_select mystreq dev s =
  let s1 := set_conf s (adjust_modulo8 (conf_width s))
              (adjust_modulo8 (conf_height s)) in
  let ip := palette_param mystreq (params_array s) in
  if (ip >=? 0) && (ip <=? V4L2_PALETTE_COUNT_MAX) then
    match v4l2_pixfmt_set dev s1 (v4l2id ip) with
    | (None, s2) => (None, s2)
    | (Some retcd, s2) =>
        if retcd >=? 0 then (Some 0, s2) else pixfmt_fallback dev s2
    end
  else pixfmt_fallback dev s1.
Proof. reflexivity. Qed.

Lemma pixfmt_select_state dev s :
  let s1 := set_conf s (adjust_modulo8 (conf_width s))
              (adjust_modulo8 (conf_height s)) in
  let ip := palette_param mystreq (params_array s) in
  let s' := snd (v4l2_pixfmt_select mystreq dev s) in
  exists s2,
    mod8_conf s2 /\
    ((ip >=? 0) && (ip <=? V4L2_PALETTE_COUNT_MAX) = false -> s2 = s1) /\
    let cfg := if (ip >=? 0) && (ip <=? V4L2_PALETTE_COUNT_MAX)
                 then [mk_trial (v4l2id ip) (conf_width s1) (conf_height s1)]
                 else [] in
    (trials s' = trials s ++ cfg \/
     trials s' =
       trials s ++ cfg ++
       (if palette_scan (enum_fmt dev) >=? 0
        then [mk_trial (v4l2id (palette_scan (enum_fmt dev)))
                (conf_width s2) (conf_height s2)]
        else [])) /\
    (fst (v4l2_pixfmt_select mystreq dev s) = Some (-1) ->
     trials s' =
       trials s ++ cfg ++
       (if palette_scan (enum_fmt dev) >=? 0
        then [mk_trial (v4l2id (palette_scan (enum_fmt dev)))
                (conf_width s2) (conf_height s2)]
        else [])).
Proof.
  intros s1 ip.
  assert (H1 : mod8_conf s1) by (split; apply rem8_adjust).
  rewrite pixfmt_select_eq. fold s1. fold ip. cbv zeta.
  destruct ((ip >=? 0) && (ip <=? V4L2_PALETTE_COUNT_MAX)).
  - pose proof (pixfmt_set_state dev s1 (v4l2id ip)) as Hs.
    destruct (v4l2_pixfmt_set dev s1 (v4l2id ip)) as [[r|] s2]; simpl in Hs;
      destruct Hs as [Ht Hm].
    + destruct (r >=? 0).
      * exists s2. simpl. split; [auto|]. split; [discriminate|].
        split; [left; exact Ht | discriminate].
      * pose proof (pixfmt_fallback_state dev s2) as [Hf _].
        exists s2. split; [auto|]. split; [discriminate|].
        rewrite Hf, Ht, <- app_assoc.
        split; [right|]; reflexivity.
    + exists s2. simpl. split; [auto|]. split; [discriminate|].
      split; [left; exact Ht | discriminate].
  - pose proof (pixfmt_fallback_state dev s1) as [Hf _].
    exists s1. split; [auto|]. split; [reflexivity|]. rewrite Hf. simpl.
    split; [right|]; reflexivity.
Qed.


Lemma set_conf_twice s w h w' h' :
  set_conf (set_conf s w h) w' h' = set_conf s w' h'.
Proof. reflexivity. Qed.

(** C7 (amended): for a requested width and height from 0 to 2147483640,
    [v4l2_pixfmt_select] replaces each by the smallest multiple of 8 that is
    at least the requested value, before any format trial: negotiating from
    the requested size is negotiating from the adjusted one (which the
    adjustment leaves as it is), every trial is issued for multiples of 8,
    the first one for the adjusted width and height, and when no trial is
    issued the adjusted size is the configured size on return. *)
Theorem pixfmt_select_rounds_up_to_modulo8 dev s :
  0 <= conf_width s <= 2147483640 -> 0 <= conf_height s <= 2147483640 ->
  exists w' h',
    least_multiple8 (conf_width s) w' /\
    least_multiple8 (conf_height s) h' /\
    v4l2_pixfmt_select mystreq dev (set_conf s w' h') =
      v4l2_pixfmt_select mystreq dev s /\
    let s' := snd (v4l2_pixfmt_select mystreq dev s) in
    mod8_conf s' /\
    exists new,
      trials s' = trials s ++ new /\
      Forall (fun t => Z.rem (trial_width t) 8 = 0 /\
                       Z.rem (trial_height t) 8 = 0) new /\
      match new with
      | t :: _ => trial_width t = w' /\ trial_height t = h'
      | [] => conf_width s' = w' /\ conf_height s' = h'
      end.
Proof.
  intros Hw Hh.
  exists (adjust_modulo8 (conf_width s)), (adjust_modulo8 (conf_height s)).
  pose proof (adjust_modulo8_least _ Hw) as [Hw1 Hw2].
  pose proof (adjust_modulo8_least _ Hh) as [Hh1 Hh2].
  split; [split; [apply rem8_adjust | split; assumption]|].
  split; [split; [apply rem8_adjust | split; assumption]|].
  split.
  { rewrite !pixfmt_select_eq. cbv zeta.
    cbn [conf_width conf_height set_conf params_array].
    rewrite (adjust_modulo8_fixed (adjust_modulo8 (conf_width s)))
      by apply rem8_adjust.
    rewrite (adjust_modulo8_fixed (adjust_modulo8 (conf_height s)))
      by apply rem8_adjust.
    reflexivity. }
  rewrite pixfmt_select_eq. cbv zeta.
  set (s1 := set_conf s (adjust_modulo8 (conf_width s))
               (adjust_modulo8 (conf_height s))).
  assert (H1 : mod8_conf s1) by (split; apply rem8_adjust).
  assert (Hfb : forall s2,
            mod8_conf s2 ->
            mod8_conf (snd (pixfmt_fallback dev s2)) /\
            ((trials (snd (pixfmt_fallback dev s2)) = trials s2 /\
              snd (pixfmt_fallback dev s2) = s2) \/
             exists p,
               trials (snd (pixfmt_fallback dev s2)) =
               trials s2 ++ [mk_trial p (conf_width s2) (conf_height s2)])).
  { intros s2 H2. unfold pixfmt_fallback.
    destruct (palette_scan (enum_fmt dev) >=? 0); [|cbn; auto].
    pose proof (pixfmt_set_state dev s2 (v4l2id (palette_scan (enum_fmt dev))))
      as [Ht Hm].
    destruct (v4l2_pixfmt_set dev s2 _) as [[r|] s3]; cbn [snd] in *.
    - destruct (r >=? 0); cbn [snd]; split; eauto.
    - split; eauto. }
  destruct ((palette_param mystreq (params_array s) >=? 0)
            && (palette_param mystreq (params_array s) <=? V4L2_PALETTE_COUNT_MAX)).
  - pose proof (pixfmt_set_state dev s1
                  (v4l2id (palette_param mystreq (params_array s)))) as [Ht Hm].
    set (t1 := mk_trial (v4l2id (palette_param mystreq (params_array s)))
                 (conf_width s1) (conf_height s1)) in *.
    assert (Ht1 : Z.rem (trial_width t1) 8 = 0 /\ Z.rem (trial_height t1) 8 = 0)
      by exact H1.
    destruct (v4l2_pixfmt_set dev s1 _) as [[r|] s2]; cbn [snd] in Ht, Hm.
    + destruct (r >=? 0).
      * cbn [snd]. split; [auto|]. exists [t1]. cbn [trials s1 set_conf] in Ht.
        split; [exact Ht|]. split; [constructor; [exact Ht1 | constructor]|].
        split; reflexivity.
      * destruct (Hfb s2 (Hm H1)) as [Hm' [[Hsame _] | [p Hp]]].
        -- split; [exact Hm'|]. exists [t1]. rewrite Hsame.
           cbn [trials s1 set_conf] in Ht.
           split; [exact Ht|]. split; [constructor; [exact Ht1 | constructor]|].
           split; reflexivity.
        -- split; [exact Hm'|].
           exists [t1; mk_trial p (conf_width s2) (conf_height s2)].
           rewrite Hp, Ht. cbn [trials s1 set_conf]. rewrite <- app_assoc.
           split; [reflexivity|].
           split; [|split; reflexivity].
           constructor; [exact Ht1|]. constructor; [|constructor].
           exact (Hm H1).
    + cbn [snd]. split; [auto|]. exists [t1]. cbn [trials s1 set_conf] in Ht.
      split; [exact Ht|]. split; [constructor; [exact Ht1 | constructor]|].
      split; reflexivity.
  - destruct (Hfb s1 H1) as [Hm' [[Hsame Hs] | [p Hp]]].
    + split; [exact Hm'|]. exists []. rewrite Hsame, Hs, app_nil_r.
      split; [reflexivity|]. split; [constructor|]. split; reflexivity.
    + split; [exact Hm'|].
      exists [mk_trial p (conf_width s1) (conf_height s1)].
      split; [exact Hp|]. split; [constructor; [exact H1 | constructor]|].
      split; reflexivity.
Qed.

(** C4 (amended): when the configured palette fails or is out of range,
    [v4l2_pixfmt_select] keeps one candidate, the last format the device
    advertises that is in the catalog and is not H264. Without such a
    format it returns the fatal error at once. With one, it issues a
    single trial, for that candidate, and returns what that trial gives:
    the fatal error when, and only when, the trial fails. No other
    advertised format is tried. *)
Theorem pixfmt_select_fatal_after_one_fallback_trial dev s s2 :
  let s1 := set_conf s (adjust_modulo8 (conf_width s))
              (adjust_modulo8 (conf_height s)) in
  let ip := palette_param mystreq (params_array s) in
  let in_catalog := (ip >=? 0) && (ip <=? V4L2_PALETTE_COUNT_MAX) in
  (if in_catalog
   then v4l2_pixfmt_set dev s1 (v4l2id ip) = (Some (-1), s2)
   else s2 = s1) ->
  let r := v4l2_pixfmt_select mystreq dev s in
  selectable V4L2_PIX_FMT_H264 = false /\
  trials s2 =
    trials s ++
    (if in_catalog
     then [mk_trial (v4l2id ip) (conf_width s1) (conf_height s1)] else []) /\
  match last_selectable (enum_fmt dev) with
  | None => r = (Some (-1), s2)
  | Some f =>
      selectable f = true /\ In f (enum_fmt dev) /\
      r = v4l2_pixfmt_set dev s2 f /\
      trials (snd r) =
        trials s2 ++ [mk_trial f (conf_width s2) (conf_height s2)]
  end /\
  (fst r = Some (-1) <->
   match last_selectable (enum_fmt dev) with
   | None => True
   | Some f => fst (v4l2_pixfmt_set dev s2 f) = Some (-1)
   end).
Proof.
  intros s1 ip in_catalog Hcfg r.
  assert (Hr : r = pixfmt_fallback dev s2 /\
               trials s2 =
                 trials s ++
                 (if in_catalog
                  then [mk_trial (v4l2id ip) (conf_width s1) (conf_height s1)]
                  else [])).
  { subst r. rewrite pixfmt_select_eq. cbv zeta. fold s1. fold ip.
    fold in_catalog. destruct in_catalog.
    - pose proof (pixfmt_set_state dev s1 (v4l2id ip)) as [Ht _].
      rewrite Hcfg in Ht |- *. cbn [snd] in Ht. split; [reflexivity | exact Ht].
    - subst s2. split; [reflexivity|]. cbn. now rewrite app_nil_r. }
  destruct Hr as [Hr Ht2].
  split; [reflexivity|]. split; [exact Ht2|].
  pose proof (pixfmt_fallback_spec dev s2) as Hfb.
  destruct (last_selectable (enum_fmt dev)) as [f|] eqn:El.
  - rewrite Hr, Hfb.
    unfold last_selectable in El. apply find_some in El.
    destruct El as [Hin Hsel]. apply in_rev in Hin.
    pose proof (pixfmt_set_state dev s2 f) as [Ht _].
    split; [auto|]. reflexivity.
  - rewrite Hr, Hfb. split; [reflexivity|]. split; [reflexivity | auto].
Qed.

End NegotiationFacts.

(** C4, as stated, fails: a camera that advertises YUYV and GREY and accepts
    only YUYV is refused, and YUYV, which a trial would have accepted, was
    never tried. *)
Lemma pixfmt_select_leaves_working_format_untried :
  let r := v4l2_pixfmt_select streq yuyv_grey_camera (initial 640 480 []) in
  fst r = Some (-1) /\
  In V4L2_PIX_FMT_YUYV (enum_fmt yuyv_grey_camera) /\
  selectable V4L2_PIX_FMT_YUYV = true /\
  ~ In V4L2_PIX_FMT_YUYV (map trial_pixformat (trials (snd r))) /\
  fst (v4l2_pixfmt_set yuyv_grey_camera (snd r) V4L2_PIX_FMT_YUYV) = Some 0.
Proof.
  vm_compute. repeat split; auto.
  intros [H | [H | []]]; discriminate H.
Qed.

Lemma pixfmt_select_fatal_after_one_fallback_trial_witness :
  let r := v4l2_pixfmt_select streq yuyv_grey_camera (initial 640 480 []) in
  fst r = Some (-1) /\
  map trial_pixformat (trials (snd r)) =
    [V4L2_PIX_FMT_YUV420; V4L2_PIX_FMT_GREY].
Proof.
  pose proof (pixfmt_select_fatal_after_one_fallback_trial streq
                yuyv_grey_camera (initial 640 480 [])
                (snd (v4l2_pixfmt_set yuyv_grey_camera (initial 640 480 [])
                        V4L2_PIX_FMT_YUV420))
                eq_refl) as (_ & Ht2 & Hcand & Hfatal).
  cbv zeta in Hcand, Hfatal.
  change (last_selectable (enum_fmt yuyv_grey_camera))
    with (Some V4L2_PIX_FMT_GREY) in Hcand, Hfatal.
  cbv iota beta in Hcand, Hfatal.
  destruct Hcand as (_ & _ & _ & Ht3).
  split; [apply (proj2 Hfatal); reflexivity|].
  cbv zeta. rewrite Ht3, Ht2. reflexivity.
Defined.

(** C7, as stated, fails for a negative size: a requested width of -3 is
    replaced by 8, and 0 is a smaller multiple of 8 that is at least -3. *)
Lemma pixfmt_select_negative_width_is_not_rounded_to_the_least :
  let r := v4l2_pixfmt_select streq no_format_camera (initial (-3) 480 []) in
  Z.rem (-3) 8 <> 0 /\
  map trial_width (trials (snd r)) = [8] /\
  conf_width (snd r) = 8 /\
  ~ least_multiple8 (-3) 8.
Proof.
  split; [discriminate|]. split; [reflexivity|]. split; [reflexivity|].
  intros (_ & _ & Hleast).
  specialize (Hleast 0 eq_refl ltac:(lia)). lia.
Qed.

Lemma pixfmt_select_rounds_up_to_modulo8_witness :
  exists w' h',
    least_multiple8 641 w' /\ least_multiple8 475 h' /\
    hd_error (trials (snd (v4l2_pixfmt_select streq (stride_camera 0)
                             (initial 641 475 [])))) =
    Some (mk_trial V4L2_PIX_FMT_YUV420 w' h').
Proof.
  destruct (pixfmt_select_rounds_up_to_modulo8 streq (stride_camera 0)
              (initial 641 475 []) ltac:(simpl; lia) ltac:(simpl; lia))
    as (w' & h' & Hw & Hh & _ & _ & new & Ht & _ & Hfirst).
  exists w', h'. split; [exact Hw|]. split; [exact Hh|].
  cbn [trials initial app] in Ht. rewrite Ht.
  destruct new as [|t new]; [discriminate Ht|].
  destruct Hfirst as [<- <-].
  assert (Hp : trial_pixformat t = V4L2_PIX_FMT_YUV420)
    by (now inversion Ht).
  rewrite <- Hp. destruct t; reflexivity.
Defined.


Lemma pixfmt_try_accepts dev s pixformat retcd fmt :
  try_fmt dev (mk_pix (to_u32 (conf_width s)) (to_u32 (conf_height s))
                 pixformat 0) = (retcd, fmt) ->
  retcd <> -1 -> pix_pixelformat fmt = pixformat ->
  v4l2_pixfmt_try dev s pixformat =
  (0, set_tried s fmt (mk_trial pixformat (conf_width s) (conf_height s))).
Proof.
  intros Ht Hr Hp. unfold v4l2_pixfmt_try. rewrite Ht.
  apply Z.eqb_neq in Hr. rewrite Hr. rewrite Hp, Z.eqb_refl. reflexivity.
Qed.

Lemma pixfmt_stride_cases s :
  let wd := to_int (pix_width (dst_fmt s)) in
  let ht := to_int (pix_height (dst_fmt s)) in
  let bpl := to_int (pix_bytesperline (dst_fmt s)) in
  0 < wd ->
  (wd < bpl -> Z.rem bpl wd <> 0 ->
     v4l2_pixfmt_stride s =
     (Some 0, set_size s (wd + Z.quot (Z.rem bpl wd) (Z.quot bpl wd)) ht)) /\
  (bpl <> 0 -> bpl < wd ->
     v4l2_pixfmt_stride s = (Some (-1), set_size s wd ht)) /\
  (bpl = 0 \/ (wd <= bpl /\ Z.rem bpl wd = 0) ->
     v4l2_pixfmt_stride s = (Some 0, set_size s wd ht)).
Proof.
  intros wd ht bpl Hwd.
  unfold v4l2_pixfmt_stride. simpl. fold wd. fold ht. fold bpl.
  unfold c_mod, c_div.
  assert (E3 : (wd =? 0) = false) by (apply Z.eqb_neq; lia).
  rewrite E3.
  split; [|split].
  - intros Hlt Hrem.
    assert (Hq : 0 < Z.quot bpl wd) by (apply Z.quot_str_pos; lia).
    destruct (bpl =? 0) eqn:E0; [apply Z.eqb_eq in E0; lia|].
    destruct (wd >? bpl) eqn:E1; [apply Z.gtb_lt in E1; lia|].
    destruct (wd =? bpl) eqn:E2; [apply Z.eqb_eq in E2; lia|].
    destruct (Z.rem bpl wd =? 0) eqn:E4; [apply Z.eqb_eq in E4; lia|].
    destruct (Z.quot bpl wd =? 0) eqn:E5; [apply Z.eqb_eq in E5; lia|].
    reflexivity.
  - intros Hnz Hlt.
    destruct (bpl =? 0) eqn:E0; [apply Z.eqb_eq in E0; lia|].
    destruct (wd >? bpl) eqn:E1; [reflexivity|].
    rewrite Z.gtb_ltb in E1. apply Z.ltb_ge in E1. lia.
  - intros [H0 | [Hle Hrem]].
    + rewrite H0. reflexivity.
    + destruct (bpl =? 0); [reflexivity|].
      destruct (wd >? bpl) eqn:E1; [apply Z.gtb_lt in E1; lia|].
      destruct (wd =? bpl); [reflexivity|].
      rewrite Hrem. reflexivity.
Qed.

(** What [v4l2_pixfmt_set] does after an accepted trial and a stride check
    that returned 0. *)
Lemma pixfmt_set_after_stride dev s pixformat s1 s2 :
  v4l2_pixfmt_try dev s pixformat = (0, s1) ->
  v4l2_pixfmt_stride s1 = (Some 0, s2) ->
  v4l2_pixfmt_set dev s pixformat =
  if negb (width s2 =? conf_width s2) || negb (height s2 =? conf_height s2)
  then
    if negb (Z.rem (width s2) 8 =? 0) || negb (Z.rem (height s2) 8 =? 0)
    then (Some (-1), s2)
    else
      let s3 := set_committed (set_conf s2 (width s2) (height s2)) (dst_fmt s2) in
      if s_fmt dev (dst_fmt s2) =? -1 then (Some (-1), s3)
      else (Some 0, set_pixfmt_src s3 pixformat)
  else
    let s3 := set_committed s2 (dst_fmt s2) in
    if s_fmt dev (dst_fmt s2) =? -1 then (Some (-1), s3)
    else (Some 0, set_pixfmt_src s3 pixformat).
Proof.
  intros Ht Hs. unfold v4l2_pixfmt_set. rewrite Ht. simpl. rewrite Hs. simpl.
  unfold v4l2_pixfmt_adj.
  destruct (_ || _); [|reflexivity].
  destruct (_ || _); reflexivity.
Qed.

(** C6 (amended): once a trial is accepted with width wd > 0, height ht and
    row stride bpl, a stride above the width that is not a multiple of it
    makes the recorded width wd + (bpl % wd) / (bpl / wd); the format is then
    committed with that width unless it or the height is not a multiple of
    8, in which case the negotiation of the format fails and nothing is
    committed. A nonzero stride below the width fails as well. A zero
    stride, or one that is the width or a multiple of it, leaves the width
    at wd. *)
Theorem pixfmt_set_stride_adjustment dev s pixformat retcd fmt :
  mod8_conf s ->
  try_fmt dev (mk_pix (to_u32 (conf_width s)) (to_u32 (conf_height s))
                 pixformat 0) = (retcd, fmt) ->
  retcd <> -1 -> pix_pixelformat fmt = pixformat ->
  0 < to_int (pix_width fmt) ->
  let wd := to_int (pix_width fmt) in
  let ht := to_int (pix_height fmt) in
  let bpl := to_int (pix_bytesperline fmt) in
  let adjusted := wd + Z.quot (Z.rem bpl wd) (Z.quot bpl wd) in
  let r := v4l2_pixfmt_set dev s pixformat in
  (wd < bpl -> Z.rem bpl wd <> 0 ->
     width (snd r) = adjusted /\ height (snd r) = ht /\
     (Z.rem adjusted 8 <> 0 \/ Z.rem ht 8 <> 0 ->
        fst r = Some (-1) /\ commits (snd r) = commits s /\
        conf_width (snd r) = conf_width s /\
        conf_height (snd r) = conf_height s) /\
     (Z.rem adjusted 8 = 0 -> Z.rem ht 8 = 0 ->
        commits (snd r) = commits s ++ [fmt] /\
        conf_width (snd r) = adjusted /\ conf_height (snd r) = ht /\
        fst r = Some (if s_fmt dev fmt =? -1 then -1 else 0))) /\
  (bpl <> 0 -> bpl < wd ->
     fst r = Some (-1) /\ commits (snd r) = commits s) /\
  (bpl = 0 \/ (wd <= bpl /\ Z.rem bpl wd = 0) -> width (snd r) = wd).
Proof.
  intros [Hcw Hch] Htry Hret Hpix Hwd wd ht bpl adjusted r.
  pose proof (pixfmt_try_accepts _ _ _ _ _ Htry Hret Hpix) as Ht.
  set (s1 := set_tried s fmt _) in Ht.
  destruct (pixfmt_stride_cases s1 Hwd) as (Hadj & Hlow & Hsame).
  simpl in Hadj, Hlow, Hsame. fold wd in Hadj, Hlow, Hsame.
  fold ht in Hadj, Hlow, Hsame. fold bpl in Hadj, Hlow, Hsame.
  split; [|split].
  - intros Hlt Hrem. specialize (Hadj Hlt Hrem). fold adjusted in Hadj.
    subst r. rewrite (pixfmt_set_after_stride _ _ _ _ _ Ht Hadj). simpl.
    destruct (negb (adjusted =? conf_width s) || negb (ht =? conf_height s)) eqn:E6.
    + destruct (negb (Z.rem adjusted 8 =? 0) || negb (Z.rem ht 8 =? 0)) eqn:E7.
      * simpl. split; [reflexivity|]. split; [reflexivity|]. split; [auto|].
        intros Ha Hh. rewrite Ha, Hh in E7. discriminate E7.
      * apply orb_false_iff in E7. destruct E7 as [E7 E8].
        apply negb_false_iff, Z.eqb_eq in E7, E8.
        destruct (s_fmt dev fmt =? -1); simpl;
          (split; [reflexivity|]; split; [reflexivity|]; split; [|auto]);
          intros [H | H]; congruence.
    + apply orb_false_iff in E6. destruct E6 as [E6 E7].
      apply negb_false_iff, Z.eqb_eq in E6, E7.
      destruct (s_fmt dev fmt =? -1); simpl;
        (split; [reflexivity|]; split; [reflexivity|]; split; [|auto]);
        intros [H | H]; congruence.
  - intros Hnz Hlt. specialize (Hlow Hnz Hlt).
    subst r. unfold v4l2_pixfmt_set. rewrite Ht. simpl. rewrite Hlow. simpl. auto.
  - intros Hcase. specialize (Hsame Hcase).
    subst r. rewrite (pixfmt_set_after_stride _ _ _ _ _ Ht Hsame). simpl.
    destruct (_ || _); [destruct (_ || _)|]; simpl;
      try destruct (s_fmt dev fmt =? -1); reflexivity.
Qed.

(** C6, as stated, fails: a stride of 320 under a width of 640 is nonzero
    and not a multiple of the width, yet no width is committed and the
    format is refused although 640 and 480 are multiples of 8. *)
Lemma pixfmt_set_refuses_stride_below_width :
  let r := v4l2_pixfmt_set (stride_camera 320) (initial 640 480 [])
             V4L2_PIX_FMT_YUV420 in
  320 <> 0 /\ Z.rem 320 640 <> 0 /\
  Z.rem 640 8 = 0 /\ Z.rem 480 8 = 0 /\
  fst r = Some (-1) /\ commits (snd r) = [] /\ width (snd r) = 640.
Proof.
  vm_compute. repeat split; discriminate.
Qed.

Lemma pixfmt_set_stride_adjustment_witness :
  let r := v4l2_pixfmt_set (stride_camera 1296) (initial 640 480 [])
             V4L2_PIX_FMT_YUV420 in
  width (snd r) = 648 /\ conf_width (snd r) = 648 /\ fst r = Some 0.
Proof.
  pose proof (pixfmt_set_stride_adjustment (stride_camera 1296)
                (initial 640 480 []) V4L2_PIX_FMT_YUV420 0
                (mk_pix 640 480 V4L2_PIX_FMT_YUV420 1296)
                (conj eq_refl eq_refl) eq_refl ltac:(lia) eq_refl eq_refl)
    as [H _].
  specialize (H eq_refl ltac:(vm_compute; lia)).
  destruct H as (Hw & _ & _ & Hc).
  specialize (Hc eq_refl eq_refl).
  destruct Hc as (_ & Hcw & _ & Hr).
  exact (conj Hw (conj Hcw Hr)).
Defined.

(** *** What a successful negotiation leaves *)

Lemma pixfmt_try_success dev s p s1 :
  v4l2_pixfmt_try dev s p = (0, s1) ->
  pix_pixelformat (dst_fmt s1) = p /\ commits s1 = commits s /\
  conf_width s1 = conf_width s /\ conf_height s1 = conf_height s.
Proof.
  unfold v4l2_pixfmt_try. destruct (try_fmt dev _) as [retcd fmt].
  destruct (retcd =? -1); [discriminate|]. cbn [orb].
  destruct (Z.eqb_spec (pix_pixelformat fmt) p); [|discriminate].
  intros [= <-]. auto.
Qed.

Lemma pixfmt_adj_success s s' :
  v4l2_pixfmt_adj s = (0, s') ->
  conf_width s' = width s' /\ conf_height s' = height s' /\
  dst_fmt s' = dst_fmt s /\ commits s' = commits s /\
  pixfmt_src s' = pixfmt_src s.
Proof.
  unfold v4l2_pixfmt_adj.
  destruct (negb (width s =? conf_width s) || negb (height s =? conf_height s))
    eqn:E.
  - destruct (negb (Z.rem (width s) 8 =? 0) || negb (Z.rem (height s) 8 =? 0));
      [discriminate|].
    intros [= <-]. auto.
  - intros [= <-]. apply orb_false_iff in E. destruct E as [Ew Eh].
    apply negb_false_iff, Z.eqb_eq in Ew, Eh. auto.
Qed.

Lemma pixfmt_set_success dev s p s' :
  v4l2_pixfmt_set dev s p = (Some 0, s') ->
  pixfmt_src s' = p /\ pix_pixelformat (dst_fmt s') = p /\
  commits s' = commits s ++ [dst_fmt s'] /\ s_fmt dev (dst_fmt s') <> -1 /\
  conf_width s' = width s' /\ conf_height s' = height s'.
Proof.
  unfold v4l2_pixfmt_set.
  destruct (v4l2_pixfmt_try dev s p) as [r1 s1] eqn:Et.
  destruct (Z.eqb_spec r1 (-1)); [discriminate|].
  assert (Hr1 : r1 = 0).
  { unfold v4l2_pixfmt_try in Et. destruct (try_fmt dev _).
    destruct (_ || _); inversion Et; congruence. }
  subst r1. destruct (pixfmt_try_success _ _ _ _ Et) as (Hp & Hc & _).
  pose proof (pixfmt_stride_state s1) as Hs.
  destruct (v4l2_pixfmt_stride s1) as [[r2|] s2]; [|discriminate].
  cbn [snd] in Hs. destruct Hs as (_ & _ & _ & Hc2 & Hd2).
  destruct (r2 =? -1); [discriminate|].
  destruct (v4l2_pixfmt_adj s2) as [r3 s3] eqn:Ea.
  destruct (Z.eqb_spec r3 (-1)); [discriminate|].
  assert (Hr3 : r3 = 0).
  { unfold v4l2_pixfmt_adj in Ea.
    destruct (_ || _); [destruct (_ || _)|]; inversion Ea; congruence. }
  subst r3. destruct (pixfmt_adj_success _ _ Ea) as (Hw & Hh & Hd3 & Hc3 & _).
  cbn [set_committed dst_fmt].
  destruct (Z.eqb_spec (s_fmt dev (dst_fmt s3)) (-1)); [discriminate|].
  intros [= <-]. cbn. rewrite Hc3, Hc2, Hc, Hd3, Hd2.
  rewrite Hd3, Hd2 in *. repeat split; auto.
Qed.

Lemma selectable_not_h264 f : selectable f = true -> f <> V4L2_PIX_FMT_H264.
Proof.
  unfold selectable. intros H. apply existsb_exists in H.
  destruct H as (indx & _ & H). apply andb_true_iff in H.
  destruct H as [Hf Hn]. apply Z.eqb_eq in Hf. apply negb_true_iff in Hn.
  apply Z.eqb_neq in Hn. congruence.
Qed.

Lemma pixfmt_fallback_success dev s s' :
  pixfmt_fallback dev s = (Some 0, s') ->
  (exists indx, 0 <= indx < V4L2_PALETTE_COUNT_MAX /\
                v4l2_pixfmt_set dev s (v4l2id indx) = (Some 0, s')).
Proof.
  unfold pixfmt_fallback.
  pose proof (palette_scan_spec (enum_fmt dev)) as Hscan.
  destruct (palette_scan (enum_fmt dev) >=? 0) eqn:Ege; [|discriminate].
  destruct (v4l2_pixfmt_set dev s _) as [[r|] s1] eqn:Es; [|discriminate].
  destruct (r >=? 0) eqn:Er; [|discriminate].
  intros [= <-].
  assert (Hr : r = 0).
  { pose proof (pixfmt_set_ret dev s (v4l2id (palette_scan (enum_fmt dev)))) as H.
    rewrite Es in H. cbn [fst] in H. destruct H as [-> | ->];
      [reflexivity | discriminate]. }
  subst r.
  destruct (last_selectable (enum_fmt dev)) as [f|] eqn:El.
  - destruct Hscan as [Hrange Hid].
    exists (palette_scan (enum_fmt dev)). split; [|exact Es].
    unfold last_selectable in El. apply find_some in El. destruct El as [_ Hsel].
    apply selectable_not_h264 in Hsel.
    assert (palette_scan (enum_fmt dev) <> 21)
      by (intros E21; rewrite E21 in Hid; now apply Hsel).
    unfold V4L2_PALETTE_COUNT_MAX in *. lia.
  - rewrite Hscan in Ege. discriminate.
Qed.

Lemma catalog_conversion indx mjpeg_retcd :
  0 <= indx < V4L2_PALETTE_COUNT_MAX ->
  (snd (v4l2_pix_change mjpeg_retcd (v4l2id indx)) = [] <->
   In (v4l2id indx) unconverted) /\
  (In (v4l2id indx) unconverted ->
   fst (v4l2_pix_change mjpeg_retcd (v4l2id indx)) = -1).
Proof.
  intros H. unfold V4L2_PALETTE_COUNT_MAX in H.
  assert (Hn : exists n, (n < 21)%nat /\ indx = Z.of_nat n)
    by (exists (Z.to_nat indx); lia).
  destruct Hn as (n & Hn & ->). clear H.
  do 21 (destruct n as [|n];
         [vm_compute; split; [split|]; intros H;
          try discriminate H; try reflexivity; try tauto;
          repeat (destruct H as [H | H]; try discriminate H); contradiction|]).
  lia.
Qed.

Section NegotiationSuccess.
Variable mystreq : string -> string -> bool.

Lemma palette_param_not_h264 params :
  palette_param mystreq params <> V4L2_PALETTE_COUNT_MAX.
Proof.
  unfold palette_param, V4L2_PALETTE_COUNT_MAX.
  match goal with
  | |- context [if ?x =? 21 then _ else _] => destruct (Z.eqb_spec x 21)
  end; [discriminate | assumption].
Qed.

Lemma pixfmt_select_success_set dev s s' :
  v4l2_pixfmt_select mystreq dev s = (Some 0, s') ->
  exists s0 indx,
    mod8_conf s0 /\ 0 <= indx < V4L2_PALETTE_COUNT_MAX /\
    v4l2_pixfmt_set dev s0 (v4l2id indx) = (Some 0, s').
Proof.
  rewrite pixfmt_select_eq. cbv zeta.
  set (s1 := set_conf s _ _).
  assert (H1 : mod8_conf s1) by (split; apply rem8_adjust).
  pose proof (palette_param_not_h264 (params_array s)) as H21.
  set (ip := palette_param mystreq (params_array s)) in *.
  destruct ((ip >=? 0) && (ip <=? V4L2_PALETTE_COUNT_MAX)) eqn:Erange.
  - pose proof (pixfmt_set_state dev s1 (v4l2id ip)) as [_ Hm].
    pose proof (pixfmt_set_ret dev s1 (v4l2id ip)) as Hret.
    destruct (v4l2_pixfmt_set dev s1 (v4l2id ip)) as [[r|] s2] eqn:Es;
      [|discriminate].
    cbn [fst snd] in Hret, Hm.
    destruct Hret as [-> | ->]; cbn [Z.geb Z.compare].
    + intros [= <-]. exists s1, ip. split; [exact H1|]. split; [|exact Es].
      apply andb_true_iff in Erange. destruct Erange as [Hlo Hhi].
      apply Z.geb_le in Hlo. apply Z.leb_le in Hhi. lia.
    + intros Hf. apply pixfmt_fallback_success in Hf.
      destruct Hf as (indx & Hi & Hs). exists s2, indx. auto.
  - intros Hf. apply pixfmt_fallback_success in Hf.
    destruct Hf as (indx & Hi & Hs). exists s1, indx. auto.
Qed.

(** When [v4l2_pixfmt_select] succeeds, the source format recorded is a
    catalog format other than H264 and is the one the driver answered and
    was last handed with [VIDIOC_S_FMT], which it accepted; the configured
    size is the size recorded for the device, and both dimensions are
    multiples of 8. *)
Theorem pixfmt_select_success dev s s' :
  v4l2_pixfmt_select mystreq dev s = (Some 0, s') ->
  (exists indx, 0 <= indx < V4L2_PALETTE_COUNT_MAX /\
                pixfmt_src s' = v4l2id indx) /\
  pixfmt_src s' <> V4L2_PIX_FMT_H264 /\
  pix_pixelformat (dst_fmt s') = pixfmt_src s' /\
  last (commits s') (dst_fmt s) = dst_fmt s' /\
  s_fmt dev (dst_fmt s') <> -1 /\
  conf_width s' = width s' /\ conf_height s' = height s' /\
  mod8_conf s'.
Proof.
  intros H. apply pixfmt_select_success_set in H.
  destruct H as (s0 & indx & Hm & Hi & Hs).
  pose proof (pixfmt_set_state dev s0 (v4l2id indx)) as [_ Hm'].
  rewrite Hs in Hm'. cbn [snd] in Hm'.
  destruct (pixfmt_set_success _ _ _ _ Hs) as (Hp & Hd & Hc & Hf & Hw & Hh).
  split; [exists indx; auto|].
  split.
  { rewrite Hp. unfold V4L2_PALETTE_COUNT_MAX in Hi.
    assert (Hn : exists n, (n < 21)%nat /\ indx = Z.of_nat n)
      by (exists (Z.to_nat indx); lia).
    destruct Hn as (n & Hn & ->).
    do 21 (destruct n as [|n]; [vm_compute; discriminate|]). lia. }
  split; [congruence|].
  split; [rewrite Hc; apply last_last|].
  auto.
Qed.

(** A negotiated format may be one the capture path cannot convert: after
    a successful negotiation [v4l2_pix_change] calls no converter exactly
    when the source format is PAC207, SPCA501, SPCA505 or SPCA508, and it
    then returns -1 for every frame. *)
Theorem negotiated_format_conversion dev s s' mjpeg_retcd :
  v4l2_pixfmt_select mystreq dev s = (Some 0, s') ->
  (snd (v4l2_pix_change mjpeg_retcd (pixfmt_src s')) = [] <->
   In (pixfmt_src s') unconverted) /\
  (In (pixfmt_src s') unconverted ->
   fst (v4l2_pix_change mjpeg_retcd (pixfmt_src s')) = -1).
Proof.
  intros H. apply pixfmt_select_success_set in H.
  destruct H as (s0 & indx & _ & Hi & Hs).
  destruct (pixfmt_set_success _ _ _ _ Hs) as (Hp & _).
  rewrite Hp. now apply catalog_conversion.
Qed.

End NegotiationSuccess.

Lemma pixfmt_select_success_witness :
  let s' := snd (v4l2_pixfmt_select streq yuyv_grey_camera
                   (initial 640 480 [mk_param "palette" "15"])) in
  pixfmt_src s' = V4L2_PIX_FMT_YUYV /\ mod8_conf s'.
Proof.
  intros s'.
  destruct (pixfmt_select_success streq yuyv_grey_camera
              (initial 640 480 [mk_param "palette" "15"]) s' eq_refl)
    as (_ & _ & _ & _ & _ & _ & _ & Hm).
  split; [reflexivity | exact Hm].
Defined.

Lemma negotiated_format_conversion_witness :
  let s' := snd (v4l2_pixfmt_select streq pac207_camera (initial 640 480 [])) in
  fst (v4l2_pix_change 0 (pixfmt_src s')) = -1.
Proof.
  intros s'.
  apply (proj2 (negotiated_format_conversion streq pac207_camera
                  (initial 640 480 []) s' 0 eq_refl)).
  left. reflexivity.
Defined.

End PixfmtFacts.

(** ** Device registry and ownership scheduler *)

Module RegistryFacts.
Import Registry.

Section LifecycleFacts.
Variable mystreq : string -> string -> bool.
Variable vid_parms_parse : context -> context.
Variable sys_open : string -> Z.
Variable negotiate : context -> string -> Z -> Z * negotiated.

Local Abbreviation start_existing := (start_existing mystreq vid_parms_parse).
Local Abbreviation start_new := (start_new vid_parms_parse sys_open negotiate).
Local Abbreviation v4l2_start :=
  (v4l2_start mystreq vid_parms_parse sys_open negotiate).

Lemma imgs_set_path cnt curdev :
  fst (v4l2_imgs_set cnt curdev) = 0 /\
  conf_video_device (snd (v4l2_imgs_set cnt curdev)) = conf_video_device cnt.
Proof. split; reflexivity. Qed.

Lemma start_existing_found cnt pre dev post :
  Forall (fun d => mystreq (conf_video_device cnt) (video_device d) = false) pre ->
  mystreq (conf_video_device cnt) (video_device dev) = true ->
  exists cnt',
    start_existing cnt (pre ++ dev :: post) =
    Some (fd_device dev, cnt',
          pre ++ set_usage_count dev (usage_count dev + 1) :: post).
Proof.
  intros Hpre Hdev. induction Hpre as [|d pre Hd _ IH]; simpl.
  - rewrite Hdev. eexists. reflexivity.
  - rewrite Hd. destruct IH as [cnt' ->]. eexists. reflexivity.
Qed.

Lemma start_new_registers cnt st :
  let '(retcd, _, st') := start_new cnt st in
  0 <= retcd ->
  exists dev,
    video_devices st' = dev :: video_devices st /\
    fd_device dev = retcd /\ usage_count dev = 1 /\ owner dev = -1 /\
    mutex dev = None /\
    video_device dev = conf_video_device (vid_parms_parse (v4l2_vdev_init cnt)).
Proof.
  unfold Registry.start_new.
  set (cnt1 := vid_parms_parse (v4l2_vdev_init cnt)).
  destruct (sys_open (conf_video_device cnt1) >? 0) eqn:Efd; [|intros; lia].
  destruct (negotiate cnt1 (conf_video_device cnt1)
              (sys_open (conf_video_device cnt1))) as [retcd n].
  destruct (retcd =? 0) eqn:E0; simpl.
  - intros _. eexists. repeat split.
  - destruct (retcd <? 0) eqn:E1.
    + apply Z.ltb_lt in E1. intros; lia.
    + intros _. eexists. repeat split.
Qed.

Lemma cleanup_list_found cnt pre dev post :
  Forall (fun d => fd_device d <> cnt_video_dev cnt) pre ->
  fd_device dev = cnt_video_dev cnt ->
  cleanup_list cnt (pre ++ dev :: post) =
  Some (if usage_count dev =? 1
        then (pre ++ post,
              v4l2_device_close dev ++ v4l2_device_cleanup dev)
        else if owner dev =? threadnr cnt
        then (pre ++ set_ownership (set_usage_count dev (usage_count dev - 1))
                       (-1) 0 None :: post, [])
        else (pre ++ set_usage_count dev (usage_count dev - 1) :: post, [])).
Proof.
  intros Hpre Hdev. induction Hpre as [|d pre Hd _ IH]; simpl.
  - apply Z.eqb_eq in Hdev. rewrite Hdev.
    destruct (usage_count dev =? 1) eqn:E1.
    + apply Z.eqb_eq in E1. rewrite E1. reflexivity.
    + assert (E0 : (usage_count dev - 1 =? 0) = false).
      { apply Z.eqb_neq. apply Z.eqb_neq in E1. lia. }
      rewrite E0. destruct (owner dev =? threadnr cnt); reflexivity.
  - apply Z.eqb_neq in Hd. rewrite Hd, IH.
    destruct (usage_count dev =? 1); [reflexivity|].
    destruct (owner dev =? threadnr cnt); reflexivity.
Qed.

(** C3: a path not in the registry is opened with one user; opening a path
    that is in the registry returns the descriptor of its device, counts
    one more user and asks nothing of the hardware; a close counts one user
    less, and stream-off, unmapping, release of the controls and removal
    from the registry happen when, and only when, no user is left. *)
Theorem registry_counts_users cnt st :
  (Forall (fun d => mystreq (conf_video_device cnt) (video_device d) = false)
     (video_devices st) ->
   let '(retcd, _, st') := v4l2_start cnt st in
   0 <= retcd ->
   exists dev', video_devices st' = dev' :: video_devices st /\
                fd_device dev' = retcd /\ usage_count dev' = 1) /\
  (forall pre dev post,
   video_devices st = pre ++ dev :: post ->
   Forall (fun d => mystreq (conf_video_device cnt) (video_device d) = false)
     pre ->
   mystreq (conf_video_device cnt) (video_device dev) = true ->
   let '(retcd, _, st') := v4l2_start cnt st in
   retcd = fd_device dev /\
   hw_log st' = hw_log st /\
   video_devices st' =
     pre ++ set_usage_count dev (usage_count dev + 1) :: post) /\
  (forall pre dev post,
   video_devices st = pre ++ dev :: post ->
   Forall (fun d => fd_device d <> cnt_video_dev cnt) pre ->
   fd_device dev = cnt_video_dev cnt ->
   let st' := snd (v4l2_cleanup cnt st) in
   if usage_count dev =? 1 then
     video_devices st' = pre ++ post /\
     hw_log st' =
       hw_log st ++
       Ev_streamoff (fd_device dev) ::
       (if negb (fd_device dev =? -1) then [Ev_close (fd_device dev)] else []) ++
       (if buffers dev
        then map (Ev_munmap (fd_device dev)) (seq 0 (Z.to_nat (req_count dev)))
        else []) ++
       (if negb (devctrl_count dev =? 0)
        then [Ev_free_controls (fd_device dev) (devctrl_count dev)] else [])
   else
     hw_log st' = hw_log st /\
     exists dev', video_devices st' = pre ++ dev' :: post /\
                  usage_count dev' = usage_count dev - 1 /\
                  fd_device dev' = fd_device dev).
Proof.
  split; [|split].
  - intros Hnone.
    assert (Hex : start_existing cnt (video_devices st) = None).
    { induction Hnone as [|d l Hd _ IH]; simpl; [reflexivity|].
      now rewrite Hd, IH. }
    unfold Registry.v4l2_start. rewrite Hex.
    pose proof (start_new_registers cnt st) as Hnew.
    destruct (start_new cnt st) as [[retcd cnt'] st'].
    intros Hret. destruct (Hnew Hret) as (dev' & H1 & H2 & H3 & _).
    exists dev'. auto.
  - intros pre dev post Hst Hpre Hdev.
    destruct (start_existing_found cnt pre dev post Hpre Hdev) as [cnt' Hex].
    unfold Registry.v4l2_start. rewrite Hst, Hex. simpl. auto.
  - intros pre dev post Hst Hpre Hdev. unfold v4l2_cleanup.
    rewrite Hst, (cleanup_list_found cnt pre dev post Hpre Hdev).
    destruct (usage_count dev =? 1).
    + simpl. split; reflexivity.
    + destruct (owner dev =? threadnr cnt); simpl;
        (split; [now rewrite app_nil_r|]); eexists; repeat split.
Qed.

End LifecycleFacts.

Lemma registry_counts_users_witness :
  let dev := mk_dev video0 5 1 (-1) 0 None 640 480 true 4 3 in
  let st := mk_state [dev] [Ev_open video0 5; Ev_negotiate 5] in
  let '(retcd, _, st') :=
    v4l2_start streq (fun c => c) open_video0 negotiate_video0
      (thread_cnt 2 1) st in
  retcd = 5 /\ hw_log st' = hw_log st /\
  video_devices st' = [set_usage_count dev 2].
Proof.
  exact (proj1 (proj2 (registry_counts_users streq (fun c => c) open_video0
                         negotiate_video0 (thread_cnt 2 1)
                         (mk_state [mk_dev video0 5 1 (-1) 0 None 640 480 true 4 3]
                            [Ev_open video0 5; Ev_negotiate 5])))
           [] (mk_dev video0 5 1 (-1) 0 None 640 480 true 4 3) []
           eq_refl (Forall_nil _) eq_refl).
Defined.

(** The whole life of a camera shared by two threads: opened twice, it has
    one descriptor and two users; closed once, it stays open with one user
    and nothing is released; closed again, it is released and leaves the
    registry. *)
Example video0_opened_twice_closed_twice :
  let start := v4l2_start streq (fun c => c) open_video0 negotiate_video0 in
  let '(fd1, c1, s1) := start (thread_cnt 1 1) (mk_state [] []) in
  let '(fd2, c2, s2) := start (thread_cnt 2 1) s1 in
  let s3 := snd (v4l2_cleanup (set_cnt_video_dev c1 fd1) s2) in
  let s4 := snd (v4l2_cleanup (set_cnt_video_dev c2 fd2) s3) in
  fd1 = 5 /\ fd2 = 5 /\
  map usage_count (video_devices s2) = [2] /\
  map usage_count (video_devices s3) = [1] /\
  filter is_release (hw_log s3) = [] /\
  video_devices s4 = [] /\
  filter is_release (hw_log s4) =
    [Ev_streamoff 5; Ev_close 5; Ev_munmap 5 0; Ev_munmap 5 1; Ev_munmap 5 2;
     Ev_munmap 5 3; Ev_free_controls 5 3].
Proof. vm_compute. repeat split. Qed.

(** *** The ownership scheduler *)

Lemma next_dev_fd cnt retcd dev dev' evs :
  next_dev cnt retcd dev = Some (dev', evs) -> fd_device dev' = fd_device dev.
Proof.
  unfold next_dev.
  destruct (negb (owner dev =? threadnr cnt)); [destruct (mutex dev)|];
    try discriminate; simpl;
    destruct (_ <=? 0); intros [= <- _]; reflexivity.
Qed.

(** A thread that does not own the device and finds it free takes it with
    its quota, captures, and keeps it unless the quota is used up. *)
Lemma next_dev_unowned cnt retcd dev :
  unowned dev -> 0 <= threadnr cnt -> 1 <= roundrobin_frames cnt ->
  exists dev',
    next_dev cnt retcd dev =
      Some (dev', [Ev_capture (fd_device dev) (threadnr cnt)]) /\
    if roundrobin_frames cnt =? 1 then unowned dev'
    else owned_by (threadnr cnt) (roundrobin_frames cnt - 1) dev'.
Proof.
  intros (Ho & Hf & Hm) Ht Hq. unfold next_dev. rewrite Ho, Hm.
  assert (E : (-1 =? threadnr cnt) = false) by (apply Z.eqb_neq; lia).
  rewrite E. simpl.
  destruct (roundrobin_frames cnt =? 1) eqn:E1.
  - apply Z.eqb_eq in E1. rewrite E1. simpl.
    eexists. split; [reflexivity|]. repeat split.
  - apply Z.eqb_neq in E1.
    assert (E2 : (roundrobin_frames cnt - 1 <=? 0) = false)
      by (apply Z.leb_gt; lia).
    rewrite E2. eexists. split; [reflexivity|]. repeat split.
Qed.

(** The owner captures; its quota goes down by one, and the device is
    released when, and only when, the quota reaches zero. *)
Lemma next_dev_owner cnt retcd dev f :
  owned_by (threadnr cnt) f dev -> 1 <= f ->
  exists dev',
    next_dev cnt retcd dev =
      Some (dev', [Ev_capture (fd_device dev) (threadnr cnt)]) /\
    if f =? 1 then unowned dev' else owned_by (threadnr cnt) (f - 1) dev'.
Proof.
  intros (Ho & Hf & Hm) Hq. unfold next_dev. rewrite Ho, Z.eqb_refl. simpl.
  rewrite Hf, Ho.
  destruct (f =? 1) eqn:E1.
  - apply Z.eqb_eq in E1. rewrite E1. simpl.
    eexists. split; [reflexivity|]. repeat split.
  - apply Z.eqb_neq in E1.
    assert (E2 : (f - 1 <=? 0) = false) by (apply Z.leb_gt; lia).
    rewrite E2. eexists. split; [reflexivity|]. repeat split. exact Hm.
Qed.

(** Any other thread waits. *)
Lemma next_dev_other cnt retcd dev t f :
  owned_by t f dev -> t <> threadnr cnt -> next_dev cnt retcd dev = None.
Proof.
  intros (Ho & _ & Hm) Ht. unfold next_dev. rewrite Ho, Hm.
  apply Z.eqb_neq in Ht. now rewrite Ht.
Qed.

Lemma next_list_lookup cnt retcd devs dev :
  find (fun d => fd_device d =? cnt_video_dev cnt) devs = Some dev ->
  match next_dev cnt retcd dev with
  | None => next_list cnt retcd devs = Some None
  | Some (dev', evs) =>
      exists devs',
        next_list cnt retcd devs = Some (Some (devs', evs)) /\
        find (fun d => fd_device d =? cnt_video_dev cnt) devs' = Some dev'
  end.
Proof.
  induction devs as [|d devs IH]; simpl; [discriminate|].
  destruct (fd_device d =? cnt_video_dev cnt) eqn:E.
  - intros [= ->].
    destruct (next_dev cnt retcd dev) as [[dev' evs]|] eqn:En; [|reflexivity].
    eexists. split; [reflexivity|]. simpl.
    now rewrite (next_dev_fd _ _ _ _ _ En), E.
  - intros Hf. specialize (IH Hf).
    destruct (next_dev cnt retcd dev) as [[dev' evs]|].
    + destruct IH as (devs' & -> & Hf'). eexists. split; [reflexivity|].
      simpl. now rewrite E.
    + now rewrite IH.
Qed.

Lemma v4l2_next_lookup cnt retcd st dev :
  lookup (cnt_video_dev cnt) st = Some dev ->
  match next_dev cnt retcd dev with
  | None => v4l2_next cnt retcd st = Next_waits
  | Some (dev', evs) =>
      exists st',
        v4l2_next cnt retcd st = Next_returns retcd st' /\
        lookup (cnt_video_dev cnt) st' = Some dev' /\
        hw_log st' = hw_log st ++ evs
  end.
Proof.
  intros Hl. pose proof (next_list_lookup cnt retcd _ _ Hl) as H.
  unfold v4l2_next.
  destruct (next_dev cnt retcd dev) as [[dev' evs]|].
  - destruct H as (devs' & -> & Hf). eexists. repeat split. exact Hf.
  - now rewrite H.
Qed.

Lemma lookup_fd fd st dev : lookup fd st = Some dev -> fd_device dev = fd.
Proof.
  unfold lookup. intros H. apply find_some in H. now apply Z.eqb_eq.
Qed.

Lemma capture_owners_app fd l1 l2 :
  capture_owners fd (l1 ++ l2) = capture_owners fd l1 ++ capture_owners fd l2.
Proof. unfold capture_owners. apply flat_map_app. Qed.

(** At a quota of one frame every call finds the device free and leaves it
    free: the frames are captured under the callers, in the order of the
    calls. *)
Lemma next_calls_quota_one fd calls :
  Forall (fun c => cnt_video_dev (fst c) = fd /\ 0 <= threadnr (fst c) /\
                   roundrobin_frames (fst c) = 1) calls ->
  forall st dev,
  lookup fd st = Some dev -> unowned dev ->
  exists st' dev',
    next_calls calls st = Some st' /\
    lookup fd st' = Some dev' /\ unowned dev' /\
    capture_owners fd (hw_log st') =
      capture_owners fd (hw_log st) ++ map (fun c => threadnr (fst c)) calls.
Proof.
  induction 1 as [|[cnt retcd] calls (Hfd & Ht & Hq) _ IH]; intros st dev Hl Hu.
  - exists st, dev. simpl. rewrite app_nil_r. auto.
  - simpl in Hfd, Ht, Hq. subst fd.
    destruct (next_dev_unowned cnt retcd dev Hu Ht ltac:(lia)) as (dev1 & Hn & Hu1).
    rewrite Hq in Hu1. simpl in Hu1.
    pose proof (v4l2_next_lookup cnt retcd st dev Hl) as Hv. rewrite Hn in Hv.
    destruct Hv as (st1 & Hv & Hl1 & Hlog).
    destruct (IH st1 dev1 Hl1 Hu1) as (st' & dev' & Hc & Hl' & Hu' & Ho).
    exists st', dev'. simpl. rewrite Hv.
    split; [exact Hc|]. split; [exact Hl'|]. split; [exact Hu'|].
    rewrite Ho, Hlog, capture_owners_app. simpl.
    rewrite (lookup_fd _ _ _ Hl), Z.eqb_refl. simpl.
    now rewrite <- app_assoc.
Qed.

Lemma capture_owners_one fd t :
  capture_owners fd [Ev_capture fd t] = [t].
Proof. unfold capture_owners. simpl. now rewrite Z.eqb_refl. Qed.

(** The owner's next n calls, n within the frames it has left. *)
Lemma next_calls_owner cnt retcd n :
  forall st dev f,
  lookup (cnt_video_dev cnt) st = Some dev ->
  owned_by (threadnr cnt) f dev -> 1 <= f -> Z.of_nat n <= f ->
  exists st' dev',
    next_calls (repeat (cnt, retcd) n) st = Some st' /\
    lookup (cnt_video_dev cnt) st' = Some dev' /\
    (if Z.of_nat n =? f then unowned dev'
     else owned_by (threadnr cnt) (f - Z.of_nat n) dev') /\
    capture_owners (cnt_video_dev cnt) (hw_log st') =
      capture_owners (cnt_video_dev cnt) (hw_log st) ++ repeat (threadnr cnt) n.
Proof.
  induction n as [|n IH]; intros st dev f Hl Ho Hf Hn.
  - exists st, dev.
    assert (E : (0 =? f) = false) by (apply Z.eqb_neq; lia).
    change (Z.of_nat 0) with 0. rewrite E, Z.sub_0_r.
    cbn [repeat next_calls]. rewrite app_nil_r. auto.
  - destruct (next_dev_owner cnt retcd dev f Ho Hf) as (dev1 & Hn1 & Hs1).
    pose proof (v4l2_next_lookup cnt retcd st dev Hl) as Hv. rewrite Hn1 in Hv.
    destruct Hv as (st1 & Hv & Hl1 & Hlog).
    cbn [repeat next_calls]. rewrite Hv.
    destruct (f =? 1) eqn:E1.
    + apply Z.eqb_eq in E1. assert (n = O) by lia. subst n f.
      exists st1, dev1. cbn [repeat next_calls].
      split; [reflexivity|]. split; [exact Hl1|]. split; [exact Hs1|].
      rewrite Hlog, capture_owners_app, (lookup_fd _ _ _ Hl).
      now rewrite capture_owners_one.
    + apply Z.eqb_neq in E1.
      destruct (IH st1 dev1 (f - 1) Hl1 Hs1 ltac:(lia) ltac:(lia))
        as (st' & dev' & Hc & Hl' & Hs' & Hcap).
      exists st', dev'.
      split; [exact Hc|]. split; [exact Hl'|]. split.
      * replace (Z.of_nat (S n) =? f) with (Z.of_nat n =? f - 1)
          by (destruct (Z.eqb_spec (Z.of_nat n) (f - 1));
              destruct (Z.eqb_spec (Z.of_nat (S n)) f); lia).
        replace (f - Z.of_nat (S n)) with (f - 1 - Z.of_nat n) by lia.
        exact Hs'.
      * rewrite Hcap, Hlog, capture_owners_app, (lookup_fd _ _ _ Hl).
        rewrite capture_owners_one, <- app_assoc. reflexivity.
Qed.

(** C2: a thread that does not own the device and finds it free becomes its
    owner with a quota of [roundrobin_frames]; every frame delivered takes
    one off the quota; the owner field is cleared and the mutex released
    when, and only when, the quota reaches zero; until then every other
    thread waits. At a quota of one the device is free after every call,
    so the frames are delivered under the callers in the order of their
    calls; at any quota q an owner delivers q frames and no more before the
    release. *)
Theorem next_round_robin cnt retcd st dev :
  lookup (cnt_video_dev cnt) st = Some dev ->
  0 <= threadnr cnt ->
  1 <= roundrobin_frames cnt ->
  let fd := cnt_video_dev cnt in
  let t := threadnr cnt in
  let q := roundrobin_frames cnt in
  (unowned dev ->
   exists st' dev',
     v4l2_next cnt retcd st = Next_returns retcd st' /\
     lookup fd st' = Some dev' /\
     hw_log st' = hw_log st ++ [Ev_capture fd t] /\
     if q =? 1 then unowned dev' else owned_by t (q - 1) dev') /\
  (forall f, 1 <= f -> owned_by t f dev ->
   exists st' dev',
     v4l2_next cnt retcd st = Next_returns retcd st' /\
     lookup fd st' = Some dev' /\
     hw_log st' = hw_log st ++ [Ev_capture fd t] /\
     if f =? 1 then unowned dev' else owned_by t (f - 1) dev') /\
  (forall t' f, t' <> t -> owned_by t' f dev ->
   v4l2_next cnt retcd st = Next_waits) /\
  (forall calls,
   unowned dev ->
   Forall (fun c => cnt_video_dev (fst c) = fd /\ 0 <= threadnr (fst c) /\
                    roundrobin_frames (fst c) = 1) calls ->
   exists st' dev',
     next_calls calls st = Some st' /\
     lookup fd st' = Some dev' /\ unowned dev' /\
     capture_owners fd (hw_log st') =
       capture_owners fd (hw_log st) ++ map (fun c => threadnr (fst c)) calls) /\
  (forall n,
   unowned dev -> (0 < n)%nat -> Z.of_nat n <= q ->
   exists st' dev',
     next_calls (repeat (cnt, retcd) n) st = Some st' /\
     lookup fd st' = Some dev' /\
     (if Z.of_nat n =? q then unowned dev'
      else owned_by t (q - Z.of_nat n) dev') /\
     capture_owners fd (hw_log st') =
       capture_owners fd (hw_log st) ++ repeat t n).
Proof.
  intros Hl Ht Hq fd t q.
  pose proof (lookup_fd _ _ _ Hl) as Hfd.
  split; [|split; [|split; [|split]]].
  - intros Hu.
    destruct (next_dev_unowned cnt retcd dev Hu Ht Hq) as (dev1 & Hn & Hs).
    pose proof (v4l2_next_lookup cnt retcd st dev Hl) as Hv. rewrite Hn in Hv.
    destruct Hv as (st1 & Hv & Hl1 & Hlog).
    exists st1, dev1. rewrite Hfd in Hlog. auto.
  - intros f Hf Ho.
    destruct (next_dev_owner cnt retcd dev f Ho Hf) as (dev1 & Hn & Hs).
    pose proof (v4l2_next_lookup cnt retcd st dev Hl) as Hv. rewrite Hn in Hv.
    destruct Hv as (st1 & Hv & Hl1 & Hlog).
    exists st1, dev1. rewrite Hfd in Hlog. auto.
  - intros t' f Ht' Ho.
    pose proof (v4l2_next_lookup cnt retcd st dev Hl) as Hv.
    now rewrite (next_dev_other cnt retcd dev t' f Ho Ht') in Hv.
  - intros calls Hu Hcalls.
    exact (next_calls_quota_one fd calls Hcalls st dev Hl Hu).
  - intros [|n] Hu Hpos Hn; [lia|].
    destruct (next_dev_unowned cnt retcd dev Hu Ht Hq) as (dev1 & Hn1 & Hs1).
    pose proof (v4l2_next_lookup cnt retcd st dev Hl) as Hv. rewrite Hn1 in Hv.
    destruct Hv as (st1 & Hv & Hl1 & Hlog).
    cbn [repeat next_calls]. rewrite Hv. fold q in Hs1.
    destruct (q =? 1) eqn:E1.
    + apply Z.eqb_eq in E1. assert (n = O) by lia. subst n.
      exists st1, dev1. cbn [repeat next_calls]. rewrite E1.
      split; [reflexivity|]. split; [exact Hl1|]. split; [exact Hs1|].
      rewrite Hlog, capture_owners_app, Hfd. now rewrite capture_owners_one.
    + apply Z.eqb_neq in E1.
      destruct (next_calls_owner cnt retcd n st1 dev1 (q - 1) Hl1 Hs1
                  ltac:(lia) ltac:(lia))
        as (st' & dev' & Hc & Hl' & Hs' & Hcap).
      exists st', dev'.
      split; [exact Hc|]. split; [exact Hl'|]. split.
      * replace (Z.of_nat (S n) =? q) with (Z.of_nat n =? q - 1)
          by (destruct (Z.eqb_spec (Z.of_nat n) (q - 1));
              destruct (Z.eqb_spec (Z.of_nat (S n)) q); lia).
        replace (q - Z.of_nat (S n)) with (q - 1 - Z.of_nat n) by lia.
        exact Hs'.
      * fold fd in Hcap. rewrite Hcap, Hlog, capture_owners_app, Hfd.
        rewrite capture_owners_one, <- app_assoc. reflexivity.
Qed.

Lemma next_round_robin_witness :
  let dev := mk_dev video0 5 2 (-1) 0 None 640 480 true 4 3 in
  let st := mk_state [dev] [] in
  let a := set_cnt_video_dev (thread_cnt 1 1) 5 in
  let b := set_cnt_video_dev (thread_cnt 2 1) 5 in
  exists st' dev',
    next_calls [(a, 0); (b, 0); (a, 0); (b, 0)] st = Some st' /\
    lookup 5 st' = Some dev' /\ unowned dev' /\
    capture_owners 5 (hw_log st') = [1; 2; 1; 2].
Proof.
  exact (proj1 (proj2 (proj2 (proj2
           (next_round_robin (set_cnt_video_dev (thread_cnt 1 1) 5) 0
              (mk_state [mk_dev video0 5 2 (-1) 0 None 640 480 true 4 3] [])
              (mk_dev video0 5 2 (-1) 0 None 640 480 true 4 3)
              eq_refl ltac:(simpl; lia) ltac:(simpl; lia)))))
           [(set_cnt_video_dev (thread_cnt 1 1) 5, 0);
            (set_cnt_video_dev (thread_cnt 2 1) 5, 0);
            (set_cnt_video_dev (thread_cnt 1 1) 5, 0);
            (set_cnt_video_dev (thread_cnt 2 1) 5, 0)]
           (conj eq_refl (conj eq_refl eq_refl))
           ltac:(repeat constructor; simpl; lia)).
Defined.

(** *** The registry as a whole *)

Lemma cleanup_list_well_formed cnt devs devs' evs :
  Forall (fun dev => 0 < fd_device dev /\ 1 <= usage_count dev) devs ->
  cleanup_list cnt devs = Some (devs', evs) ->
  Forall (fun dev => 0 < fd_device dev /\ 1 <= usage_count dev) devs'.
Proof.
  intros H. revert devs' evs.
  induction H as [|d devs [Hfd Hu] Hrest IH]; intros devs' evs; [discriminate|].
  cbn [cleanup_list].
  destruct (fd_device d =? cnt_video_dev cnt).
  - cbn [usage_count set_usage_count].
    destruct (Z.eqb_spec (usage_count d - 1) 0).
    + intros E; inversion E; subst. exact Hrest.
    + destruct (owner (set_usage_count d (usage_count d - 1)) =? threadnr cnt);
        intros E; inversion E; subst;
        (constructor; [cbn; lia | exact Hrest]).
  - destruct (cleanup_list cnt devs) as [[rest' evs']|]; [|discriminate].
    intros [= <- _]. constructor; [auto | now apply (IH rest' evs')].
Qed.

Lemma next_list_well_formed cnt retcd devs devs' evs :
  Forall (fun dev => 0 < fd_device dev /\ 1 <= usage_count dev) devs ->
  next_list cnt retcd devs = Some (Some (devs', evs)) ->
  Forall (fun dev => 0 < fd_device dev /\ 1 <= usage_count dev) devs'.
Proof.
  intros H. revert devs' evs.
  induction H as [|d devs [Hfd Hu] Hrest IH]; intros devs' evs; [discriminate|].
  cbn [next_list].
  destruct (fd_device d =? cnt_video_dev cnt).
  - destruct (next_dev cnt retcd d) as [[d' evs']|] eqn:En; [|discriminate].
    intros [= <- _]. constructor; [|exact Hrest].
    rewrite (next_dev_fd _ _ _ _ _ En). split; [exact Hfd|].
    unfold next_dev in En.
    destruct (negb (owner d =? threadnr cnt)); [destruct (mutex d)|];
      try discriminate; cbn in En;
      destruct (_ <=? 0); inversion En; subst; cbn; exact Hu.
  - destruct (next_list cnt retcd devs) as [[[rest' evs']|]|]; try discriminate.
    intros [= <- _]. constructor; [auto | now apply (IH rest' evs')].
Qed.

Lemma cleanup_list_unknown cnt devs :
  Forall (fun dev => fd_device dev <> cnt_video_dev cnt) devs ->
  cleanup_list cnt devs = None.
Proof.
  induction 1 as [|d devs Hd _ IH]; [reflexivity|].
  cbn [cleanup_list]. apply Z.eqb_neq in Hd. now rewrite Hd, IH.
Qed.

Lemma next_list_unknown cnt retcd devs :
  Forall (fun dev => fd_device dev <> cnt_video_dev cnt) devs ->
  next_list cnt retcd devs = None.
Proof.
  induction 1 as [|d devs Hd _ IH]; [reflexivity|].
  cbn [next_list]. apply Z.eqb_neq in Hd. now rewrite Hd, IH.
Qed.

Section RegistryAsAWhole.
Variable mystreq : string -> string -> bool.
Variable vid_parms_parse : context -> context.
Variable sys_open : string -> Z.
Variable negotiate : context -> string -> Z -> Z * negotiated.

Local Abbreviation start_existing := (start_existing mystreq vid_parms_parse).
Local Abbreviation start_new := (start_new vid_parms_parse sys_open negotiate).
Local Abbreviation v4l2_start :=
  (v4l2_start mystreq vid_parms_parse sys_open negotiate).

Lemma start_existing_well_formed cnt devs retcd cnt' devs' :
  Forall (fun dev => 0 < fd_device dev /\ 1 <= usage_count dev) devs ->
  start_existing cnt devs = Some (retcd, cnt', devs') ->
  0 < retcd /\
  Forall (fun dev => 0 < fd_device dev /\ 1 <= usage_count dev) devs'.
Proof.
  intros H. revert retcd cnt' devs'.
  induction H as [|d devs [Hfd Hu] Hrest IH]; intros retcd cnt' devs';
    [discriminate|].
  cbn [Registry.start_existing].
  destruct (mystreq (conf_video_device cnt) (video_device d)).
  - cbn. intros [= <- _ <-]. split; [exact Hfd|].
    constructor; [cbn; lia | exact Hrest].
  - destruct (start_existing cnt devs) as [[[r c] rest']|]; [|discriminate].
    intros [= <- _ <-]. destruct (IH r c rest' eq_refl) as [Hr Hf].
    split; [exact Hr|]. constructor; auto.
Qed.

(** Every operation keeps the registry well formed: each device in it has
    a positive descriptor and at least one user, after [v4l2_start], after
    [v4l2_cleanup] and after [v4l2_next]. *)
Theorem registry_stays_well_formed cnt st :
  well_formed st ->
  well_formed (snd (v4l2_start cnt st)) /\
  well_formed (snd (v4l2_cleanup cnt st)) /\
  forall retcd r st',
    v4l2_next cnt retcd st = Next_returns r st' -> well_formed st'.
Proof.
  unfold well_formed. intros H. split; [|split].
  - unfold Registry.v4l2_start.
    destruct (start_existing cnt (video_devices st)) as [[[r c] devs']|] eqn:E.
    + exact (proj2 (start_existing_well_formed _ _ _ _ _ H E)).
    + unfold Registry.start_new.
      destruct (sys_open _ >? 0) eqn:Efd; [|exact H].
      destruct (negotiate _ _ _) as [r n].
      destruct (if r =? 0 then _ else _) as [r' c'].
      destruct (r' <? 0); [exact H|].
      cbn. constructor; [|exact H]. cbn. apply Z.gtb_lt in Efd. lia.
  - unfold v4l2_cleanup.
    destruct (cleanup_list cnt (video_devices st)) as [[devs' evs]|] eqn:E;
      [|exact H].
    exact (cleanup_list_well_formed _ _ _ _ H E).
  - intros retcd r st'. unfold v4l2_next.
    destruct (next_list cnt retcd (video_devices st)) as [[[devs' evs]|]|] eqn:E;
      try discriminate.
    + intros [= _ <-]. exact (next_list_well_formed _ _ _ _ _ H E).
    + intros [= _ <-]. exact H.
Qed.

(** A start that fails leaves the list of devices as it was and releases
    [cnt->vdev]. The descriptor it opened is closed when it is positive;
    a descriptor 0 is taken for a failed open and is not closed. *)
Theorem start_failure_leaves_registry cnt st :
  well_formed st ->
  let '(retcd, cnt', st') := v4l2_start cnt st in
  retcd < 0 ->
  let path := conf_video_device (vid_parms_parse (v4l2_vdev_init cnt)) in
  let fd := sys_open path in
  video_devices st' = video_devices st /\
  vdev cnt' = false /\
  hw_log st' =
    hw_log st ++ Ev_open path fd ::
    (if fd >? 0 then [Ev_negotiate fd; Ev_close fd] else []).
Proof.
  intros H. unfold Registry.v4l2_start.
  destruct (start_existing cnt (video_devices st)) as [[[r c] devs']|] eqn:E.
  - intros Hneg.
    pose proof (proj1 (start_existing_well_formed _ _ _ _ _ H E)). lia.
  - unfold Registry.start_new.
    set (cnt1 := vid_parms_parse (v4l2_vdev_init cnt)).
    destruct (sys_open (conf_video_device cnt1) >? 0) eqn:Efd.
    + destruct (negotiate _ _ _) as [r n].
      destruct (Z.eqb_spec r 0) as [-> | Hr].
      * cbn. apply Z.gtb_lt in Efd.
        destruct (Z.ltb_spec (sys_open (conf_video_device cnt1)) 0); [lia|].
        intros Hneg. lia.
      * destruct (Z.ltb_spec r 0).
        -- intros _. cbn. rewrite <- !app_assoc. repeat split.
        -- intros Hneg. lia.
    + intros _. cbn. repeat split.
Qed.

(** Opening a camera that is not in the registry and closing it again
    gives the list of devices back, and the close stops the stream and
    closes the descriptor the open returned. *)
Theorem start_then_cleanup_restores cnt st :
  Forall (fun d => mystreq (conf_video_device cnt) (video_device d) = false)
    (video_devices st) ->
  let '(retcd, cnt', st') := v4l2_start cnt st in
  0 <= retcd ->
  let st'' := snd (v4l2_cleanup (set_cnt_video_dev cnt' retcd) st') in
  video_devices st'' = video_devices st /\
  exists evs,
    hw_log st'' = hw_log st' ++ Ev_streamoff retcd :: Ev_close retcd :: evs.
Proof.
  intros Hnone.
  assert (Hex : start_existing cnt (video_devices st) = None).
  { induction Hnone as [|d l Hd _ IH]; simpl; [reflexivity|].
    now rewrite Hd, IH. }
  unfold Registry.v4l2_start. rewrite Hex.
  pose proof (start_new_registers vid_parms_parse sys_open negotiate cnt st)
    as Hnew.
  assert (Hpos : 0 <= fst (fst (start_new cnt st)) ->
                 0 < fst (fst (start_new cnt st))).
  { unfold Registry.start_new.
    destruct (sys_open _ >? 0) eqn:Efd; [|cbn; lia].
    apply Z.gtb_lt in Efd.
    destruct (negotiate _ _ _) as [r n].
    destruct (if r =? 0 then _ else _) as [r' c'].
    destruct (Z.ltb_spec r' 0); cbn; lia. }
  destruct (start_new cnt st) as [[retcd cnt'] st'].
  intros Hret. cbn [fst] in Hpos. specialize (Hpos Hret).
  destruct (Hnew Hret) as (dev & Hdevs & Hfd & Hu & _).
  unfold v4l2_cleanup. rewrite Hdevs. cbn [cleanup_list].
  cbn [cnt_video_dev set_cnt_video_dev]. rewrite Hfd, Z.eqb_refl.
  cbn [usage_count set_usage_count]. rewrite Hu. cbn [Z.sub Z.add Z.eqb Z.opp Z.pos_sub].
  cbn [snd video_devices hw_log]. split; [reflexivity|].
  unfold v4l2_device_close. cbn [fd_device set_usage_count]. rewrite Hfd.
  destruct (Z.eqb_spec retcd (-1)); [lia|]. cbn [negb app].
  eexists. reflexivity.
Qed.

End RegistryAsAWhole.

(** A second [v4l2_cleanup] by the same thread is harmless: the first one
    set [cnt->video_dev] to -1, which is the descriptor of no device, so
    the second changes nothing and counts no user off; [v4l2_next] on that
    context returns -1. *)
Theorem cleanup_twice_is_harmless cnt st :
  well_formed st ->
  let '(cnt1, st1) := v4l2_cleanup cnt st in
  v4l2_cleanup cnt1 st1 = (cnt1, st1) /\
  forall retcd, v4l2_next cnt1 retcd st1 = Next_returns (-1) st1.
Proof.
  intros H.
  assert (H1 : well_formed (snd (v4l2_cleanup cnt st))).
  { unfold well_formed, v4l2_cleanup.
    destruct (cleanup_list cnt (video_devices st)) as [[devs' evs]|] eqn:E;
      [|exact H].
    exact (cleanup_list_well_formed _ _ _ _ H E). }
  assert (Hfd : cnt_video_dev (fst (v4l2_cleanup cnt st)) = -1).
  { unfold v4l2_cleanup. destruct (cleanup_list _ _) as [[? ?]|]; reflexivity. }
  assert (Hsame : v4l2_vdev_free (set_cnt_video_dev (fst (v4l2_cleanup cnt st)) (-1))
                  = fst (v4l2_cleanup cnt st)).
  { unfold v4l2_cleanup. destruct (cleanup_list _ _) as [[? ?]|]; reflexivity. }
  destruct (v4l2_cleanup cnt st) as [cnt1 st1]. cbn [fst snd] in *.
  assert (Hnone : Forall (fun dev => fd_device dev <> cnt_video_dev cnt1)
                    (video_devices st1)).
  { eapply Forall_impl; [|exact H1]. cbn. intros d [Hd _]. lia. }
  split.
  - unfold v4l2_cleanup. rewrite (cleanup_list_unknown _ _ Hnone).
    now rewrite Hsame.
  - intros retcd. unfold v4l2_next. now rewrite (next_list_unknown _ _ _ Hnone).
Qed.

(** A thread that leaves while it owns a camera others still use gives the
    ownership up: the next thread that asks for a frame does not wait. *)
Theorem owner_leaving_frees_the_device cnt cnt2 st pre dev post f retcd :
  video_devices st = pre ++ dev :: post ->
  Forall (fun d => fd_device d <> cnt_video_dev cnt) pre ->
  fd_device dev = cnt_video_dev cnt ->
  owned_by (threadnr cnt) f dev ->
  2 <= usage_count dev ->
  cnt_video_dev cnt2 = cnt_video_dev cnt ->
  0 <= threadnr cnt2 -> 1 <= roundrobin_frames cnt2 ->
  let st1 := snd (v4l2_cleanup cnt st) in
  exists dev1 st2,
    lookup (cnt_video_dev cnt) st1 = Some dev1 /\
    unowned dev1 /\ usage_count dev1 = usage_count dev - 1 /\
    v4l2_next cnt2 retcd st1 = Next_returns retcd st2 /\
    hw_log st2 = hw_log st ++ [Ev_capture (fd_device dev) (threadnr cnt2)].
Proof.
  intros Hst Hpre Hfd (Ho & Hf & Hm) Hu Hfd2 Ht2 Hq2 st1.
  subst st1. unfold v4l2_cleanup.
  rewrite Hst, (cleanup_list_found cnt pre dev post Hpre Hfd).
  destruct (Z.eqb_spec (usage_count dev) 1); [lia|].
  rewrite Ho, Z.eqb_refl. cbn [snd].
  set (dev1 := set_ownership _ (-1) 0 None).
  set (st1 := mk_state _ _).
  assert (Hl : lookup (cnt_video_dev cnt) st1 = Some dev1).
  { unfold lookup, st1. cbn [video_devices]. clear Hst st1.
    induction Hpre as [|d pre Hd _ IH]; cbn [app find].
    - cbn [fd_device dev1 set_ownership set_usage_count].
      rewrite Hfd, Z.eqb_refl. reflexivity.
    - apply Z.eqb_neq in Hd. rewrite Hd. exact IH. }
  assert (Hun : unowned dev1) by (repeat split).
  rewrite <- Hfd2 in Hl.
  destruct (next_dev_unowned cnt2 retcd dev1 Hun Ht2 Hq2) as (dev2 & Hn & _).
  pose proof (v4l2_next_lookup cnt2 retcd st1 dev1 Hl) as Hv.
  rewrite Hn in Hv. destruct Hv as (st2 & Hv & _ & Hlog).
  exists dev1, st2. rewrite <- Hfd2.
  split; [exact Hl|]. split; [exact Hun|]. split; [reflexivity|].
  split; [exact Hv|]. rewrite Hlog. unfold st1. cbn [hw_log].
  now rewrite app_nil_r.
Qed.

Lemma registry_stays_well_formed_witness :
  well_formed
    (snd (v4l2_cleanup (set_cnt_video_dev (thread_cnt 1 1) 5)
            (mk_state [mk_dev video0 5 2 1 3 (Some 1) 640 480 true 4 3] []))).
Proof.
  refine (proj1 (proj2 (registry_stays_well_formed streq (fun c => c)
                          open_video0 negotiate_video0
                          (set_cnt_video_dev (thread_cnt 1 1) 5)
                          (mk_state [mk_dev video0 5 2 1 3 (Some 1) 640 480
                                       true 4 3] []) _))).
  constructor; [cbn; lia | constructor].
Defined.

Lemma start_failure_leaves_registry_witness :
  let st := mk_state [] [] in
  let '(retcd, cnt', st') :=
    v4l2_start streq (fun c => c) open_video0 negotiate_fails
      (thread_cnt 1 1) st in
  retcd < 0 /\ video_devices st' = [] /\ vdev cnt' = false /\
  hw_log st' = [Ev_open video0 5; Ev_negotiate 5; Ev_close 5].
Proof.
  split; [reflexivity|].
  apply (start_failure_leaves_registry streq (fun c => c) open_video0
           negotiate_fails (thread_cnt 1 1) (mk_state [] [])).
  - constructor.
  - reflexivity.
Defined.

Lemma start_then_cleanup_restores_witness :
  let '(retcd, cnt', st') :=
    v4l2_start streq (fun c => c) open_video0 negotiate_video0
      (thread_cnt 1 1) (mk_state [] []) in
  video_devices (snd (v4l2_cleanup (set_cnt_video_dev cnt' retcd) st')) = [].
Proof.
  apply (start_then_cleanup_restores streq (fun c => c) open_video0
           negotiate_video0 (thread_cnt 1 1) (mk_state [] [])).
  - constructor.
  - cbn. lia.
Defined.

Lemma cleanup_twice_is_harmless_witness :
  let '(cnt1, st1) :=
    v4l2_cleanup (set_cnt_video_dev (thread_cnt 1 1) 5)
      (mk_state [mk_dev video0 5 2 1 3 (Some 1) 640 480 true 4 3] []) in
  v4l2_cleanup cnt1 st1 = (cnt1, st1).
Proof.
  apply (cleanup_twice_is_harmless (set_cnt_video_dev (thread_cnt 1 1) 5)
           (mk_state [mk_dev video0 5 2 1 3 (Some 1) 640 480 true 4 3] [])).
  constructor; [cbn; lia | constructor].
Defined.

Lemma owner_leaving_frees_the_device_witness :
  let dev := mk_dev video0 5 2 1 3 (Some 1) 640 480 true 4 3 in
  let st1 := snd (v4l2_cleanup (set_cnt_video_dev (thread_cnt 1 4) 5)
                    (mk_state [dev] [])) in
  exists dev1 st2,
    lookup 5 st1 = Some dev1 /\ unowned dev1 /\ usage_count dev1 = 1 /\
    v4l2_next (set_cnt_video_dev (thread_cnt 2 4) 5) 0 st1 = Next_returns 0 st2 /\
    hw_log st2 = [Ev_capture 5 2].
Proof.
  apply (owner_leaving_frees_the_device
           (set_cnt_video_dev (thread_cnt 1 4) 5)
           (set_cnt_video_dev (thread_cnt 2 4) 5)
           (mk_state [mk_dev video0 5 2 1 3 (Some 1) 640 480 true 4 3] [])
           [] (mk_dev video0 5 2 1 3 (Some 1) 640 480 true 4 3) [] 3 0).
  - reflexivity.
  - constructor.
  - reflexivity.
  - repeat split.
  - cbn. lia.
  - reflexivity.
  - cbn. lia.
  - cbn. lia.
Defined.

End RegistryFacts.

(** ** v4l2_palette_valid *)

Module PaletteFacts.
Import Palette.

Section PaletteValidFacts.
Variable sys_open : string -> Z.
Variable enum_fmt : Z -> list Z.

Local Abbreviation v4l2_palette_valid := (v4l2_palette_valid sys_open enum_fmt).

Lemma palette_scan_result (id : Z) (fmts : list Z) (r0 : Z) :
  fold_left (fun retcd pixelformat => if id =? pixelformat then 1 else retcd)
    fmts r0 =
  if existsb (Z.eqb id) fmts then 1 else r0.
Proof.
  revert r0. induction fmts as [|f fmts IH]; intros r0; simpl; [reflexivity|].
  rewrite IH. destruct (id =? f); simpl; [|reflexivity].
  destruct (existsb (Z.eqb id) fmts); reflexivity.
Qed.

(** C10: [v4l2_palette_valid] returns 0 for a path that cannot be opened,
    the value it also returns for a device that opens and does not
    advertise the palette; it returns 1 exactly for a device that opens and
    advertises it. *)
Theorem palette_valid_unopenable_is_false video_device v4l2_palette :
  (sys_open video_device < 0 ->
   v4l2_palette_valid video_device v4l2_palette = 0) /\
  (0 <= sys_open video_device ->
   ~ In (v4l2id v4l2_palette) (enum_fmt (sys_open video_device)) ->
   v4l2_palette_valid video_device v4l2_palette = 0) /\
  (v4l2_palette_valid video_device v4l2_palette = 1 <->
   0 <= sys_open video_device /\
   In (v4l2id v4l2_palette) (enum_fmt (sys_open video_device))) /\
  (v4l2_palette_valid video_device v4l2_palette = 0 \/
   v4l2_palette_valid video_device v4l2_palette = 1).
Proof.
  unfold Palette.v4l2_palette_valid. rewrite palette_scan_result.
  assert (Hex : existsb (Z.eqb (v4l2id v4l2_palette))
                  (enum_fmt (sys_open video_device)) = true <->
                In (v4l2id v4l2_palette) (enum_fmt (sys_open video_device))).
  { rewrite existsb_exists. split.
    - intros (f & Hin & Heq). apply Z.eqb_eq in Heq. now subst f.
    - intros Hin. exists (v4l2id v4l2_palette). split; [exact Hin|].
      apply Z.eqb_refl. }
  destruct (Z.ltb_spec (sys_open video_device) 0) as [Hneg | Hpos];
    destruct (existsb _ _) eqn:Ex.
  - split; [reflexivity|]. split; [intros; lia|].
    split; [|now left]. split; [discriminate | intros [H _]; lia].
  - split; [reflexivity|]. split; [intros; lia|].
    split; [|now left]. split; [discriminate | intros [H _]; lia].
  - pose proof (proj1 Hex eq_refl) as Hin.
    split; [intros; lia|]. split; [intros _ Hn; contradiction|].
    split; [|now right]. split; [intros _; split; [lia | exact Hin] | reflexivity].
  - split; [intros; lia|]. split; [reflexivity|].
    split; [|now left]. split; [discriminate|].
    intros [_ Hin]. apply Hex in Hin. discriminate Hin.
Qed.

End PaletteValidFacts.

Lemma palette_valid_unopenable_is_false_witness :
  Palette.v4l2_palette_valid open_video0 yuyv_only "/dev/video9" 8 = 0 /\
  Palette.v4l2_palette_valid open_video0 yuyv_only "/dev/video0" 8 = 0.
Proof.
  pose proof (palette_valid_unopenable_is_false open_video0 yuyv_only
                "/dev/video9" 8) as (H1 & _).
  pose proof (palette_valid_unopenable_is_false open_video0 yuyv_only
                "/dev/video0" 8) as (_ & H2 & _).
  split.
  - apply H1. vm_compute. reflexivity.
  - apply H2.
    + vm_compute. discriminate.
    + vm_compute. intros [H | []]. discriminate H.
Defined.

End PaletteFacts.

(** ** Bit operations *)

Module Bits.

Lemma land_low_shiftl (x hi n : Z) :
  0 <= n -> 0 <= x < 2 ^ n -> Z.land x (Z.shiftl hi n) = 0.
Proof.
  intros Hn Hx. apply Z.bits_inj'. intros k Hk.
  rewrite Z.land_spec, Z.bits_0.
  destruct (Z.lt_ge_cases k n) as [Hlt | Hge].
  - rewrite Z.shiftl_spec_low by lia. apply andb_false_r.
  - destruct (Z.eq_dec x 0) as [-> | Hx0]; [now rewrite Z.bits_0|].
    rewrite (Z.bits_above_log2 x k); [reflexivity | lia |].
    apply Z.lt_le_trans with n; [|exact Hge].
    apply Z.log2_lt_pow2; lia.
Qed.

Lemma lor_shiftl_add (x hi n : Z) :
  0 <= n -> 0 <= x < 2 ^ n ->
  Z.lor x (Z.shiftl hi n) = x + hi * 2 ^ n.
Proof.
  intros Hn Hx.
  pose proof (land_low_shiftl x hi n Hn Hx) as Hl.
  rewrite <- Z.lxor_lor by exact Hl.
  rewrite <- Z.add_nocarry_lxor by exact Hl.
  now rewrite Z.shiftl_mul_pow2.
Qed.

End Bits.

(** ** Four-character codes *)

Module FourccFacts.
Import Fourcc.
Import Bits.

Lemma byte_range (a : ascii) : 0 <= Z.of_nat (nat_of_ascii a) < 256.
Proof.
  pose proof (nat_ascii_bounded a). lia.
Qed.

Lemma v4l2_fourcc_sum (a b c d : ascii) :
  v4l2_fourcc a b c d =
  Z.of_nat (nat_of_ascii a) + 256 * Z.of_nat (nat_of_ascii b)
  + 65536 * Z.of_nat (nat_of_ascii c) + 16777216 * Z.of_nat (nat_of_ascii d).
Proof.
  unfold v4l2_fourcc.
  pose proof (byte_range a). pose proof (byte_range b).
  pose proof (byte_range c). pose proof (byte_range d).
  rewrite (lor_shiftl_add (Z.of_nat (nat_of_ascii a))) by lia.
  replace (Z.shiftl (Z.of_nat (nat_of_ascii d)) 24)
    with (Z.shiftl (Z.shiftl (Z.of_nat (nat_of_ascii d)) 8) 16)
    by (rewrite Z.shiftl_shiftl by lia; reflexivity).
  rewrite <- Z.shiftl_lor.
  rewrite (lor_shiftl_add (Z.of_nat (nat_of_ascii c))) by lia.
  rewrite lor_shiftl_add.
  - change (2 ^ 8) with 256. change (2 ^ 16) with 65536. lia.
  - lia.
  - change (2 ^ 8) with 256. change (2 ^ 16) with 65536. lia.
Qed.

Lemma fourcc_char_at (n : Z) (x : ascii) (lo hi : Z) :
  0 <= n -> 0 <= lo < 2 ^ n -> 0 <= hi ->
  fourcc_char (lo + 2 ^ n * (Z.of_nat (nat_of_ascii x) + 256 * hi)) n = x.
Proof.
  intros Hn Hlo Hhi. unfold fourcc_char.
  pose proof (byte_range x) as Hx.
  rewrite Z.shiftr_div_pow2 by lia.
  replace (lo + 2 ^ n * (Z.of_nat (nat_of_ascii x) + 256 * hi))
    with ((Z.of_nat (nat_of_ascii x) + 256 * hi) * 2 ^ n + lo) by lia.
  rewrite Z.div_add_l by lia.
  rewrite (Z.div_small lo) by lia. rewrite Z.add_0_r.
  replace (Z.of_nat (nat_of_ascii x) + 256 * hi)
    with (Z.of_nat (nat_of_ascii x) + hi * 256) by lia.
  rewrite Z.mod_add by lia.
  rewrite Z.mod_small by lia.
  rewrite Nat2Z.id. apply ascii_nat_embedding.
Qed.

(** The four characters [v4l2_palette_init] prints for a pixel format are
    the ones the format was packed from. *)
Theorem fourcc_of_packed (a b c d : ascii) :
  fourcc (v4l2_fourcc a b c d) =
  String a (String b (String c (String d EmptyString))).
Proof.
  rewrite v4l2_fourcc_sum. unfold fourcc.
  pose proof (byte_range a). pose proof (byte_range b).
  pose proof (byte_range c). pose proof (byte_range d).
  set (A := Z.of_nat (nat_of_ascii a)) in *.
  set (B := Z.of_nat (nat_of_ascii b)) in *.
  set (C := Z.of_nat (nat_of_ascii c)) in *.
  set (D := Z.of_nat (nat_of_ascii d)) in *.
  f_equal; [|f_equal; [|f_equal; [|f_equal]]].
  - replace (A + 256 * B + 65536 * C + 16777216 * D)
      with (0 + 2 ^ 0 * (A + 256 * (B + 256 * C + 65536 * D))) by lia.
    apply fourcc_char_at; lia.
  - replace (A + 256 * B + 65536 * C + 16777216 * D)
      with (A + 2 ^ 8 * (B + 256 * (C + 256 * D))) by lia.
    apply fourcc_char_at; lia.
  - replace (A + 256 * B + 65536 * C + 16777216 * D)
      with ((A + 256 * B) + 2 ^ 16 * (C + 256 * D)) by lia.
    apply fourcc_char_at; lia.
  - replace (A + 256 * B + 65536 * C + 16777216 * D)
      with ((A + 256 * B + 65536 * C) + 2 ^ 24 * (D + 256 * 0)) by lia.
    apply fourcc_char_at; lia.
Qed.

Lemma fourcc_char_value (id k : Z) :
  0 <= k ->
  Z.of_nat (nat_of_ascii (fourcc_char id k)) = (id / 2 ^ k) mod 256.
Proof.
  intros Hk. unfold fourcc_char. rewrite Z.shiftr_div_pow2 by lia.
  pose proof (Z.mod_pos_bound (id / 2 ^ k) 256 ltac:(lia)).
  rewrite nat_ascii_embedding by lia. lia.
Qed.

(** Packing the four characters printed for a 32-bit pixel format gives
    the format back. *)
Theorem pack_fourcc (id : Z) :
  0 <= id < 2 ^ 32 -> pack (fourcc id) = Some id.
Proof.
  intros Hid. unfold fourcc, pack. f_equal.
  rewrite v4l2_fourcc_sum, !fourcc_char_value by lia.
  change (2 ^ 0) with 1. change (2 ^ 8) with 256.
  change (2 ^ 16) with 65536. change (2 ^ 24) with 16777216.
  change (2 ^ 32) with 4294967296 in Hid.
  Z.div_mod_to_equations. lia.
Qed.

Lemma pack_fourcc_witness : pack (fourcc V4L2_PIX_FMT_YUYV) = Some V4L2_PIX_FMT_YUYV.
Proof.
  apply (pack_fourcc V4L2_PIX_FMT_YUYV). vm_compute. split; [discriminate | reflexivity].
Defined.

(** [v4l2_palette_fourcc] answers "NULL" for an identifier outside the
    catalog and, for one inside, a code that is not "NULL" and packs to the
    catalog's pixel format. *)
Theorem palette_fourcc_lookup (v4l2_palette : Z) :
  (v4l2_palette < 0 \/ V4L2_PALETTE_COUNT_MAX < v4l2_palette ->
   v4l2_palette_fourcc v4l2_palette = "NULL"%string) /\
  (0 <= v4l2_palette <= V4L2_PALETTE_COUNT_MAX ->
   v4l2_palette_fourcc v4l2_palette <> "NULL"%string /\
   pack (v4l2_palette_fourcc v4l2_palette) = Some (v4l2id v4l2_palette)).
Proof.
  unfold v4l2_palette_fourcc, V4L2_PALETTE_COUNT_MAX. split.
  - intros H.
    destruct (Z.gtb_spec v4l2_palette 21); [reflexivity|].
    destruct (Z.ltb_spec v4l2_palette 0); [reflexivity | lia].
  - intros H.
    destruct (Z.gtb_spec v4l2_palette 21); [lia|].
    destruct (Z.ltb_spec v4l2_palette 0); [lia|]. simpl orb. cbv iota.
    assert (Hn : exists n, (n <= 21)%nat /\ v4l2_palette = Z.of_nat n)
      by (exists (Z.to_nat v4l2_palette); lia).
    destruct Hn as (n & Hn & ->).
    do 22 (destruct n as [|n];
           [vm_compute; split; [discriminate | reflexivity]|]).
    lia.
Qed.

Lemma palette_fourcc_lookup_witness :
  v4l2_palette_fourcc 22 = "NULL"%string /\
  pack (v4l2_palette_fourcc 15) = Some V4L2_PIX_FMT_YUYV.
Proof.
  split.
  - apply (proj1 (palette_fourcc_lookup 22)). right. reflexivity.
  - apply (proj2 (palette_fourcc_lookup 15)). vm_compute. split; discriminate.
Defined.

End FourccFacts.

(** ** Control enumeration *)

Module CtrlEnumFacts.
Import CtrlEnum.

Lemma next_ctrl_cursor c :
  0 <= c < V4L2_CTRL_FLAG_NEXT_CTRL ->
  Z.testbit (Z.lor c V4L2_CTRL_FLAG_NEXT_CTRL) 31 = true /\
  Z.land (Z.lor c V4L2_CTRL_FLAG_NEXT_CTRL) (V4L2_CTRL_FLAG_NEXT_CTRL - 1) = c.
Proof.
  intros Hc. split.
  - rewrite Z.lor_spec. change (Z.testbit V4L2_CTRL_FLAG_NEXT_CTRL 31) with true.
    apply orb_true_r.
  - rewrite Z.land_lor_distr_l.
    change (Z.land V4L2_CTRL_FLAG_NEXT_CTRL (V4L2_CTRL_FLAG_NEXT_CTRL - 1)) with 0.
    rewrite Z.lor_0_r.
    change (V4L2_CTRL_FLAG_NEXT_CTRL - 1) with (Z.ones 31).
    rewrite Z.land_ones by lia. apply Z.mod_small.
    unfold V4L2_CTRL_FLAG_NEXT_CTRL in Hc. change (2 ^ 31) with 2147483648. lia.
Qed.

Lemma find_skip {A : Type} (f : A -> bool) (l1 l2 : list A) :
  Forall (fun x => f x = false) l1 -> find f (l1 ++ l2) = find f l2.
Proof.
  induction 1 as [|x l1 Hx _ IH]; simpl; [reflexivity|]. now rewrite Hx.
Qed.

Lemma queryctrl_next dev pre qs c :
  controls dev = pre ++ qs ->
  Forall (fun q => qc_id q <= c) pre ->
  ascending c qs ->
  0 <= c < V4L2_CTRL_FLAG_NEXT_CTRL ->
  queryctrl dev (Z.lor c V4L2_CTRL_FLAG_NEXT_CTRL) = hd_error qs.
Proof.
  intros Hd Hpre Hasc Hc. unfold queryctrl.
  destruct (next_ctrl_cursor c Hc) as [-> ->].
  rewrite Hd, find_skip.
  - destruct qs as [|q qs]; [reflexivity|]. simpl.
    destruct Hasc as [Hq _].
    destruct (Z.gtb_spec (qc_id q) c); [reflexivity | lia].
  - eapply Forall_impl; [|exact Hpre]. simpl. intros q Hq.
    destruct (Z.gtb_spec (qc_id q) c); [lia | reflexivity].
Qed.

Lemma ctrls_list_loop_complete junk dev :
  forall qs pre c fuel,
  controls dev = pre ++ qs ->
  Forall (fun q => qc_id q <= c) pre ->
  ascending c qs ->
  0 <= c < V4L2_CTRL_FLAG_NEXT_CTRL ->
  (List.length qs < fuel)%nat ->
  ctrls_list_loop fuel junk dev (Z.lor c V4L2_CTRL_FLAG_NEXT_CTRL) =
  Some (flat_map (entries_of junk dev) qs).
Proof.
  induction qs as [|q qs IH]; intros pre c fuel Hd Hpre Hasc Hc Hf;
    (destruct fuel as [|fuel]; [simpl in Hf; lia|]);
    cbn [ctrls_list_loop]; rewrite (queryctrl_next dev pre _ c Hd Hpre Hasc Hc).
  - reflexivity.
  - cbn [hd_error flat_map]. destruct Hasc as [Hq Hasc].
    assert (Hnext : ctrls_list_loop fuel junk dev
                      (Z.lor (qc_id q) V4L2_CTRL_FLAG_NEXT_CTRL) =
                    Some (flat_map (entries_of junk dev) qs)).
    { apply (IH (pre ++ [q])).
      - now rewrite <- app_assoc.
      - apply Forall_app. split.
        + eapply Forall_impl; [|exact Hpre]. simpl. intros; lia.
        + constructor; [lia | constructor].
      - exact Hasc.
      - lia.
      - simpl in Hf. lia. }
    rewrite Hnext. unfold entries_of.
    destruct (qc_type q =? V4L2_CTRL_TYPE_CTRL_CLASS); reflexivity.
Qed.

(** On a device whose control ids are positive and increasing, the
    enumeration ends and lists every control once, in the device's order:
    class headers are left out and every menu control is followed by its
    items. *)
Theorem ctrls_list_enumerates_every_control fuel junk dev n :
  ascending 0 (controls dev) ->
  (List.length (controls dev) < fuel)%nat ->
  n <> 0 ->
  v4l2_ctrls_list fuel junk dev n =
  Some (flat_map (entries_of junk dev) (controls dev)).
Proof.
  intros Hasc Hf Hn. unfold v4l2_ctrls_list.
  apply Z.eqb_neq in Hn. rewrite Hn.
  change V4L2_CTRL_FLAG_NEXT_CTRL with (Z.lor 0 V4L2_CTRL_FLAG_NEXT_CTRL) at 1.
  apply (ctrls_list_loop_complete junk dev (controls dev) [] 0 fuel).
  - reflexivity.
  - constructor.
  - exact Hasc.
  - unfold V4L2_CTRL_FLAG_NEXT_CTRL; lia.
  - exact Hf.
Qed.

Lemma ctrls_list_enumerates_every_control_witness :
  option_map (map ctrl_id) (v4l2_ctrls_list 10 zeroed sample_controls 4) =
  Some [V4L2_CID_BRIGHTNESS; 0x009a0901; 0x009a0901; 0x009a0901].
Proof.
  rewrite (ctrls_list_enumerates_every_control 10 zeroed sample_controls 4).
  - reflexivity.
  - vm_compute. repeat split; reflexivity.
  - simpl. lia.
  - lia.
Defined.

Lemma count_menu_length junk dev q count :
  count_menu dev q count =
  count + Z.of_nat (List.length (list_menu junk dev q)).
Proof.
  unfold count_menu, list_menu. revert count.
  induction (menu_range q) as [|indx l IH]; intros count; simpl; [lia|].
  rewrite IH, length_app.
  destruct (menu_name dev (qc_id q) indx); simpl; lia.
Qed.

Lemma count_list_loops fuel junk dev :
  forall id count,
  match ctrls_count_loop fuel dev id count, ctrls_list_loop fuel junk dev id with
  | Some n, Some l => n = count + Z.of_nat (List.length l)
  | None, None => True
  | _, _ => False
  end.
Proof.
  induction fuel as [|fuel IH]; intros id count; simpl; [exact I|].
  destruct (queryctrl dev id) as [q|]; [|simpl; lia].
  destruct (qc_type q =? V4L2_CTRL_TYPE_CTRL_CLASS); [apply IH|].
  set (next := Z.lor (qc_id q) V4L2_CTRL_FLAG_NEXT_CTRL).
  destruct (qc_type q =? V4L2_CTRL_TYPE_MENU).
  - specialize (IH next (count_menu dev q (count + 1))).
    destruct (ctrls_count_loop fuel dev next _);
      destruct (ctrls_list_loop fuel junk dev next); try exact IH.
    rewrite IH, (count_menu_length junk). simpl. rewrite length_app. lia.
  - specialize (IH next (count + 1)).
    destruct (ctrls_count_loop fuel dev next _);
      destruct (ctrls_list_loop fuel junk dev next); try exact IH.
    rewrite IH. simpl. lia.
Qed.

(** The array [v4l2_ctrls_list] fills has exactly the number of entries
    [v4l2_ctrls_count] counted on the same device. *)
Theorem ctrls_list_fills_the_count fuel junk dev n :
  v4l2_ctrls_count fuel dev = Some n ->
  exists entries,
    v4l2_ctrls_list fuel junk dev n = Some entries /\
    Z.of_nat (List.length entries) = n.
Proof.
  unfold v4l2_ctrls_count, v4l2_ctrls_list. intros Hc.
  pose proof (count_list_loops fuel junk dev V4L2_CTRL_FLAG_NEXT_CTRL 0) as H.
  rewrite Hc in H.
  destruct (Z.eqb_spec n 0) as [-> | Hn].
  - exists []. split; reflexivity.
  - destruct (ctrls_list_loop fuel junk dev V4L2_CTRL_FLAG_NEXT_CTRL) as [l|];
      [|contradiction].
    exists l. split; [reflexivity | lia].
Qed.

Lemma ctrls_list_fills_the_count_witness :
  exists entries,
    v4l2_ctrls_list 10 zeroed sample_controls 4 = Some entries /\
    Z.of_nat (List.length entries) = 4.
Proof.
  exact (ctrls_list_fills_the_count 10 zeroed sample_controls 4 eq_refl).
Defined.

(** *** From the listing to the first write *)

Lemma list_menu_settled junk dev q :
  existsb Ctrl.differs (list_menu junk dev q) = false.
Proof.
  unfold list_menu. induction (menu_range q) as [|i l IH]; [reflexivity|].
  cbn [flat_map]. rewrite existsb_app, IH, orb_false_r.
  destruct (menu_name dev (qc_id q) i); [|reflexivity].
  unfold menu_entry. destruct (junk (qc_id q) i) as [[? ?] ?]. reflexivity.
Qed.

Lemma control_entry_settled dev q : Ctrl.differs (control_entry dev q) = false.
Proof.
  unfold Ctrl.differs, control_entry. cbn [ctrl_menuitem ctrl_currval ctrl_newval].
  now rewrite Z.eqb_refl.
Qed.

Lemma ctrls_list_loop_settled junk dev :
  forall fuel id entries,
  ctrls_list_loop fuel junk dev id = Some entries ->
  existsb Ctrl.differs entries = false.
Proof.
  induction fuel as [|fuel IH]; intros id entries H; [discriminate|].
  cbn [ctrls_list_loop] in H.
  destruct (queryctrl dev id) as [q|]; [|now inversion H].
  destruct (qc_type q =? V4L2_CTRL_TYPE_CTRL_CLASS); [now apply IH in H|].
  destruct (ctrls_list_loop fuel junk dev _) as [rest|] eqn:E; [|discriminate].
  inversion H; subst. cbn [app existsb].
  rewrite control_entry_settled, existsb_app, (IH _ _ E), orb_false_r.
  destruct (qc_type q =? V4L2_CTRL_TYPE_MENU);
    [apply list_menu_settled | reflexivity].
Qed.

Lemma Forall2_In_r {A B : Type} (R : A -> B -> Prop) l l' y :
  Forall2 R l l' -> In y l' -> exists x, In x l /\ R x y.
Proof.
  induction 1 as [|x y' l l' Hxy _ IH]; intros Hy; [contradiction|].
  destruct Hy as [-> | Hy].
  - exists x. split; [now left | exact Hxy].
  - destruct (IH Hy) as (x' & Hx' & HR). exists x'. split; [now right | exact HR].
Qed.

Lemma attempts_after_pass1 devs devs1 c :
  Forall2 (fun d d1 => if Ctrl.differs d then d1 = Ctrl.applied d \/ d1 = d
                       else d1 = d) devs devs1 ->
  In c (Ctrl.attempts devs1) -> In c (Ctrl.attempts devs).
Proof.
  unfold Ctrl.attempts.
  induction 1 as [|d d1 devs devs1 Hd _ IH]; intros Hc; [contradiction|].
  cbn [filter] in *.
  destruct (Ctrl.differs d1) eqn:E1.
  - destruct (Ctrl.differs d) eqn:E.
    + destruct Hd as [-> | ->].
      * now rewrite CtrlFacts.differs_applied in E1.
      * destruct Hc as [<- | Hc]; [now left | right; now apply IH].
    + subst d1. congruence.
  - destruct (Ctrl.differs d); [right|]; now apply IH.
Qed.

Section FreshControls.
Variable mystrceq : string -> string -> bool.
Variable K : Type.
Variable s_ctrl : K -> Z -> Z -> K * Z.

Lemma ctrls_set_calls_attempted cnt curdev k c :
  In c (Ctrl.cs_calls _ (Ctrl.v4l2_ctrls_set mystrceq K s_ctrl cnt curdev k)) ->
  In c (Ctrl.attempts (Ctrl.devctrl_array curdev)).
Proof.
  unfold Ctrl.v4l2_ctrls_set.
  destruct (Ctrl.v4l2_private curdev); cbn [negb]; [|contradiction].
  destruct (CtrlFacts.pass1_spec K s_ctrl (Ctrl.starting curdev) k
              (Ctrl.devctrl_array curdev)) as (Hc1 & Hf1 & _).
  destruct (Ctrl.p1_failed _ _).
  - destruct (CtrlFacts.pass2_spec mystrceq K s_ctrl (Ctrl.starting curdev)
                (Ctrl.p1_kernel _ (Ctrl.ctrls_set_pass1 K s_ctrl
                   (Ctrl.starting curdev) k (Ctrl.devctrl_array curdev)))
                (Ctrl.params_array cnt)
                (Ctrl.p1_devs _ (Ctrl.ctrls_set_pass1 K s_ctrl
                   (Ctrl.starting curdev) k (Ctrl.devctrl_array curdev))))
      as (Hc2 & _).
    cbn [Ctrl.cs_calls]. rewrite Hc1, Hc2. intros H.
    apply in_app_or in H. destruct H as [H | H]; [exact H|].
    exact (attempts_after_pass1 _ _ c Hf1 H).
  - cbn [Ctrl.cs_calls]. now rewrite Hc1.
Qed.

(** On a device whose controls were just listed, the only values written
    to the driver are requests of the user: every [VIDIOC_S_CTRL] that
    [v4l2_ctrls_set] issues after [v4l2_parms_set] is for a control, never a
    menu item, that one of the user's parameters names, with a value other
    than the one the control has. *)
Theorem listed_controls_written_on_request fuel junk dev n entries cnt st k :
  v4l2_ctrls_list fuel junk dev n = Some entries ->
  let '(_, cnt1, curdev1, _) :=
    Ctrl.v4l2_parms_set mystrceq cnt (Ctrl.mk_dev entries true st) in
  forall id v,
  In (id, v) (Ctrl.cs_calls _ (Ctrl.v4l2_ctrls_set mystrceq K s_ctrl cnt1 curdev1 k)) ->
  exists d u,
    In d entries /\ In u (Ctrl.params_array cnt) /\
    Ctrl.usr_matches mystrceq d u = true /\
    ctrl_id d = id /\ ctrl_menuitem d = false /\ v <> ctrl_currval d.
Proof.
  intros Hlist.
  assert (Hsettled : existsb Ctrl.differs entries = false).
  { unfold v4l2_ctrls_list in Hlist. destruct (n =? 0).
    - now inversion Hlist.
    - exact (ctrls_list_loop_settled _ _ _ _ _ Hlist). }
  unfold Ctrl.v4l2_parms_set.
  set (cnt0 := if Ctrl.roundrobin_skip cnt <? 0 then _ else cnt).
  assert (Hps : Ctrl.params_array cnt0 = Ctrl.params_array cnt)
    by (subst cnt0; destruct (Ctrl.roundrobin_skip cnt <? 0); reflexivity).
  destruct (Ctrl.devctrl_count _ =? 0).
  - intros id v H. apply ctrls_set_calls_attempted in H.
    cbn [Ctrl.devctrl_array] in H. unfold Ctrl.attempts in H.
    apply in_map_iff in H. destruct H as (d & _ & Hd).
    apply filter_In in Hd. destruct Hd as [Hd Hdiff].
    assert (Hex : existsb Ctrl.differs entries = true)
      by (apply existsb_exists; eauto).
    congruence.
  - cbn [Ctrl.devctrl_array].
    pose proof (CtrlFacts.parms_set_loop_spec mystrceq entries
                  (Ctrl.params_array cnt0)) as Hs.
    destruct (Ctrl.parms_set_loop mystrceq entries (Ctrl.params_array cnt0))
      as [devs1 l1].
    destruct Hs as [Hs _].
    intros id v H. apply ctrls_set_calls_attempted in H.
    cbn [Ctrl.set_devctrl_array Ctrl.devctrl_array] in H.
    unfold Ctrl.attempts in H.
    apply in_map_iff in H. destruct H as (d1 & E & Hd1).
    apply filter_In in Hd1. destruct Hd1 as [Hd1 Hdiff].
    destruct (Forall2_In_r _ _ _ _ Hs Hd1) as (d & Hd & HR).
    assert (Hnd : Ctrl.differs d = false).
    { destruct (Ctrl.differs d) eqn:Ed; [|reflexivity].
      assert (Hex : existsb Ctrl.differs entries = true)
        by (apply existsb_exists; eauto).
      congruence. }
    destruct (Ctrl.last_request mystrceq d (Ctrl.params_array cnt0)) as [u|] eqn:El.
    + unfold Ctrl.last_request in El. apply find_some in El.
      destruct El as [Hu Hmatch]. apply in_rev in Hu. rewrite Hps in Hu.
      destruct HR as [Hr _]. unfold Ctrl.restaged in Hr.
      exists d, u. inversion E; subst id v.
      unfold Ctrl.differs in Hdiff. rewrite Hr in Hdiff |- *.
      destruct d; cbn in *.
      apply andb_true_iff in Hdiff. destruct Hdiff as [Hm Hne].
      apply negb_true_iff in Hm. apply negb_true_iff in Hne.
      apply Z.eqb_neq in Hne.
      repeat split; auto.
    + subst d1. congruence.
Qed.

End FreshControls.

Lemma listed_controls_written_on_request_witness :
  let entries := flat_map (entries_of zeroed sample_controls) (controls sample_controls) in
  let cnt := Ctrl.mk_cnt 1 [mk_param "brightness" "300"] 1 [] 0 in
  let '(_, cnt1, curdev1, _) :=
    Ctrl.v4l2_parms_set strceq cnt (Ctrl.mk_dev entries true false) in
  forall id v,
  In (id, v)
    (Ctrl.cs_calls _
       (Ctrl.v4l2_ctrls_set strceq unit (Ctrl.locked_control 0) cnt1 curdev1 tt)) ->
  exists d u,
    In d entries /\ In u (Ctrl.params_array cnt) /\
    Ctrl.usr_matches strceq d u = true /\
    ctrl_id d = id /\ ctrl_menuitem d = false /\ v <> ctrl_currval d.
Proof.
  exact (listed_controls_written_on_request strceq unit (Ctrl.locked_control 0)
           10 zeroed sample_controls 4 _
           (Ctrl.mk_cnt 1 [mk_param "brightness" "300"] 1 [] 0) false tt
           eq_refl).
Defined.

End CtrlEnumFacts.

(** ** Input, norm and frequency *)

Module SelectFacts.
Import Select.

Lemma norm_select_records k cnt curdev :
  let '(retcd, cnt', curdev', _) := v4l2_norm_select k cnt curdev in
  retcd = 0 /\ norm curdev' = param_norm cnt'.
Proof.
  unfold v4l2_norm_select.
  destruct ((param_norm cnt =? norm curdev) && negb (starting curdev)) eqn:E.
  - apply andb_true_iff in E. destruct E as [E _]. apply Z.eqb_eq in E.
    split; [reflexivity | now symmetry].
  - destruct (g_std k); split; reflexivity.
Qed.

(** [v4l2_norm_select] never fails, and what it records is the norm it
    leaves in the configuration, so that a second call has nothing to do.
    On a device without video standards it issues no [VIDIOC_S_STD] and
    overrides the configured norm with 0. The standard it sets is NTSC for
    norm 1, SECAM for norm 2 and PAL for every other value. *)
Theorem norm_select_never_fails k cnt curdev :
  let '(retcd, cnt', curdev', calls) := v4l2_norm_select k cnt curdev in
  retcd = 0 /\
  norm curdev' = param_norm cnt' /\
  (starting curdev = false ->
   v4l2_norm_select k cnt' curdev' = (0, cnt', curdev', [])) /\
  (g_std k = None ->
   (forall std_id, ~ In (VIDIOC_S_STD std_id) calls) /\
   (calls <> [] -> param_norm cnt' = 0)) /\
  (forall std_id, In (VIDIOC_S_STD std_id) calls ->
     std_id = if param_norm cnt =? 1 then V4L2_STD_NTSC
              else if param_norm cnt =? 2 then V4L2_STD_SECAM
              else V4L2_STD_PAL).
Proof.
  unfold v4l2_norm_select.
  destruct ((param_norm cnt =? norm curdev) && negb (starting curdev)) eqn:E.
  - apply andb_true_iff in E. destruct E as [En Es].
    apply Z.eqb_eq in En.
    split; [reflexivity|]. split; [now symmetry|].
    split; [intros _; unfold v4l2_norm_select; rewrite <- En, Z.eqb_refl, Es;
            reflexivity|].
    split; [intros _; split; [intros ? [] | congruence]|].
    intros ? [].
  - assert (Hnotin : forall std_id, ~ In (VIDIOC_S_STD std_id) (enumstd_calls k)).
    { intros std_id Hin. unfold enumstd_calls in Hin. apply in_map_iff in Hin.
      destruct Hin as (i & Hi & _). discriminate. }
    destruct (g_std k) as [std|] eqn:Eg.
    + split; [reflexivity|]. split; [reflexivity|].
      split.
      { intros Hs. unfold v4l2_norm_select.
        cbn [norm starting param_norm]. now rewrite Z.eqb_refl, Hs. }
      split; [discriminate|].
      intros std_id [Hin | Hin]; [discriminate|].
      destruct (negb (std =? 0)); [|contradiction].
      apply in_app_or in Hin. destruct Hin as [Hin | [Hin | []]].
      * now apply Hnotin in Hin.
      * now inversion Hin.
    + split; [reflexivity|]. split; [reflexivity|].
      split.
      { intros Hs. unfold v4l2_norm_select.
        cbn [norm starting param_norm]. now rewrite Z.eqb_refl, Hs. }
      cbn [Z.eqb negb].
      split; [split; [intros std_id [Hin | []]; discriminate | reflexivity]|].
      intros std_id [Hin | []]. discriminate.
Qed.

Lemma settled_chain_is_silent k cnt curdev :
  newvals cnt curdev = false -> starting curdev = false ->
  select_chain k cnt curdev = (0, cnt, curdev, []).
Proof.
  unfold newvals. intros H Hs.
  apply orb_false_iff in H. destruct H as [H Hf].
  apply orb_false_iff in H. destruct H as [Hi Hn].
  apply negb_false_iff in Hi, Hn, Hf.
  unfold select_chain, v4l2_input_select, v4l2_norm_select,
    v4l2_frequency_select.
  rewrite Hi, Hs. cbn [andb negb Z.eqb]. rewrite Hn, Hs. cbn [andb negb Z.eqb].
  rewrite Hf, Hs. reflexivity.
Qed.

(** The three selections as [v4l2_start] and [v4l2_device_select] chain
    them. They fail only when the input cannot be selected, and then
    nothing is recorded and neither the norm nor the frequency is touched.
    When they succeed, the input and the norm recorded are the configured
    ones, and on a device without a tuner the frequency is too: nothing
    differs any more, and running the chain again issues no call. *)
Theorem select_chain_settles k cnt curdev :
  let '(retcd, cnt', curdev', calls) := select_chain k cnt curdev in
  (retcd = 0 \/ retcd = -1) /\
  (retcd = -1 ->
   cnt' = cnt /\ curdev' = curdev /\ forallb is_input_call calls = true) /\
  (retcd = 0 ->
   input curdev' = param_input cnt' /\ norm curdev' = param_norm cnt' /\
   (Z.land (device_type curdev') V4L2_INPUT_TYPE_TUNER = 0 ->
    newvals cnt' curdev' = false /\
    (starting curdev = false ->
     select_chain k cnt' curdev' = (0, cnt', curdev', [])))).
Proof.
  unfold select_chain.
  assert (Hin : let '(r, c, d, l) := v4l2_input_select k cnt curdev in
                (r = -1 /\ c = cnt /\ d = curdev /\ forallb is_input_call l = true) \/
                (r = 0 /\ c = cnt /\ input d = param_input cnt /\
                 norm d = norm curdev /\ frequency d = frequency curdev /\
                 starting d = starting curdev)).
  { unfold v4l2_input_select.
    destruct ((param_input cnt =? input curdev) && negb (starting curdev)) eqn:E.
    - right. apply andb_true_iff in E. destruct E as [E _].
      apply Z.eqb_eq in E. repeat split; auto.
    - destruct (enuminput k _) as [[ty tu]|]; [|left; repeat split].
      destruct (s_input k _ =? -1); [left | right]; repeat split. }
  destruct (v4l2_input_select k cnt curdev) as [[[r1 c1] d1] l1].
  destruct Hin as [(-> & -> & -> & Hl) | (-> & -> & Hi1 & Hn1 & Hf1 & Hs1)].
  - cbn [Z.eqb]. split; [now right|]. split; [auto|]. discriminate.
  - cbn [Z.eqb].
    pose proof (norm_select_records k cnt d1) as Hnorm.
    assert (Hn : let '(r, c, d, l) := v4l2_norm_select k cnt d1 in
                 param_input c = param_input cnt /\ param_freq c = param_freq cnt /\
                 input d = input d1 /\ frequency d = frequency d1 /\
                 device_type d = device_type d1 /\ starting d = starting d1).
    { unfold v4l2_norm_select.
      destruct ((param_norm cnt =? norm d1) && negb (starting d1)); [auto 10|].
      destruct (g_std k); cbn; auto 10. }
    destruct (v4l2_norm_select k cnt d1) as [[[r2 c2] d2] l2].
    destruct Hnorm as (-> & Hnn).
    destruct Hn as (Hpi & Hpf & Hi2 & Hf2 & Hty2 & Hs2).
    cbn [Z.eqb].
    assert (Hfr : let '(r, c, d, l) := v4l2_frequency_select k c2 d2 in
                  r = 0 /\ c = c2 /\ input d = input d2 /\ norm d = norm d2 /\
                  device_type d = device_type d2 /\ starting d = starting d2 /\
                  (Z.land (device_type d2) V4L2_INPUT_TYPE_TUNER = 0 ->
                   frequency d = param_freq c2)).
    { unfold v4l2_frequency_select.
      destruct ((param_freq c2 =? frequency d2) && negb (starting d2)) eqn:E.
      - apply andb_true_iff in E. destruct E as [E _]. apply Z.eqb_eq in E.
        repeat split; auto.
      - destruct (Z.eqb_spec (Z.land (device_type d2) V4L2_INPUT_TYPE_TUNER) 0)
          as [Ez | Ez]; cbn [negb].
        + repeat split; auto.
        + destruct (g_tuner k _ =? -1); [repeat split; auto; contradiction|].
          destruct (s_frequency k _ _ =? -1); repeat split; auto; contradiction. }
    destruct (v4l2_frequency_select k c2 d2) as [[[r3 c3] d3] l3].
    destruct Hfr as (-> & -> & Hi3 & Hn3 & Hty3 & Hs3 & Hf3).
    split; [now left|]. split; [discriminate|].
    intros _. split; [congruence|]. split; [congruence|].
    intros Htuner. rewrite Hty3 in Htuner. specialize (Hf3 Htuner).
    assert (Hnv : newvals c2 d3 = false).
    { unfold newvals.
      replace (input d3) with (param_input c2) by congruence.
      replace (norm d3) with (param_norm c2) by congruence.
      rewrite Hf3, !Z.eqb_refl. reflexivity. }
    split; [exact Hnv|].
    intros Hs. apply settled_chain_is_silent; [exact Hnv | congruence].
Qed.

Lemma norm_select_never_fails_witness :
  let '(_, cnt', _, calls) :=
    v4l2_norm_select webcam (mk_cnt 0 1 0) (mk_dev 0 0 0 0 0 false) in
  param_norm cnt' = 0.
Proof.
  refine (proj2 (proj1 (proj2 (proj2 (proj2
            (norm_select_never_fails webcam (mk_cnt 0 1 0)
               (mk_dev 0 0 0 0 0 false))))) eq_refl) _).
  discriminate.
Defined.

Lemma select_chain_settles_witness :
  let '(_, cnt', curdev', _) :=
    select_chain webcam (mk_cnt (-1) 1 0) (mk_dev 0 0 0 0 0 false) in
  select_chain webcam cnt' curdev' = (0, cnt', curdev', []).
Proof.
  refine (proj2 (proj2 (proj2 (proj2 (proj2
            (select_chain_settles webcam (mk_cnt (-1) 1 0)
               (mk_dev 0 0 0 0 0 false))) eq_refl)) _) eq_refl).
  reflexivity.
Defined.

End SelectFacts.

(** ** Memory-mapped streaming *)

Module StreamFacts.
Import Stream.

Lemma update_buff_middle f pre b post :
  update_buff (List.length pre) f (pre ++ b :: post) = pre ++ f b :: post.
Proof.
  induction pre as [|x pre IH]; cbn [List.length app update_buff];
    [reflexivity | now rewrite IH].
Qed.

Lemma mmap_loop_never_streams k :
  forall indxs bufs bi,
  let '(retcd, _, _, evs) := mmap_loop k indxs bufs bi in
  (retcd = 0 \/ retcd = -1) /\ ~ In VIDIOC_STREAMON evs.
Proof.
  induction indxs as [|indx rest IH]; intros bufs bi; cbn [mmap_loop].
  - split; [now left | intros []].
  - destruct (querybuf k indx) as [[len off]|].
    + destruct (mmap k len off =? MAP_FAILED).
      * split; [now right|]. intros [H | [H | [H | []]]]; discriminate.
      * destruct (qbuf k indx =? -1).
        -- split; [now right|]. intros [H | [H | [H | []]]]; discriminate.
        -- specialize (IH (update_buff (Z.to_nat indx)
                             (fun b => mk_buff (mmap k len off) (content_length b)
                                         len (used b)) bufs) indx).
           destruct (mmap_loop k rest _ indx) as [[[r b] bi'] evs].
           destruct IH as [Hr Hn]. split; [exact Hr|].
           intros [H | [H | [H | H]]]; try discriminate. now apply Hn.
    + split; [now right|]. intros [H | [H | []]]; discriminate.
Qed.

Lemma mmap_loop_success k :
  forall post pre bi b' bi' evs,
  mmap_loop k (map Z.of_nat (seq (List.length pre) (List.length post)))
    (pre ++ post) bi = (0, b', bi', evs) ->
  exists post',
    b' = Some (pre ++ post') /\
    List.length post' = List.length post /\
    Forall (fun b => ptr b <> MAP_FAILED) post' /\
    map (fun b => (ptr b, size b)) post' = mapped evs /\
    queued evs = map Z.of_nat (seq (List.length pre) (List.length post)) /\
    unmapped evs = [].
Proof.
  induction post as [|b post IH]; intros pre bi b' bi' evs.
  - cbn. intros [= <- _ <-]. exists []. rewrite app_nil_r. repeat split.
    constructor.
  - cbn [List.length seq map mmap_loop].
    destruct (querybuf k (Z.of_nat (List.length pre))) as [[len off]|];
      [|discriminate].
    destruct (Z.eqb_spec (mmap k len off) MAP_FAILED) as [|Hok]; [discriminate|].
    destruct (qbuf k (Z.of_nat (List.length pre)) =? -1); [discriminate|].
    rewrite Nat2Z.id, update_buff_middle.
    set (fb := mk_buff (mmap k len off) (content_length b) len (used b)).
    specialize (IH (pre ++ [fb]) (Z.of_nat (List.length pre))).
    rewrite length_app in IH. cbn [List.length] in IH.
    replace (List.length pre + 1)%nat with (S (List.length pre)) in IH by lia.
    rewrite <- app_assoc in IH. cbn [app] in IH.
    destruct (mmap_loop k _ (pre ++ fb :: post) _) as [[[r b1] bi1] evs1].
    intros [= -> <- _ <-].
    destruct (IH b1 bi1 evs1 eq_refl) as (post' & Hb & Hlen & Hall & Hmap & Hq & Hu).
    exists (fb :: post'). rewrite Hb, <- app_assoc. cbn [app].
    split; [reflexivity|]. split; [cbn; now rewrite Hlen|].
    split; [constructor; [exact Hok | exact Hall]|].
    split.
    { cbn [map mapped flat_map app]. fold (mapped evs1).
      destruct (Z.eqb_spec (mmap k len off) MAP_FAILED); [contradiction|].
      cbn [app]. now rewrite Hmap. }
    split.
    { cbn [queued flat_map app]. fold (queued evs1). now rewrite Hq. }
    exact Hu.
Qed.

Lemma mmap_set_success k s s' evs :
  v4l2_mmap_set k s = (0, s', evs) ->
  MIN_MMAP_BUFFERS <= buffer_count s' /\
  (Z.to_nat (buffer_count s') <= Z.to_nat (req_count s'))%nat /\
  exists bufs body,
    buffers s' = Some bufs /\
    Z.of_nat (List.length bufs) = buffer_count s' /\
    Forall (fun b => ptr b <> MAP_FAILED) bufs /\
    evs = VIDIOC_REQBUFS MMAP_BUFFERS :: body ++ [VIDIOC_STREAMON] /\
    ~ In VIDIOC_STREAMON body /\
    mapped body = map (fun b => (ptr b, size b)) bufs /\
    queued body = indices (buffer_count s').
Proof.
  unfold v4l2_mmap_set.
  destruct (Z.land (capabilities s) V4L2_CAP_STREAMING =? 0); [discriminate|].
  destruct (reqbufs k MMAP_BUFFERS) as [count|]; [|discriminate].
  destruct (Z.ltb_spec (to_int count) MIN_MMAP_BUFFERS) as [Hlt | Hge];
    [discriminate|].
  pose proof (mmap_loop_never_streams k (indices (to_int count))
                (repeat (mk_buff 0 0 0 0) (Z.to_nat (to_int count)))
                (buf_index s)) as Hns.
  pose proof (mmap_loop_success k
                (repeat (mk_buff 0 0 0 0) (Z.to_nat (to_int count))) []
                (buf_index s)) as Hok.
  cbn [List.length app] in Hok. rewrite repeat_length in Hok.
  fold (indices (to_int count)) in Hok.
  destruct (mmap_loop k (indices (to_int count)) _ (buf_index s))
    as [[[r b] bi] evs0].
  destruct Hns as [Hr Hn].
  destruct Hr as [-> | ->]; cbn [Z.eqb negb]; [|discriminate].
  destruct (streamon k =? -1); [discriminate|].
  intros E. inversion E; subst. cbn [buffer_count buffers req_count].
  split; [exact Hge|].
  split; [unfold to_int; destruct (count <? 2 ^ 31); lia|].
  destruct (Hok b bi evs0 eq_refl) as (bufs & Hb & Hlen & Hall & Hmap & Hq & _).
  exists bufs, evs0. cbn [app] in Hb.
  split; [exact Hb|].
  split; [rewrite Hlen; unfold MIN_MMAP_BUFFERS in Hge; lia|].
  split; [exact Hall|]. split; [reflexivity|].
  split; [exact Hn|]. split; [now symmetry | exact Hq].
Qed.

(** [v4l2_mmap_set] starts the stream only when everything before
    succeeded. Without the streaming capability it asks nothing of the
    driver. When it returns 0 the driver granted at least two buffers,
    every one of them was mapped and queued once, in order, and
    [VIDIOC_STREAMON] is the last request; when it returns -1 the stream
    was not started, unless it is [VIDIOC_STREAMON] itself that failed. *)
Theorem mmap_set_protocol k s :
  let '(retcd, s', evs) := v4l2_mmap_set k s in
  (retcd = 0 \/ retcd = -1) /\
  (Z.land (capabilities s) V4L2_CAP_STREAMING = 0 -> retcd = -1 /\ evs = []) /\
  (retcd = -1 -> In VIDIOC_STREAMON evs -> streamon k = -1) /\
  (retcd = 0 ->
   MIN_MMAP_BUFFERS <= buffer_count s' /\
   exists bufs body,
     buffers s' = Some bufs /\
     Z.of_nat (List.length bufs) = buffer_count s' /\
     Forall (fun b => ptr b <> MAP_FAILED) bufs /\
     evs = VIDIOC_REQBUFS MMAP_BUFFERS :: body ++ [VIDIOC_STREAMON] /\
     ~ In VIDIOC_STREAMON body /\
     mapped body = map (fun b => (ptr b, size b)) bufs /\
     queued body = indices (buffer_count s')).
Proof.
  pose proof (mmap_set_success k s) as Hok.
  destruct (v4l2_mmap_set k s) as [[retcd s'] evs] eqn:E.
  assert (Hret : retcd = 0 \/ retcd = -1).
  { revert E. unfold v4l2_mmap_set.
    destruct (_ =? 0); [intros [= <- _ _]; now right|].
    destruct (reqbufs k MMAP_BUFFERS) as [count|];
      [|intros [= <- _ _]; now right].
    destruct (to_int count <? MIN_MMAP_BUFFERS); [intros [= <- _ _]; now right|].
    pose proof (mmap_loop_never_streams k (indices (to_int count))
                  (repeat (mk_buff 0 0 0 0) (Z.to_nat (to_int count)))
                  (buf_index s)) as Hns.
    destruct (mmap_loop k _ _ _) as [[[r b] bi] evs0]. destruct Hns as [Hr _].
    destruct (negb (r =? 0)); [intros [= <- _ _]; exact Hr|].
    destruct (streamon k =? -1); intros [= <- _ _]; auto. }
  split; [exact Hret|].
  split.
  { intros Hc. revert E. unfold v4l2_mmap_set.
    apply Z.eqb_eq in Hc. rewrite Hc. intros [= <- _ <-]. auto. }
  split.
  { intros Hfail Hin. revert E Hin. unfold v4l2_mmap_set.
    destruct (_ =? 0); [intros [= _ _ <-] []|].
    destruct (reqbufs k MMAP_BUFFERS) as [count|];
      [|intros [= _ _ <-] [H | []]; discriminate].
    destruct (to_int count <? MIN_MMAP_BUFFERS);
      [intros [= _ _ <-] [H | []]; discriminate|].
    pose proof (mmap_loop_never_streams k (indices (to_int count))
                  (repeat (mk_buff 0 0 0 0) (Z.to_nat (to_int count)))
                  (buf_index s)) as Hns.
    destruct (mmap_loop k _ _ _) as [[[r b] bi] evs0]. destruct Hns as [_ Hn].
    destruct (negb (r =? 0)).
    - intros [= _ _ <-] [H | H]; [discriminate | contradiction].
    - destruct (Z.eqb_spec (streamon k) (-1)); [auto|].
      intros [= <- _ _]. discriminate. }
  intros ->. destruct (Hok s' evs eq_refl) as (Hmin & _ & Hrest). auto.
Qed.

Lemma unmapped_munmaps bufs rest :
  unmapped (map (fun b => Munmap (ptr b) (size b)) bufs ++ rest) =
  map (fun b => (ptr b, size b)) bufs ++ unmapped rest.
Proof.
  unfold unmapped. rewrite flat_map_app. f_equal.
  induction bufs as [|b bufs IH]; [reflexivity|].
  cbn [map flat_map app]. now rewrite IH.
Qed.

Lemma mapped_app l1 l2 : mapped (l1 ++ l2) = mapped l1 ++ mapped l2.
Proof. unfold mapped. apply flat_map_app. Qed.

(** What a successful [v4l2_mmap_set] mapped, [v4l2_device_cleanup] unmaps:
    the same regions, each once, in order and with the lengths they were
    mapped with; then it frees the array and the private structure, and
    leaves [v4l2_private] null. A second cleanup dereferences that null
    pointer. *)
Theorem mmap_then_cleanup_unmaps_everything k s s' evs :
  v4l2_mmap_set k s = (0, s', evs) ->
  exists evs',
    v4l2_device_cleanup (Some s') = Some (None, evs') /\
    unmapped evs' = mapped evs /\
    evs' = map (fun r => Munmap (fst r) (snd r)) (mapped evs)
           ++ [Free_buffers; Free_private] /\
    v4l2_device_cleanup None = None.
Proof.
  intros H.
  destruct (mmap_set_success k s s' evs H)
    as (Hmin & Hreq & bufs & body & Hb & Hlen & _ & Hevs & _ & Hmap & _).
  assert (Hm : mapped evs = map (fun b => (ptr b, size b)) bufs).
  { rewrite Hevs.
    change (VIDIOC_REQBUFS MMAP_BUFFERS :: body ++ [VIDIOC_STREAMON])
      with ([VIDIOC_REQBUFS MMAP_BUFFERS] ++ body ++ [VIDIOC_STREAMON]).
    rewrite !mapped_app, Hmap. cbn. now rewrite app_nil_r. }
  unfold v4l2_device_cleanup. rewrite Hb.
  rewrite firstn_all2 by lia.
  eexists. split; [reflexivity|].
  rewrite <- app_assoc. cbn [app].
  split; [|split; [|reflexivity]].
  - rewrite unmapped_munmaps, Hm. cbn. now rewrite app_nil_r.
  - rewrite Hm, map_map. reflexivity.
Qed.

Lemma mmap_then_cleanup_unmaps_everything_witness :
  let '(_, s', evs) := v4l2_mmap_set four_buffers (opened 5) in
  exists evs',
    v4l2_device_cleanup (Some s') = Some (None, evs') /\
    unmapped evs' =
      [(0x10000, 4096); (0x11000, 4096); (0x12000, 4096); (0x13000, 4096)].
Proof.
  destruct (mmap_then_cleanup_unmaps_everything four_buffers (opened 5)
              _ _ eq_refl) as (evs' & H1 & H2 & _).
  exists evs'. split; [exact H1 | exact H2].
Defined.

Lemma mmap_set_protocol_witness :
  let '(retcd, s', evs) := v4l2_mmap_set four_buffers (opened 5) in
  retcd = 0 /\ MIN_MMAP_BUFFERS <= buffer_count s'.
Proof.
  split; [reflexivity|].
  exact (proj1 ((proj2 (proj2 (proj2 (mmap_set_protocol four_buffers (opened 5)))))
                   eq_refl)).
Defined.

(** *** v4l2_capture *)

(** [v4l2_capture] does not restore the signal mask of the thread: it
    blocks its five signals and then unblocks the signals that were
    blocked on entry. On every return path, a signal is blocked afterwards
    exactly when it is one of the five and was not blocked before. *)
Theorem capture_leaves_signals_blocked a s mask retcd s' mask' evs :
  v4l2_capture a s mask = Some (retcd, s', mask', evs) ->
  forall sig, mask' sig = capture_set sig && negb (mask sig).
Proof.
  assert (Hm : forall sig,
             sig_unblock (sig_block mask capture_set) mask sig =
             capture_set sig && negb (mask sig)).
  { intros sig. unfold sig_unblock, sig_block.
    destruct (mask sig), (capture_set sig); reflexivity. }
  unfold v4l2_capture.
  destruct ((pframe s >=? 0) && (qbuf_ret a =? -1)).
  - intros [= _ _ <- _]. exact Hm.
  - destruct (dqbuf a) as [[index bytesused]|].
    + destruct (buffers s); [|discriminate]. intros [= _ _ <- _]. exact Hm.
    + intros [= _ _ <- _]. exact Hm.
Qed.

Lemma capture_leaves_signals_blocked_witness :
  let nothing_blocked : sigset_t := fun _ => false in
  match v4l2_capture (mk_answers 0 (Some (0, 100)))
          (snd (fst (v4l2_mmap_set four_buffers (opened 5)))) nothing_blocked with
  | Some (_, _, mask', _) => mask' SIGTERM = true
  | None => False
  end.
Proof.
  exact (capture_leaves_signals_blocked (mk_answers 0 (Some (0, 100)))
           (snd (fst (v4l2_mmap_set four_buffers (opened 5)))) (fun _ => false)
           _ _ _ _ eq_refl SIGTERM).
Defined.

Lemma last_cons_default {A : Type} (l : list A) :
  forall x d, last (x :: l) d = last l x.
Proof.
  induction l as [|y l IH]; intros x d; [reflexivity|].
  change (last (x :: y :: l) d) with (last (y :: l) d).
  now rewrite !IH.
Qed.

Lemma captures_trace answers :
  forall s mask held bufs,
  match held with
  | None => pframe s = -1
  | Some p => 0 <= pframe s /\ buf_index s = p
  end ->
  buffers s = Some bufs ->
  Forall (fun a => qbuf_ret a <> -1 /\
                   exists index bytesused,
                     dqbuf a = Some (index, bytesused) /\ 0 <= index < 2 ^ 31)
    answers ->
  exists s' mask',
    captures answers s mask =
      Some (s', mask', capture_trace held (handed_out answers)) /\
    pframe s' = last (handed_out answers) (pframe s).
Proof.
  induction answers as [|a answers IH]; intros s mask held bufs Hheld Hb Hall.
  - exists s, mask. split; reflexivity.
  - inversion Hall as [|? ? (Hq & index & bytesused & Hd & Hi) Hrest]; subst.
    cbn [captures]. unfold v4l2_capture.
    apply Z.eqb_neq in Hq. rewrite Hq, andb_false_r, Hd, Hb.
    set (s1 := mk_state _ _ _ _ index _ (to_int index)).
    set (mask1 := sig_unblock _ _).
    assert (Hint : to_int index = index).
    { unfold to_int. destruct (Z.ltb_spec index (2 ^ 31)); lia. }
    destruct (IH s1 mask1 (Some index)
                (update_buff (Z.to_nat index)
                   (fun b => mk_buff (ptr b) (to_int bytesused) (size b) bytesused)
                   bufs))
      as (s' & mask' & Hc & Hp).
    + cbn [pframe buf_index s1]. rewrite Hint. split; [lia | reflexivity].
    + reflexivity.
    + exact Hrest.
    + exists s', mask'. rewrite Hc. split.
      * f_equal. f_equal. cbn [handed_out flat_map]. rewrite Hd.
        cbn [app capture_trace]. fold (handed_out answers).
        destruct held as [p|].
        -- destruct Hheld as [Hge ->]. apply Z.geb_le in Hge. rewrite Hge.
           reflexivity.
        -- rewrite Hheld. reflexivity.
      * rewrite Hp. cbn [handed_out flat_map]. rewrite Hd.
        fold (handed_out answers). cbn [pframe s1 app]. rewrite Hint.
        symmetry. apply last_cons_default.
Qed.

(** While captures succeed, every buffer taken from the driver is given
    back before the next one is taken, and the buffer given back is the
    one taken by the capture before; the first capture after the set-up
    gives nothing back. *)
Theorem captures_give_back_what_they_took answers s mask bufs :
  pframe s = -1 ->
  buffers s = Some bufs ->
  Forall (fun a => qbuf_ret a <> -1 /\
                   exists index bytesused,
                     dqbuf a = Some (index, bytesused) /\ 0 <= index < 2 ^ 31)
    answers ->
  exists s' mask',
    captures answers s mask =
      Some (s', mask', capture_trace None (handed_out answers)) /\
    pframe s' = last (handed_out answers) (-1).
Proof.
  intros Hp Hb Hall.
  destruct (captures_trace answers s mask None bufs Hp Hb Hall)
    as (s' & mask' & Hc & Hl).
  exists s', mask'. rewrite <- Hp. auto.
Qed.

Lemma captures_give_back_what_they_took_witness :
  exists s' mask',
    captures [mk_answers 0 (Some (0, 100)); mk_answers 0 (Some (1, 100));
              mk_answers 0 (Some (2, 100))]
      (snd (fst (v4l2_mmap_set four_buffers (opened 5)))) (fun _ => false) =
    Some (s', mask',
          [VIDIOC_DQBUF; VIDIOC_QBUF 0; VIDIOC_DQBUF; VIDIOC_QBUF 1;
           VIDIOC_DQBUF]) /\
    pframe s' = 2.
Proof.
  refine (captures_give_back_what_they_took
            [mk_answers 0 (Some (0, 100)); mk_answers 0 (Some (1, 100));
             mk_answers 0 (Some (2, 100))]
            (snd (fst (v4l2_mmap_set four_buffers (opened 5)))) (fun _ => false)
            _ eq_refl eq_refl _).
  repeat constructor; try discriminate;
    (eexists; eexists; split; [reflexivity | vm_compute; split; [discriminate | reflexivity]]).
Defined.

End StreamFacts.

(** ** v4l2_parms_valid *)

Module ParmsValidFacts.
Import ParmsValid.

Lemma fold_flag {A : Type} (test : A -> bool) (l : list A) (r0 : Z) :
  fold_left (fun retcd x => if test x then 1 else retcd) l r0 =
  if existsb test l then 1 else r0.
Proof.
  revert r0. induction l as [|x l IH]; intros r0; cbn [fold_left existsb];
    [reflexivity|].
  rewrite IH. destruct (test x); cbn [orb]; [|reflexivity].
  destruct (existsb test l); reflexivity.
Qed.

Lemma fold_flag_nested {A B : Type} (inner : A -> list B) (test : A -> B -> bool)
    (l : list A) (r0 : Z) :
  fold_left
    (fun retcd x =>
       fold_left (fun retcd y => if test x y then 1 else retcd) (inner x) retcd)
    l r0 =
  if existsb (fun x => existsb (test x) (inner x)) l then 1 else r0.
Proof.
  revert r0. induction l as [|x l IH]; intros r0; cbn [fold_left existsb];
    [reflexivity|].
  rewrite IH, fold_flag. destruct (existsb (test x) (inner x)); cbn [orb];
    [|reflexivity].
  destruct (existsb _ l); reflexivity.
Qed.

Section ParmsValidFacts.
Variable sys_open : string -> Z.
Variable enum : Z -> list dev_format.

Local Abbreviation v4l2_parms_valid := (v4l2_parms_valid sys_open enum).

Lemma parms_valid_flag video_device v4l2_palette v4l2_fps v4l2_width v4l2_height :
  v4l2_parms_valid video_device v4l2_palette v4l2_fps v4l2_width v4l2_height =
  if (0 <=? sys_open video_device)
     && existsb
          (fun f =>
             existsb
               (fun s =>
                  existsb (matches v4l2_palette v4l2_fps v4l2_width v4l2_height f s)
                    (intervals s))
               (sizes f))
          (enum (sys_open video_device))
  then 1 else 0.
Proof.
  unfold ParmsValid.v4l2_parms_valid.
  destruct (Z.ltb_spec (sys_open video_device) 0) as [Hneg | Hpos].
  - destruct (Z.leb_spec 0 (sys_open video_device)); [lia | reflexivity].
  - destruct (Z.leb_spec 0 (sys_open video_device)); [|lia]. cbn [andb].
    induction (enum (sys_open video_device)) as [|f l IH] using rev_ind;
      [reflexivity|].
    rewrite fold_left_app, existsb_app. cbn [fold_left existsb].
    rewrite IH, orb_false_r.
    rewrite (fold_flag_nested intervals
               (matches v4l2_palette v4l2_fps v4l2_width v4l2_height f)).
    destruct (existsb _ (sizes f)); [now rewrite orb_true_r|].
    now rewrite orb_false_r.
Qed.

Lemma parms_valid_matches video_device v4l2_palette v4l2_fps v4l2_width
    v4l2_height :
  v4l2_parms_valid video_device v4l2_palette v4l2_fps v4l2_width v4l2_height = 1 <->
  0 <= sys_open video_device /\
  exists f s numerator denominator,
    In f (enum (sys_open video_device)) /\ In s (sizes f) /\
    In (numerator, denominator) (intervals s) /\
    pixelformat f = v4l2id v4l2_palette /\
    to_int (discrete_width s) = v4l2_width /\
    to_int (discrete_height s) = v4l2_height /\
    to_int numerator = 1 /\ to_int denominator = v4l2_fps.
Proof.
  rewrite parms_valid_flag.
  destruct (Z.leb_spec 0 (sys_open video_device)) as [Hpos | Hneg]; cbn [andb].
  - destruct (existsb _ (enum (sys_open video_device))) eqn:Ex.
    + split; [|reflexivity]. intros _.
      split; [exact Hpos|].
      apply existsb_exists in Ex. destruct Ex as (f & Hf & Ex).
      apply existsb_exists in Ex. destruct Ex as (s & Hs & Ex).
      apply existsb_exists in Ex. destruct Ex as ([num den] & Hi & Hm).
      unfold matches in Hm. cbn [fst snd] in Hm.
      repeat (apply andb_true_iff in Hm; destruct Hm as [Hm ?]).
      exists f, s, num, den.
      repeat match goal with H : (_ =? _) = true |- _ => apply Z.eqb_eq in H end.
      repeat split; auto.
    + split; [discriminate|].
      intros (_ & f & s & num & den & Hf & Hs & Hi & Hp & Hw & Hh & Hn & Hd).
      exfalso. apply Bool.not_true_iff_false in Ex. apply Ex.
      apply existsb_exists. exists f. split; [exact Hf|].
      apply existsb_exists. exists s. split; [exact Hs|].
      apply existsb_exists. exists (num, den). split; [exact Hi|].
      unfold matches. cbn [fst snd].
      rewrite Hp, Hw, Hh, Hn, Hd, !Z.eqb_refl. reflexivity.
  - split; [discriminate | intros [H _]; lia].
Qed.

(** [v4l2_parms_valid] returns 1 when the device opens and one of the
    frame intervals it enumerates is exactly 1/fps, for exactly the
    requested width and height, under the pixel format of the requested
    palette; it returns 0 in every other case. The palette is an index of
    the catalog. *)
Theorem parms_valid_exact_match video_device v4l2_palette v4l2_fps
    v4l2_width v4l2_height :
  0 <= v4l2_palette <= V4L2_PALETTE_COUNT_MAX ->
  let r := v4l2_parms_valid video_device v4l2_palette v4l2_fps v4l2_width
             v4l2_height in
  (r = 0 \/ r = 1) /\
  (r = 1 <->
   0 <= sys_open video_device /\
   exists f s numerator denominator,
     In f (enum (sys_open video_device)) /\ In s (sizes f) /\
     In (numerator, denominator) (intervals s) /\
     pixelformat f = v4l2id v4l2_palette /\
     to_int (discrete_width s) = v4l2_width /\
     to_int (discrete_height s) = v4l2_height /\
     to_int numerator = 1 /\ to_int denominator = v4l2_fps).
Proof.
  intros _ r. split.
  - subst r. rewrite parms_valid_flag. destruct (_ && _); auto.
  - apply parms_valid_matches.
Qed.

(** Parameters that [v4l2_parms_valid] accepts name a palette that
    [v4l2_palette_valid] accepts on the same device. *)
Theorem parms_valid_implies_palette_valid video_device v4l2_palette v4l2_fps
    v4l2_width v4l2_height :
  0 <= v4l2_palette <= V4L2_PALETTE_COUNT_MAX ->
  v4l2_parms_valid video_device v4l2_palette v4l2_fps v4l2_width v4l2_height = 1 ->
  Palette.v4l2_palette_valid sys_open (fun fd => map pixelformat (enum fd))
    video_device v4l2_palette = 1.
Proof.
  intros Hrange H.
  apply parms_valid_matches in H.
  destruct H as (Hpos & f & _ & _ & _ & Hf & _ & _ & Hp & _).
  unfold Palette.v4l2_palette_valid.
  destruct (Z.ltb_spec (sys_open video_device) 0); [lia|].
  rewrite PaletteFacts.palette_scan_result.
  assert (Hex : existsb (Z.eqb (v4l2id v4l2_palette))
                  (map pixelformat (enum (sys_open video_device))) = true).
  { apply existsb_exists. exists (pixelformat f). split.
    - now apply in_map.
    - rewrite Hp. apply Z.eqb_refl. }
  now rewrite Hex.
Qed.

End ParmsValidFacts.

Lemma parms_valid_exact_match_witness :
  v4l2_parms_valid Palette.open_video0 video0_modes "/dev/video0" 15 15 640 480 = 1.
Proof.
  refine (proj2 (proj2 (parms_valid_exact_match Palette.open_video0 video0_modes
                          "/dev/video0" 15 15 640 480 _)) _);
    [vm_compute; split; discriminate|].
  split; [vm_compute; discriminate|].
  exists (mk_format V4L2_PIX_FMT_YUYV [mk_size 640 480 [(1, 30); (1, 15)]]),
         (mk_size 640 480 [(1, 30); (1, 15)]), 1, 15.
  repeat split; cbn; auto.
Defined.

Lemma parms_valid_implies_palette_valid_witness :
  Palette.v4l2_palette_valid Palette.open_video0
    (fun fd => map pixelformat (video0_modes fd)) "/dev/video0" 15 = 1.
Proof.
  refine (parms_valid_implies_palette_valid Palette.open_video0 video0_modes
            "/dev/video0" 15 30 640 480 _ eq_refl).
  vm_compute. split; discriminate.
Defined.

End ParmsValidFacts.
